(** * DSRT engine core: Vector2, Vector3, Vector4 and the MathUtils quantisers

    A shallow embedding of [src/core/Vector3.js], [src/core/Vector4.js]
    (which also carries the Vector2 class) and of the functions of
    [src/core/MathUtils.js] that are fixed by ECMAScript on binary64
    numbers: [clamp], the quantisers, the smooth steps, [sign], the
    differences and [generateUUID].

    - JavaScript numbers are IEEE-754 binary64 values: Rocq's primitive
      [float].  A component of a vector holds a number or [undefined]
      (an array read past the end, an omitted argument).
    - Vectors are mutable objects: they live in a store indexed by
      locations, methods take the location of [this] and of their vector
      arguments, so that aliasing ([v.add(v)], the module-level scratch
      vector [_vector]) is the aliasing of the source.
    - A call of the [onChange] observer is recorded in a trace, with the
      callback and the object it received.  What the callback does is
      outside the classes: it is taken not to write to the vectors.
    - Methods are computations in a state-and-exception monad; a method
      call on [undefined] throws a TypeError.
    - The parts of the host that ECMAScript does not fix ([Math.sin],
      [Math.random], ...) and the modules that are not at hand
      ([identity.js], [Quaternion.js]) are a parameter of the methods
      that use them. *)

From Stdlib Require Import Floats ZArith List Lia Bool String.
From stdpp Require Import gmap.
Import ListNotations.

Set Warnings "-inexact-float".

(* ================================================================== *)
(** * JavaScript values held by the components *)
(* ================================================================== *)

Inductive jsval : Type :=
| JNum (f : float)
| JUndef.

Arguments JNum f%_float.

(** [ToNumber]: [undefined] converts to [NaN]. *)
Definition ToNumber (v : jsval) : float :=
  match v with
  | JNum f => f
  | JUndef => nan
  end.

(** [ToBoolean]: [0], [-0], [NaN] and [undefined] are falsy. *)
Definition ToBoolean (v : jsval) : bool :=
  match v with
  | JNum f => negb (is_nan f || is_zero f)
  | JUndef => false
  end.

(** [a === b] *)
Definition strict_eq (a b : jsval) : bool :=
  match a, b with
  | JNum f, JNum g => (f =? g)%float
  | JUndef, JUndef => true
  | _, _ => false
  end.

Definition jadd (a b : jsval) : jsval := JNum (ToNumber a + ToNumber b).
Definition jsub (a b : jsval) : jsval := JNum (ToNumber a - ToNumber b).
Definition jmul (a b : jsval) : jsval := JNum (ToNumber a * ToNumber b).
Definition jdiv (a b : jsval) : jsval := JNum (ToNumber a / ToNumber b).
Definition jneg (a : jsval) : jsval := JNum (- ToNumber a).

(** [a < b] and [a > b]; a comparison with [NaN] is false. *)
Definition jlt (a b : jsval) : bool := (ToNumber a <? ToNumber b)%float.
Definition jgt (a b : jsval) : bool := (ToNumber b <? ToNumber a)%float.

Declare Scope jv_scope.
Delimit Scope jv_scope with jv.
Bind Scope jv_scope with jsval.
Notation "a + b" := (jadd a b) : jv_scope.
Notation "a - b" := (jsub a b) : jv_scope.
Notation "a * b" := (jmul a b) : jv_scope.
Notation "a / b" := (jdiv a b) : jv_scope.
Notation "- a" := (jneg a) : jv_scope.
Notation "a < b" := (jlt a b) : jv_scope.
Notation "a > b" := (jgt a b) : jv_scope.

(** [a || b] on values. *)
Definition jor (a b : jsval) : jsval := if ToBoolean a then a else b.

(* ------------------------------------------------------------------ *)
(** ** The exactly specified part of [Math] *)

Definition fmax (a b : float) : float :=
  if is_nan a || is_nan b then nan
  else if (a <? b)%float then b
  else if (b <? a)%float then a
  else if get_sign a then b else a.

Definition fmin (a b : float) : float :=
  if is_nan a || is_nan b then nan
  else if (a <? b)%float then a
  else if (b <? a)%float then b
  else if get_sign a then a else b.

(** Rounding a finite non-integral float [(-1)^s * m * 2^e], [e < 0], to
    an integer: [pick s m k] is the magnitude of the result for the
    magnitude [m / 2^k]; the sign of the argument is kept, so that a zero
    result of a negative argument is [-0]. *)
Definition to_integral (pick : bool -> Z -> Z -> Z) (f : float) : float :=
  match Prim2SF f with
  | S754_finite s m e =>
      if (0 <=? e)%Z then f
      else
        let r := of_uint63 (Uint63.of_Z (pick s (Z.pos m) (- e)%Z)) in
        if s then (- r)%float else r
  | _ => f
  end.

Definition shr_down (m k : Z) : Z := Z.shiftr m k.
Definition shr_up (m k : Z) : Z := Z.shiftr (m + Z.shiftl 1 k - 1) k.

Definition ffloor : float -> float :=
  to_integral (fun s m k => if s then shr_up m k else shr_down m k).
Definition fceil : float -> float :=
  to_integral (fun s m k => if s then shr_down m k else shr_up m k).
Definition ftrunc : float -> float :=
  to_integral (fun _ m k => shr_down m k).
(** [Math.round]: nearest integer, ties towards [+Infinity]. *)
Definition fround : float -> float :=
  to_integral (fun s m k =>
    if s then Z.shiftr (m + Z.shiftl 1 (k - 1) - 1) k
    else Z.shiftr (m + Z.shiftl 1 (k - 1)) k).

Definition Math_sqrt (v : jsval) : jsval := JNum (sqrt (ToNumber v)).
Definition Math_abs (v : jsval) : jsval := JNum (abs (ToNumber v)).
Definition Math_max (a b : jsval) : jsval := JNum (fmax (ToNumber a) (ToNumber b)).
Definition Math_min (a b : jsval) : jsval := JNum (fmin (ToNumber a) (ToNumber b)).
Definition Math_floor (v : jsval) : jsval := JNum (ffloor (ToNumber v)).
Definition Math_ceil (v : jsval) : jsval := JNum (fceil (ToNumber v)).
Definition Math_round (v : jsval) : jsval := JNum (fround (ToNumber v)).
Definition Math_trunc (v : jsval) : jsval := JNum (ftrunc (ToNumber v)).
Definition Math_PI : jsval := JNum 0x1.921fb54442d18p+1.

(* ------------------------------------------------------------------ *)
(** ** What the host and the absent modules provide

    ECMAScript leaves [Math.sin], [Math.cos], [Math.acos], [Math.atan2] and [**]
    implementation-approximated, and [Math.random] host-defined;
    [generateId] ([core/identity.js]) and the [Quaternion] class
    ([core/Quaternion.js]) are not part of the sources at hand.  The model
    takes them as a parameter. *)

Record Platform : Type := {
  host_sin : float -> float;
  host_cos : float -> float;
  host_acos : float -> float;
  host_atan2 : float -> float -> float;
  host_pow : float -> float -> float;
  (** the [n]-th draw of [Math.random()] *)
  host_random : nat -> float;
  (** [generateId(kind)], at the [n]-th call *)
  generateId : string -> nat -> string;
  (** the components [(x, y, z, w)] that [Quaternion.setFromEuler] and
      [Quaternion.setFromAxisAngle] leave in the quaternion *)
  quat_from_euler : jsval * jsval * jsval -> jsval * jsval * jsval * jsval;
  quat_from_axis_angle :
    jsval * jsval * jsval -> jsval -> jsval * jsval * jsval * jsval
}.

(* ================================================================== *)
(** * Objects, the store and the trace of observer calls *)
(* ================================================================== *)

Definition loc := nat.

(** A callback function, by identity. *)
Definition callback := nat.

Inductive Field : Type := X | Y | Z | W.

(** The type tag of an object: [isVector2], [isVector3], [isVector4],
    or a collaborator that only exposes [x, y, z, w]. *)
Inductive Tag : Type := IsVector2 | IsVector3 | IsVector4 | IsOther.

Record Obj : Type := mkObj {
  dsrt_id : string;           (* __dsrt_id *)
  dsrt_origin : string;       (* __dsrt_origin *)
  isDirty : bool;
  onChange : option callback; (* null, or a function *)
  obj_x : jsval;
  obj_y : jsval;
  obj_z : jsval;
  obj_w : jsval;
  tag : Tag
}.

Definition get_field (f : Field) (o : Obj) : jsval :=
  match f with
  | X => obj_x o
  | Y => obj_y o
  | Z => obj_z o
  | W => obj_w o
  end.

Definition set_field (f : Field) (v : jsval) (o : Obj) : Obj :=
  match f with
  | X => mkObj (dsrt_id o) (dsrt_origin o) (isDirty o) (onChange o)
               v (obj_y o) (obj_z o) (obj_w o) (tag o)
  | Y => mkObj (dsrt_id o) (dsrt_origin o) (isDirty o) (onChange o)
               (obj_x o) v (obj_z o) (obj_w o) (tag o)
  | Z => mkObj (dsrt_id o) (dsrt_origin o) (isDirty o) (onChange o)
               (obj_x o) (obj_y o) v (obj_w o) (tag o)
  | W => mkObj (dsrt_id o) (dsrt_origin o) (isDirty o) (onChange o)
               (obj_x o) (obj_y o) (obj_z o) v (tag o)
  end.

Definition set_dirty (o : Obj) : Obj :=
  mkObj (dsrt_id o) (dsrt_origin o) true (onChange o)
        (obj_x o) (obj_y o) (obj_z o) (obj_w o) (tag o).

Definition set_onChange (cb : option callback) (o : Obj) : Obj :=
  mkObj (dsrt_id o) (dsrt_origin o) (isDirty o) cb
        (obj_x o) (obj_y o) (obj_z o) (obj_w o) (tag o).

(** One call [cb(arg)] of an observer. *)
Record Event : Type := Notify { ev_callback : callback; ev_arg : loc }.

Record State : Type := mkState {
  heap : gmap loc Obj;
  next_loc : loc;
  trace : list Event;        (* observer calls, oldest first *)
  rand_calls : nat;          (* draws of Math.random() so far *)
  ids_issued : nat           (* calls of generateId so far *)
}.

Definition with_heap (h : gmap loc Obj) (st : State) : State :=
  mkState h (next_loc st) (trace st) (rand_calls st) (ids_issued st).

Definition with_trace (t : list Event) (st : State) : State :=
  mkState (heap st) (next_loc st) t (rand_calls st) (ids_issued st).

(** The module-level scratch objects: [const _vector = new Vector3()] of
    Vector3.js and its [_quaternion].  Their declarations are not in the
    file; they are private to the module, so no observer is ever attached
    to them. *)
Definition _vector : loc := 0.
Definition _quaternion : loc := 1.

(* ================================================================== *)
(** * The monad of methods: state and exceptions *)
(* ================================================================== *)

Inductive Error : Type :=
| JSError (msg : string)     (* throw new Error(msg) *)
| TypeError.                 (* a property of undefined, a call of undefined *)

Inductive Res (A : Type) : Type :=
| Ok (a : A) (st : State)
| Throw (e : Error) (st : State).

Arguments Ok {A} a st.
Arguments Throw {A} e st.

Definition M (A : Type) : Type := State -> Res A.

Definition ret {A} (a : A) : M A := fun st => Ok a st.

Definition bind {A B} (c : M A) (k : A -> M B) : M B :=
  fun st =>
    match c st with
    | Ok a st' => k a st'
    | Throw e st' => Throw e st'
    end.

Definition throw {A} (e : Error) : M A := fun st => Throw e st.

Declare Scope js_scope.
Delimit Scope js_scope with js.

Notation "x <- c ;; k" := (bind c (fun x => k))
  (at level 100, c at next level, k at level 200, right associativity) : js_scope.
Notation "c ;; k" := (bind c (fun _ => k))
  (at level 100, k at level 200, right associativity) : js_scope.

Local Open Scope js_scope.

(** The value of a call: an object, [undefined], or nothing of interest. *)
Inductive jsret : Type :=
| RObj (l : loc)
| RUndef.

(** [r.method(...)]: a method call on what a call returned. *)
Definition on {A} (r : jsret) (method : loc -> M A) : M A :=
  match r with
  | RObj l => method l
  | RUndef => throw TypeError
  end.

(** ** Expressions: computations of a value, read left to right *)

Definition Expr : Type := M jsval.

Definition lit (v : jsval) : Expr := ret v.
Coercion lit : jsval >-> Expr.

Definition lift1 (f : jsval -> jsval) (e : Expr) : Expr :=
  a <- e;; ret (f a).

Definition lift2 {A} (f : jsval -> jsval -> A) (e1 e2 : Expr) : M A :=
  a <- e1;; b <- e2;; ret (f a b).

(** [l.f] *)
Definition rd (l : loc) (f : Field) : Expr :=
  fun st =>
    match heap st !! l with
    | Some o => Ok (get_field f o) st
    | None => Throw TypeError st
    end.

(** [l.f = v] *)
Definition wr (l : loc) (f : Field) (v : jsval) : M unit :=
  fun st =>
    match heap st !! l with
    | Some o => Ok tt (with_heap (<[l := set_field f v o]> (heap st)) st)
    | None => Throw TypeError st
    end.

(** [l.f = e] *)
Definition store (l : loc) (f : Field) (e : Expr) : M unit :=
  v <- e;; wr l f v.

Declare Scope expr_scope.
Delimit Scope expr_scope with expr.
Bind Scope expr_scope with Expr.

Notation "l .[ f ]" := (rd l f) (at level 1, f at level 99, format "l .[ f ]") : js_scope.
Notation "l .[ f ] ::= e" := (store l f e%expr)
  (at level 1, f at level 99, e at level 60) : js_scope.
Notation "a + b" := (lift2 jadd a b) : expr_scope.
Notation "a - b" := (lift2 jsub a b) : expr_scope.
Notation "a * b" := (lift2 jmul a b) : expr_scope.
Notation "a / b" := (lift2 jdiv a b) : expr_scope.
Notation "- a" := (lift1 jneg a) : expr_scope.
Notation "a < b" := (lift2 jlt a b) : expr_scope.
Notation "a > b" := (lift2 jgt a b) : expr_scope.
Notation "a === b" := (lift2 strict_eq a b) (at level 70) : expr_scope.
Notation "'#' f" := (lit (JNum f)) (at level 1, f at level 0, format "# f") : expr_scope.

(** [a || b]: [b] is evaluated only when [a] is falsy. *)
Definition or_else (a b : Expr) : Expr :=
  v <- a;; if ToBoolean v then ret v else b.

Definition ifM {A} (c : M bool) (t e : M A) : M A :=
  b <- c;; if b then t else e.

(** [a && b] on conditions: [b] is evaluated only when [a] holds. *)
Definition and_then (a b : M bool) : M bool :=
  ifM a b (ret false).

(** The private method [#markDirty()], the same in the three classes:
    [this.isDirty = true; if (typeof this.onChange === 'function')
    this.onChange(this);]. *)
Definition markDirty (this : loc) : M unit :=
  fun st =>
    match heap st !! this with
    | Some o =>
        let st1 := with_heap (<[this := set_dirty o]> (heap st)) st in
        match onChange o with
        | Some cb => Ok tt (with_trace (trace st1 ++ [Notify cb this]) st1)
        | None => Ok tt st1
        end
    | None => Throw TypeError st
    end.

(** [Math.random()] *)
Definition Math_random (P : Platform) : Expr :=
  fun st =>
    Ok (JNum (host_random P (rand_calls st)))
       (mkState (heap st) (next_loc st) (trace st) (S (rand_calls st)) (ids_issued st)).

Definition Math_sin (P : Platform) (v : jsval) : jsval := JNum (host_sin P (ToNumber v)).
Definition Math_cos (P : Platform) (v : jsval) : jsval := JNum (host_cos P (ToNumber v)).
Definition Math_acos (P : Platform) (v : jsval) : jsval := JNum (host_acos P (ToNumber v)).
Definition Math_atan2 (P : Platform) (a b : jsval) : jsval :=
  JNum (host_atan2 P (ToNumber a) (ToNumber b)).
Definition js_pow (P : Platform) (a b : jsval) : jsval :=
  JNum (host_pow P (ToNumber a) (ToNumber b)).

(** [array[i]]: a hole, or an index past the end, reads [undefined]. *)
Definition aget (a : list jsval) (i : nat) : jsval := nth i a JUndef.

(** [array[i] = v]: writing past the end extends the array, the holes in
    between read [undefined]. *)
Fixpoint aset (a : list jsval) (i : nat) (v : jsval) : list jsval :=
  match i, a with
  | O, [] => [v]
  | O, _ :: t => v :: t
  | S i', [] => JUndef :: aset [] i' v
  | S i', h :: t => h :: aset t i' v
  end.

(* ================================================================== *)
(** * MathUtils *)
(* ================================================================== *)

Module MathUtils.

(** [clamp(v, min, max) = Math.max(min, Math.min(max, v))] *)
Definition clamp (v min max : jsval) : jsval :=
  Math_max min (Math_min max v).

(** [array.constructor] of the second argument of the quantisers. *)
Inductive ArrayCtor : Type :=
| Float32Array | Uint32Array | Uint16Array | Uint8Array
| Int32Array | Int16Array | Int8Array
| OtherCtor (name : string).   (* Float64Array, Array, Uint8ClampedArray, ... *)

Definition normalize (value : jsval) (array : ArrayCtor) : Error + jsval :=
  match array with
  | Float32Array => inr value
  | Uint32Array => inr (Math_round (jmul value (JNum 4294967295)))
  | Uint16Array => inr (Math_round (jmul value (JNum 65535)))
  | Uint8Array => inr (Math_round (jmul value (JNum 255)))
  | Int32Array => inr (Math_round (jmul value (JNum 2147483647)))
  | Int16Array => inr (Math_round (jmul value (JNum 32767)))
  | Int8Array => inr (Math_round (jmul value (JNum 127)))
  | OtherCtor _ => inl (JSError "Invalid type")
  end.

Definition denormalize (value : jsval) (array : ArrayCtor) : Error + jsval :=
  match array with
  | Float32Array => inr value
  | Uint32Array => inr (jdiv value (JNum 4294967295))
  | Uint16Array => inr (jdiv value (JNum 65535))
  | Uint8Array => inr (jdiv value (JNum 255))
  | Int32Array => inr (Math_max (jdiv value (JNum 2147483647)) (JNum (-1)))
  | Int16Array => inr (Math_max (jdiv value (JNum 32767)) (JNum (-1)))
  | Int8Array => inr (Math_max (jdiv value (JNum 127)) (JNum (-1)))
  | OtherCtor _ => inl (JSError "Invalid type")
  end.

(** [smoothstep(x, min, max)]; [x >= max] is [max <= x]. *)
Definition smoothstep (x min max : jsval) : jsval :=
  if (ToNumber x <=? ToNumber min)%float then JNum 0
  else if (ToNumber max <=? ToNumber x)%float then JNum 1
  else
    let x := ((x - min) / (max - min))%jv in
    (x * x * (JNum 3 - JNum 2 * x))%jv.

Definition smootherstep (x min max : jsval) : jsval :=
  if (ToNumber x <=? ToNumber min)%float then JNum 0
  else if (ToNumber max <=? ToNumber x)%float then JNum 1
  else
    let x := ((x - min) / (max - min))%jv in
    (x * x * x * (x * (x * JNum 6 - JNum 15) + JNum 10))%jv.

(** A boolean as an operand of [-]: [true] is 1, [false] is 0. *)
Definition of_bool (b : bool) : jsval := if b then JNum 1 else JNum 0.

(** [sign(x) = (x > 0) - (x < 0)] *)
Definition sign (x : jsval) : jsval :=
  (of_bool (x > JNum 0) - of_bool (x < JNum 0))%jv.

(** ** [generateUUID]

    [ToInt32] of a number: truncated towards zero, then modulo [2^32]
    into [-2^31 .. 2^31 - 1]; 0 for [NaN] and the infinities. *)
Definition truncate (f : float) : BinNums.Z :=
  match Prim2SF f with
  | S754_finite s m e =>
      let a := if (0 <=? e)%Z then Z.shiftl (Z.pos m) e
               else Z.shiftr (Z.pos m) (- e) in
      if s then (- a)%Z else a
  | _ => 0%Z
  end.

Definition ToInt32 (f : float) : BinNums.Z :=
  let k := (truncate f mod 4294967296)%Z in
  if (2147483648 <=? k)%Z then (k - 4294967296)%Z else k.

Definition hex_digit (n : nat) : Ascii.ascii :=
  match String.get n "0123456789abcdef" with
  | Some c => c
  | None => Ascii.Space
  end.

(** [i.toString(16).padStart(2, '0')] for [i] below 256. *)
Definition to_hex2 (i : nat) : string :=
  String (hex_digit (i / 16)) (String (hex_digit (i mod 16)) EmptyString).

(** [const _lut = Array.from({length: 256}, ...)] *)
Definition _lut : list string := map to_hex2 (seq 0 256).

(** [_lut[i]] as an element of the array that is joined: an index
    outside the table reads [undefined], which [join] writes as the
    empty string. *)
Definition lut_at (i : BinNums.Z) : string :=
  if (i <? 0)%Z then EmptyString else nth (Z.to_nat i) _lut EmptyString.

Definition lower (c : Ascii.ascii) : Ascii.ascii :=
  let n := Ascii.nat_of_ascii c in
  if (65 <=? n)%nat && (n <=? 90)%nat then Ascii.ascii_of_nat (n + 32) else c.

Fixpoint toLowerCase (s : string) : string :=
  match s with
  | EmptyString => EmptyString
  | String c t => String (lower c) (toLowerCase t)
  end.

(** The string of [generateUUID] for the four 32-bit integers drawn. *)
Definition uuid_of (d0 d1 d2 d3 : BinNums.Z) : string :=
  toLowerCase (String.concat EmptyString
    [lut_at (Z.land d0 255); lut_at (Z.land (Z.shiftr d0 8) 255);
     lut_at (Z.land (Z.shiftr d0 16) 255); lut_at (Z.land (Z.shiftr d0 24) 255);
     "-"%string;
     lut_at (Z.land d1 255); lut_at (Z.land (Z.shiftr d1 8) 255);
     "-"%string;
     lut_at (Z.lor (Z.land (Z.shiftr d1 16) 15) 64);
     lut_at (Z.land (Z.shiftr d1 24) 255);
     "-"%string;
     lut_at (Z.lor (Z.land d2 63) 128); lut_at (Z.land (Z.shiftr d2 8) 255);
     "-"%string;
     lut_at (Z.land (Z.shiftr d2 16) 255); lut_at (Z.land (Z.shiftr d2 24) 255);
     lut_at (Z.land d3 255); lut_at (Z.land (Z.shiftr d3 8) 255);
     lut_at (Z.land (Z.shiftr d3 16) 255); lut_at (Z.land (Z.shiftr d3 24) 255)]).

(** [Math.random() * 0xffffffff | 0] *)
Definition random_int32 (P : Platform) : M BinNums.Z :=
  r <- Math_random P;;
  ret (Z.lor (ToInt32 (ToNumber (r * JNum 4294967295)%jv)) 0).

Definition generateUUID (P : Platform) : M string :=
  d0 <- random_int32 P;;
  d1 <- random_int32 P;;
  d2 <- random_int32 P;;
  d3 <- random_int32 P;;
  ret (uuid_of d0 d1 d2 d3).

(** ** The differences *)

Definition diffFloat (a b : jsval) : jsval := Math_abs (a - b)%jv.

Record Diff2 : Type := { d2_dx : jsval; d2_dy : jsval; d2_length : jsval }.

Record Diff3 : Type :=
  { d3_dx : jsval; d3_dy : jsval; d3_dz : jsval; d3_length : jsval }.

(** [diffVec2(v1, v2)]: the object [{dx, dy, length}]. *)
Definition diffVec2 (v1 v2 : loc) : M Diff2 :=
  dx <- (v1.[X] - v2.[X])%expr;;
  dy <- (v1.[Y] - v2.[Y])%expr;;
  ret {| d2_dx := dx; d2_dy := dy;
         d2_length := Math_sqrt (dx * dx + dy * dy)%jv |}.

Definition diffVec3 (v1 v2 : loc) : M Diff3 :=
  dx <- (v1.[X] - v2.[X])%expr;;
  dy <- (v1.[Y] - v2.[Y])%expr;;
  dz <- (v1.[Z] - v2.[Z])%expr;;
  ret {| d3_dx := dx; d3_dy := dy; d3_dz := dz;
         d3_length := Math_sqrt (dx * dx + dy * dy + dz * dz)%jv |}.

(** A number stored in a [Float32Array]: rounded to the nearest binary32
    value, ties to even. *)
Definition to_float32 (f : float) : float :=
  match Prim2SF f with
  | S754_finite s m e => SF2Prim (binary_round 24 128 s m e)
  | _ => f
  end.

(** The loop of [diffTypedArray] over the elements left, [total] being
    [totalDiff] so far: the difference is stored in the [Float32Array],
    and what is added is the element read back. *)
Fixpoint diff_loop (arr1 arr2 : list float) (total : float) : list float * float :=
  match arr1, arr2 with
  | a :: t1, b :: t2 =>
      let d := to_float32 (abs (a - b)) in
      let '(ds, total') := diff_loop t1 t2 (total + d)%float in
      (d :: ds, total')
  | _, _ => ([], total)
  end.

(** [diffTypedArray(arr1, arr2)]: [{diffArray, totalDiff}]. *)
Definition diffTypedArray (arr1 arr2 : list float) : Error + (list float * float) :=
  if negb (length arr1 =? length arr2)%nat then inl (JSError "Array length mismatch")
  else inr (diff_loop arr1 arr2 0%float).


End MathUtils.

(* ================================================================== *)
(** * The collaborators, as far as the vectors read them *)
(* ================================================================== *)

(** A matrix: its flat, column-major [elements]. *)
Record Matrix : Type := { elements : list jsval }.

Record Camera : Type := {
  matrixWorldInverse : Matrix;
  projectionMatrix : Matrix;
  projectionMatrixInverse : Matrix;
  matrixWorld : Matrix
}.

Record Euler : Type := { _x : jsval; _y : jsval; _z : jsval }.
Record Spherical : Type := { s_radius : jsval; s_phi : jsval; s_theta : jsval }.
Record Cylindrical : Type := { c_radius : jsval; c_theta : jsval; c_y : jsval }.
Record Color : Type := { r : jsval; g : jsval; b : jsval }.

Record BufferAttribute : Type := {
  getX : jsval -> jsval;
  getY : jsval -> jsval;
  getZ : jsval -> jsval;
  getW : jsval -> jsval
}.

(** A parameter with a default: [undefined] (an omitted argument) takes
    the default. *)
Definition is_undefined (v : jsval) : bool :=
  match v with
  | JUndef => true
  | JNum _ => false
  end.

Definition default_to (d : Expr) (v : jsval) : Expr :=
  if is_undefined v then d else ret v.

Definition offset_or_0 (offset : option nat) : nat :=
  match offset with
  | Some k => k
  | None => 0
  end.

(** A new object. *)
Definition alloc (o : Obj) : M loc :=
  fun st =>
    Ok (next_loc st)
       (mkState (<[next_loc st := o]> (heap st)) (S (next_loc st))
                (trace st) (rand_calls st) (ids_issued st)).

Definition gen_id (P : Platform) (kind : string) : M string :=
  fun st =>
    Ok (generateId P kind (ids_issued st))
       (mkState (heap st) (next_loc st) (trace st) (rand_calls st)
                (S (ids_issued st))).

(** [q.setFromEuler(euler)] and [q.setFromAxisAngle(axis, angle)] of the
    absent Quaternion class: they fill the quaternion and return it. *)
Definition fill_quaternion (q : loc) (c : jsval * jsval * jsval * jsval) : M jsret :=
  let '(qx, qy, qz, qw) := c in
  wr q X qx;; wr q Y qy;; wr q Z qz;; wr q W qw;;
  ret (RObj q).

Definition Quaternion_setFromEuler (P : Platform) (q : loc) (euler : Euler) : M jsret :=
  fill_quaternion q (quat_from_euler P (_x euler, _y euler, _z euler)).

Definition Quaternion_setFromAxisAngle (P : Platform) (q : loc) (axis : loc)
    (angle : jsval) : M jsret :=
  ax <- axis.[X];; ay <- axis.[Y];; az <- axis.[Z];;
  fill_quaternion q (quat_from_axis_angle P (ax, ay, az) angle).

(** [clamp(a, lo, hi)] of MathUtils on expressions, arguments read left
    to right. *)
Definition clamp3 (a lo hi : Expr) : Expr :=
  x <- a;; l <- lo;; h <- hi;; ret (MathUtils.clamp x l h).

(* ================================================================== *)
(** * Vector3 *)
(* ================================================================== *)

Module Vector3.
Section Host.
Context (P : Platform).

(** [constructor(x = 0, y = 0, z = 0)] *)
Definition constructor (x y z : jsval) : M loc :=
  id <- gen_id P "Vector3";;
  x <- default_to #0 x;;
  y <- default_to #0 y;;
  z <- default_to #0 z;;
  alloc (mkObj id "dsrt.vector3.core" false None x y z JUndef IsVector3).

(** [set(x, y, z = this.z)] *)
Definition set (this : loc) (x y z : jsval) : M jsret :=
  z <- default_to this.[Z] z;;
  this.[X] ::= x;;
  this.[Y] ::= y;;
  this.[Z] ::= z;;
  markDirty this;;
  ret (RObj this).

Definition setScalar (this : loc) (scalar : jsval) : M jsret :=
  this.[X] ::= scalar;;
  this.[Y] ::= scalar;;
  this.[Z] ::= scalar;;
  markDirty this;;
  ret (RObj this).

Definition setX (this : loc) (x : jsval) : M jsret :=
  this.[X] ::= x;;
  markDirty this;;
  ret (RObj this).

Definition setY (this : loc) (y : jsval) : M jsret :=
  this.[Y] ::= y;;
  markDirty this;;
  ret (RObj this).

Definition setZ (this : loc) (z : jsval) : M jsret :=
  this.[Z] ::= z;;
  markDirty this;;
  ret (RObj this).

(** The [switch (index)] compares with [===]; the message of the error
    carries the index. *)
Definition setComponent (this : loc) (index value : jsval) : M jsret :=
  (if strict_eq index (JNum 0) then this.[X] ::= value
   else if strict_eq index (JNum 1) then this.[Y] ::= value
   else if strict_eq index (JNum 2) then this.[Z] ::= value
   else throw (JSError "Vector3.setComponent: index out of range"));;
  markDirty this;;
  ret (RObj this).

Definition getComponent (this : loc) (index : jsval) : Expr :=
  if strict_eq index (JNum 0) then this.[X]
  else if strict_eq index (JNum 1) then this.[Y]
  else if strict_eq index (JNum 2) then this.[Z]
  else throw (JSError "Vector3.getComponent: index out of range").

(** [new this.constructor(this.x, this.y, this.z)] *)
Definition clone (this : loc) : M loc :=
  x <- this.[X];; y <- this.[Y];; z <- this.[Z];;
  constructor x y z.

Definition copy (this v : loc) : M jsret :=
  this.[X] ::= v.[X];;
  this.[Y] ::= v.[Y];;
  this.[Z] ::= v.[Z];;
  markDirty this;;
  ret (RObj this).

Definition add (this v : loc) : M jsret :=
  this.[X] ::= this.[X] + v.[X];;
  this.[Y] ::= this.[Y] + v.[Y];;
  this.[Z] ::= this.[Z] + v.[Z];;
  markDirty this;;
  ret (RObj this).

Definition addScalar (this : loc) (s : jsval) : M jsret :=
  this.[X] ::= this.[X] + s;;
  this.[Y] ::= this.[Y] + s;;
  this.[Z] ::= this.[Z] + s;;
  markDirty this;;
  ret (RObj this).

Definition addVectors (this a b : loc) : M jsret :=
  this.[X] ::= a.[X] + b.[X];;
  this.[Y] ::= a.[Y] + b.[Y];;
  this.[Z] ::= a.[Z] + b.[Z];;
  markDirty this;;
  ret (RObj this).

Definition addScaledVector (this v : loc) (s : jsval) : M jsret :=
  this.[X] ::= this.[X] + v.[X] * s;;
  this.[Y] ::= this.[Y] + v.[Y] * s;;
  this.[Z] ::= this.[Z] + v.[Z] * s;;
  markDirty this;;
  ret (RObj this).

Definition sub (this v : loc) : M jsret :=
  this.[X] ::= this.[X] - v.[X];;
  this.[Y] ::= this.[Y] - v.[Y];;
  this.[Z] ::= this.[Z] - v.[Z];;
  markDirty this;;
  ret (RObj this).

Definition subScalar (this : loc) (s : jsval) : M jsret :=
  this.[X] ::= this.[X] - s;;
  this.[Y] ::= this.[Y] - s;;
  this.[Z] ::= this.[Z] - s;;
  markDirty this;;
  ret (RObj this).

Definition subVectors (this a b : loc) : M jsret :=
  this.[X] ::= a.[X] - b.[X];;
  this.[Y] ::= a.[Y] - b.[Y];;
  this.[Z] ::= a.[Z] - b.[Z];;
  markDirty this;;
  ret (RObj this).

Definition multiply (this v : loc) : M jsret :=
  this.[X] ::= this.[X] * v.[X];;
  this.[Y] ::= this.[Y] * v.[Y];;
  this.[Z] ::= this.[Z] * v.[Z];;
  markDirty this;;
  ret (RObj this).

Definition multiplyScalar (this : loc) (scalar : jsval) : M jsret :=
  this.[X] ::= this.[X] * scalar;;
  this.[Y] ::= this.[Y] * scalar;;
  this.[Z] ::= this.[Z] * scalar;;
  markDirty this;;
  ret (RObj this).

Definition multiplyVectors (this a b : loc) : M jsret :=
  this.[X] ::= a.[X] * b.[X];;
  this.[Y] ::= a.[Y] * b.[Y];;
  this.[Z] ::= a.[Z] * b.[Z];;
  markDirty this;;
  ret (RObj this).

Definition divide (this v : loc) : M jsret :=
  this.[X] ::= this.[X] / v.[X];;
  this.[Y] ::= this.[Y] / v.[Y];;
  this.[Z] ::= this.[Z] / v.[Z];;
  markDirty this;;
  ret (RObj this).

(** [return this.multiplyScalar(1 / scalar)] *)
Definition divideScalar (this : loc) (scalar : jsval) : M jsret :=
  multiplyScalar this (jdiv (JNum 1) scalar).

Definition applyQuaternion (this q : loc) : M jsret :=
  vx <- this.[X];; vy <- this.[Y];; vz <- this.[Z];;
  qx <- q.[X];; qy <- q.[Y];; qz <- q.[Z];; qw <- q.[W];;
  tx <- (#2 * (qy * vz - qz * vy))%expr;;
  ty <- (#2 * (qz * vx - qx * vz))%expr;;
  tz <- (#2 * (qx * vy - qy * vx))%expr;;
  this.[X] ::= vx + qw * tx + qy * tz - qz * ty;;
  this.[Y] ::= vy + qw * ty + qz * tx - qx * tz;;
  this.[Z] ::= vz + qw * tz + qx * ty - qy * tx;;
  markDirty this;;
  ret (RObj this).

(** [return this.applyQuaternion(_quaternion.setFromEuler(euler))] *)
Definition applyEuler (this : loc) (euler : Euler) : M jsret :=
  q <- Quaternion_setFromEuler P _quaternion euler;;
  on q (applyQuaternion this).

Definition applyAxisAngle (this axis : loc) (angle : jsval) : M jsret :=
  q <- Quaternion_setFromAxisAngle P _quaternion axis angle;;
  on q (applyQuaternion this).

Definition applyMatrix3 (this : loc) (m : Matrix) : M jsret :=
  x <- this.[X];; y <- this.[Y];; z <- this.[Z];;
  let e := aget (elements m) in
  this.[X] ::= e 0 * x + e 3 * y + e 6 * z;;
  this.[Y] ::= e 1 * x + e 4 * y + e 7 * z;;
  this.[Z] ::= e 2 * x + e 5 * y + e 8 * z;;
  markDirty this;;
  ret (RObj this).

Definition lengthSq (this : loc) : Expr :=
  (this.[X] * this.[X] + this.[Y] * this.[Y] + this.[Z] * this.[Z])%expr.

Definition length (this : loc) : Expr :=
  lift1 Math_sqrt (lengthSq this).

Definition manhattanLength (this : loc) : Expr :=
  (lift1 Math_abs this.[X] + lift1 Math_abs this.[Y] + lift1 Math_abs this.[Z])%expr.

(** [return this.divideScalar(this.length() || 1)] *)
Definition normalize (this : loc) : M jsret :=
  d <- or_else (length this) #1;;
  divideScalar this d.

(** [return this.applyMatrix3(m).normalize()] *)
Definition applyNormalMatrix (this : loc) (m : Matrix) : M jsret :=
  r <- applyMatrix3 this m;;
  on r normalize.

Definition applyMatrix4 (this : loc) (m : Matrix) : M jsret :=
  x <- this.[X];; y <- this.[Y];; z <- this.[Z];;
  let e := aget (elements m) in
  w <- (#1 / (e 3 * x + e 7 * y + e 11 * z + e 15))%expr;;
  this.[X] ::= (e 0 * x + e 4 * y + e 8 * z + e 12) * w;;
  this.[Y] ::= (e 1 * x + e 5 * y + e 9 * z + e 13) * w;;
  this.[Z] ::= (e 2 * x + e 6 * y + e 10 * z + e 14) * w;;
  markDirty this;;
  ret (RObj this).

Definition transformDirection (this : loc) (m : Matrix) : M jsret :=
  x <- this.[X];; y <- this.[Y];; z <- this.[Z];;
  let e := aget (elements m) in
  this.[X] ::= e 0 * x + e 4 * y + e 8 * z;;
  this.[Y] ::= e 1 * x + e 5 * y + e 9 * z;;
  this.[Z] ::= e 2 * x + e 6 * y + e 10 * z;;
  normalize this.

Definition project (this : loc) (camera : Camera) : M jsret :=
  r <- applyMatrix4 this (matrixWorldInverse camera);;
  on r (fun v => applyMatrix4 v (projectionMatrix camera)).

Definition unproject (this : loc) (camera : Camera) : M jsret :=
  r <- applyMatrix4 this (projectionMatrixInverse camera);;
  on r (fun v => applyMatrix4 v (matrixWorld camera)).

(** [return this.normalize().multiplyScalar(length)] *)
Definition setLength (this : loc) (length : jsval) : M jsret :=
  r <- normalize this;;
  on r (fun v => multiplyScalar v length).

Definition lerp (this v : loc) (alpha : jsval) : M jsret :=
  this.[X] ::= this.[X] + (v.[X] - this.[X]) * alpha;;
  this.[Y] ::= this.[Y] + (v.[Y] - this.[Y]) * alpha;;
  this.[Z] ::= this.[Z] + (v.[Z] - this.[Z]) * alpha;;
  markDirty this;;
  ret (RObj this).

Definition lerpVectors (this v1 v2 : loc) (alpha : jsval) : M jsret :=
  this.[X] ::= v1.[X] + (v2.[X] - v1.[X]) * alpha;;
  this.[Y] ::= v1.[Y] + (v2.[Y] - v1.[Y]) * alpha;;
  this.[Z] ::= v1.[Z] + (v2.[Z] - v1.[Z]) * alpha;;
  markDirty this;;
  ret (RObj this).

Definition clamp (this min max : loc) : M jsret :=
  this.[X] ::= clamp3 this.[X] min.[X] max.[X];;
  this.[Y] ::= clamp3 this.[Y] min.[Y] max.[Y];;
  this.[Z] ::= clamp3 this.[Z] min.[Z] max.[Z];;
  markDirty this;;
  ret (RObj this).

Definition clampScalar (this : loc) (minVal maxVal : jsval) : M jsret :=
  this.[X] ::= clamp3 this.[X] minVal maxVal;;
  this.[Y] ::= clamp3 this.[Y] minVal maxVal;;
  this.[Z] ::= clamp3 this.[Z] minVal maxVal;;
  markDirty this;;
  ret (RObj this).

Definition clampLength (this : loc) (min max : jsval) : M jsret :=
  len <- length this;;
  r <- divideScalar this (jor len (JNum 1));;
  on r (fun v => multiplyScalar v (MathUtils.clamp len min max)).

Definition floor (this : loc) : M jsret :=
  this.[X] ::= lift1 Math_floor this.[X];;
  this.[Y] ::= lift1 Math_floor this.[Y];;
  this.[Z] ::= lift1 Math_floor this.[Z];;
  markDirty this;;
  ret (RObj this).

Definition ceil (this : loc) : M jsret :=
  this.[X] ::= lift1 Math_ceil this.[X];;
  this.[Y] ::= lift1 Math_ceil this.[Y];;
  this.[Z] ::= lift1 Math_ceil this.[Z];;
  markDirty this;;
  ret (RObj this).

Definition round (this : loc) : M jsret :=
  this.[X] ::= lift1 Math_round this.[X];;
  this.[Y] ::= lift1 Math_round this.[Y];;
  this.[Z] ::= lift1 Math_round this.[Z];;
  markDirty this;;
  ret (RObj this).

Definition roundToZero (this : loc) : M jsret :=
  this.[X] ::= lift1 Math_trunc this.[X];;
  this.[Y] ::= lift1 Math_trunc this.[Y];;
  this.[Z] ::= lift1 Math_trunc this.[Z];;
  markDirty this;;
  ret (RObj this).

Definition negate (this : loc) : M jsret :=
  this.[X] ::= - this.[X];;
  this.[Y] ::= - this.[Y];;
  this.[Z] ::= - this.[Z];;
  markDirty this;;
  ret (RObj this).

Definition dot (this v : loc) : Expr :=
  (this.[X] * v.[X] + this.[Y] * v.[Y] + this.[Z] * v.[Z])%expr.

Definition crossVectors (this a b : loc) : M jsret :=
  ax <- a.[X];; ay <- a.[Y];; az <- a.[Z];;
  bx <- b.[X];; by_ <- b.[Y];; bz <- b.[Z];;
  this.[X] ::= ay * bz - az * by_;;
  this.[Y] ::= az * bx - ax * bz;;
  this.[Z] ::= ax * by_ - ay * bx;;
  markDirty this;;
  ret (RObj this).

(** [return this.crossVectors(this, v)] *)
Definition cross (this v : loc) : M jsret :=
  crossVectors this this v.

Definition angleTo (this v : loc) : Expr :=
  denom <- lift1 Math_sqrt (lengthSq this * lengthSq v);;
  if strict_eq denom (JNum 0) then (Math_PI / #2)%expr
  else
    theta <- (dot this v / denom)%expr;;
    ret (Math_acos P (MathUtils.clamp theta (JNum (-1)) (JNum 1))).

Definition distanceToSquared (this v : loc) : Expr :=
  dx <- (this.[X] - v.[X])%expr;;
  dy <- (this.[Y] - v.[Y])%expr;;
  dz <- (this.[Z] - v.[Z])%expr;;
  (dx * dx + dy * dy + dz * dz)%expr.

Definition distanceTo (this v : loc) : Expr :=
  lift1 Math_sqrt (distanceToSquared this v).

Definition manhattanDistanceTo (this v : loc) : Expr :=
  (lift1 Math_abs (this.[X] - v.[X]) + lift1 Math_abs (this.[Y] - v.[Y])
   + lift1 Math_abs (this.[Z] - v.[Z]))%expr.

Definition projectOnVector (this v : loc) : M jsret :=
  denom <- lengthSq v;;
  if strict_eq denom (JNum 0) then set this (JNum 0) (JNum 0) (JNum 0)
  else
    scalar <- (dot this v / denom)%expr;;
    r <- copy this v;;
    on r (fun u => multiplyScalar u scalar).

(** [_vector.copy(this).projectOnVector(planeNormal);
     return this.sub(_vector).#markDirty();]
    The value returned is that of the call of [#markDirty], which has no
    [return]: [undefined]. *)
Definition projectOnPlane (this planeNormal : loc) : M jsret :=
  r <- copy _vector this;;
  on r (fun u => projectOnVector u planeNormal);;
  r <- sub this _vector;;
  on r markDirty;;
  ret RUndef.

(** [const scale = 2 * this.dot(normal);
     return this.sub(_vector.copy(normal).multiplyScalar(scale)).#markDirty();] *)
Definition reflect (this normal : loc) : M jsret :=
  scale <- (#2 * dot this normal)%expr;;
  r <- copy _vector normal;;
  a <- on r (fun u => multiplyScalar u scale);;
  r <- on a (sub this);;
  on r markDirty;;
  ret RUndef.

Definition setFromSphericalCoords (this : loc) (radius phi theta : jsval) : M jsret :=
  let sinPhiRadius := jmul (Math_sin P phi) radius in
  this.[X] ::= sinPhiRadius * Math_sin P theta;;
  this.[Y] ::= Math_cos P phi * radius;;
  this.[Z] ::= sinPhiRadius * Math_cos P theta;;
  markDirty this;;
  ret (RObj this).

Definition setFromSpherical (this : loc) (s : Spherical) : M jsret :=
  setFromSphericalCoords this (s_radius s) (s_phi s) (s_theta s).

Definition setFromCylindricalCoords (this : loc) (radius theta y : jsval) : M jsret :=
  this.[X] ::= radius * Math_sin P theta;;
  this.[Y] ::= y;;
  this.[Z] ::= radius * Math_cos P theta;;
  markDirty this;;
  ret (RObj this).

Definition setFromCylindrical (this : loc) (c : Cylindrical) : M jsret :=
  setFromCylindricalCoords this (c_radius c) (c_theta c) (c_y c).

Definition setFromMatrixPosition (this : loc) (m : Matrix) : M jsret :=
  let e := aget (elements m) in
  this.[X] ::= e 12;;
  this.[Y] ::= e 13;;
  this.[Z] ::= e 14;;
  markDirty this;;
  ret (RObj this).

(** [fromArray(array, offset = 0)] *)
Definition fromArray (this : loc) (array : list jsval) (offset : option nat) : M jsret :=
  let offset := offset_or_0 offset in
  this.[X] ::= aget array offset;;
  this.[Y] ::= aget array (offset + 1);;
  this.[Z] ::= aget array (offset + 2);;
  markDirty this;;
  ret (RObj this).

(** [toArray(array = [], offset = 0)]; the value is the array written. *)
Definition toArray (this : loc) (array : option (list jsval)) (offset : option nat)
    : M (list jsval) :=
  let array := match array with Some a => a | None => [] end in
  let offset := offset_or_0 offset in
  x <- this.[X];;
  let array := aset array offset x in
  y <- this.[Y];;
  let array := aset array (offset + 1) y in
  z <- this.[Z];;
  let array := aset array (offset + 2) z in
  ret array.

(** [return this.fromArray(m.elements, index * 4)] *)
Definition setFromMatrixColumn (this : loc) (m : Matrix) (index : nat) : M jsret :=
  fromArray this (elements m) (Some (index * 4)).

Definition setFromMatrix3Column (this : loc) (m : Matrix) (index : nat) : M jsret :=
  fromArray this (elements m) (Some (index * 3)).

(** [this.x = this.setFromMatrixColumn(m, 0).length(); ...] *)
Definition setFromMatrixScale (this : loc) (m : Matrix) : M jsret :=
  this.[X] ::= (c <- setFromMatrixColumn this m 0;; on c length);;
  this.[Y] ::= (c <- setFromMatrixColumn this m 1;; on c length);;
  this.[Z] ::= (c <- setFromMatrixColumn this m 2;; on c length);;
  markDirty this;;
  ret (RObj this).

Definition setFromEuler (this : loc) (e : Euler) : M jsret :=
  this.[X] ::= _x e;;
  this.[Y] ::= _y e;;
  this.[Z] ::= _z e;;
  markDirty this;;
  ret (RObj this).

Definition setFromColor (this : loc) (c : Color) : M jsret :=
  this.[X] ::= r c;;
  this.[Y] ::= g c;;
  this.[Z] ::= b c;;
  markDirty this;;
  ret (RObj this).

(** [return v.x === this.x && v.y === this.y && v.z === this.z] *)
Definition equals (this v : loc) : M bool :=
  and_then (v.[X] === this.[X])%expr
    (and_then (v.[Y] === this.[Y])%expr (v.[Z] === this.[Z])%expr).

Definition fromBufferAttribute (this : loc) (attribute : BufferAttribute)
    (index : jsval) : M jsret :=
  this.[X] ::= getX attribute index;;
  this.[Y] ::= getY attribute index;;
  this.[Z] ::= getZ attribute index;;
  markDirty this;;
  ret (RObj this).

Definition random (this : loc) : M jsret :=
  this.[X] ::= Math_random P;;
  this.[Y] ::= Math_random P;;
  this.[Z] ::= Math_random P;;
  markDirty this;;
  ret (RObj this).

Definition randomDirection (this : loc) : M jsret :=
  theta <- (Math_random P * Math_PI * #2)%expr;;
  u <- (Math_random P * #2 - #1)%expr;;
  c <- lift1 Math_sqrt (#1 - u * u);;
  this.[X] ::= c * Math_cos P theta;;
  this.[Y] ::= u;;
  this.[Z] ::= c * Math_sin P theta;;
  markDirty this;;
  ret (RObj this).

(** [*[Symbol.iterator]()], run to its end: the values yielded. *)
Definition iterator (this : loc) : M (list jsval) :=
  x <- this.[X];; y <- this.[Y];; z <- this.[Z];;
  ret [x; y; z].

End Host.
End Vector3.

(* ================================================================== *)
(** * Vector4 *)
(* ================================================================== *)

Module Vector4.
Section Host.
Context (P : Platform).

(** [constructor(x = 0, y = 0, z = 0, w = 1)] *)
Definition constructor (x y z w : jsval) : M loc :=
  id <- gen_id P "Vector4";;
  x <- default_to #0 x;;
  y <- default_to #0 y;;
  z <- default_to #0 z;;
  w <- default_to #1 w;;
  alloc (mkObj id "dsrt.vector4.core" false None x y z w IsVector4).

Definition set (this : loc) (x y z w : jsval) : M jsret :=
  this.[X] ::= x;;
  this.[Y] ::= y;;
  this.[Z] ::= z;;
  this.[W] ::= w;;
  markDirty this;;
  ret (RObj this).

Definition setScalar (this : loc) (scalar : jsval) : M jsret :=
  this.[X] ::= scalar;;
  this.[Y] ::= scalar;;
  this.[Z] ::= scalar;;
  this.[W] ::= scalar;;
  markDirty this;;
  ret (RObj this).

Definition setX (this : loc) (x : jsval) : M jsret :=
  this.[X] ::= x;;
  markDirty this;;
  ret (RObj this).

Definition setY (this : loc) (y : jsval) : M jsret :=
  this.[Y] ::= y;;
  markDirty this;;
  ret (RObj this).

Definition setZ (this : loc) (z : jsval) : M jsret :=
  this.[Z] ::= z;;
  markDirty this;;
  ret (RObj this).

Definition setW (this : loc) (w : jsval) : M jsret :=
  this.[W] ::= w;;
  markDirty this;;
  ret (RObj this).

Definition setComponent (this : loc) (index value : jsval) : M jsret :=
  (if strict_eq index (JNum 0) then this.[X] ::= value
   else if strict_eq index (JNum 1) then this.[Y] ::= value
   else if strict_eq index (JNum 2) then this.[Z] ::= value
   else if strict_eq index (JNum 3) then this.[W] ::= value
   else throw (JSError "Vector4.setComponent: index out of range"));;
  markDirty this;;
  ret (RObj this).

Definition getComponent (this : loc) (index : jsval) : Expr :=
  if strict_eq index (JNum 0) then this.[X]
  else if strict_eq index (JNum 1) then this.[Y]
  else if strict_eq index (JNum 2) then this.[Z]
  else if strict_eq index (JNum 3) then this.[W]
  else throw (JSError "Vector4.getComponent: index out of range").

Definition clone (this : loc) : M loc :=
  x <- this.[X];; y <- this.[Y];; z <- this.[Z];; w <- this.[W];;
  constructor x y z w.

(** [this.w = v.w !== undefined ? v.w : 1] *)
Definition copy (this v : loc) : M jsret :=
  this.[X] ::= v.[X];;
  this.[Y] ::= v.[Y];;
  this.[Z] ::= v.[Z];;
  this.[W] ::= (vw <- v.[W];;
                if negb (is_undefined vw) then v.[W] else #1);;
  markDirty this;;
  ret (RObj this).

Definition add (this v : loc) : M jsret :=
  this.[X] ::= this.[X] + v.[X];;
  this.[Y] ::= this.[Y] + v.[Y];;
  this.[Z] ::= this.[Z] + v.[Z];;
  this.[W] ::= this.[W] + v.[W];;
  markDirty this;;
  ret (RObj this).

Definition addScalar (this : loc) (s : jsval) : M jsret :=
  this.[X] ::= this.[X] + s;;
  this.[Y] ::= this.[Y] + s;;
  this.[Z] ::= this.[Z] + s;;
  this.[W] ::= this.[W] + s;;
  markDirty this;;
  ret (RObj this).

Definition addVectors (this a b : loc) : M jsret :=
  this.[X] ::= a.[X] + b.[X];;
  this.[Y] ::= a.[Y] + b.[Y];;
  this.[Z] ::= a.[Z] + b.[Z];;
  this.[W] ::= a.[W] + b.[W];;
  markDirty this;;
  ret (RObj this).

Definition addScaledVector (this v : loc) (s : jsval) : M jsret :=
  this.[X] ::= this.[X] + v.[X] * s;;
  this.[Y] ::= this.[Y] + v.[Y] * s;;
  this.[Z] ::= this.[Z] + v.[Z] * s;;
  this.[W] ::= this.[W] + v.[W] * s;;
  markDirty this;;
  ret (RObj this).

Definition sub (this v : loc) : M jsret :=
  this.[X] ::= this.[X] - v.[X];;
  this.[Y] ::= this.[Y] - v.[Y];;
  this.[Z] ::= this.[Z] - v.[Z];;
  this.[W] ::= this.[W] - v.[W];;
  markDirty this;;
  ret (RObj this).

Definition subScalar (this : loc) (s : jsval) : M jsret :=
  this.[X] ::= this.[X] - s;;
  this.[Y] ::= this.[Y] - s;;
  this.[Z] ::= this.[Z] - s;;
  this.[W] ::= this.[W] - s;;
  markDirty this;;
  ret (RObj this).

Definition subVectors (this a b : loc) : M jsret :=
  this.[X] ::= a.[X] - b.[X];;
  this.[Y] ::= a.[Y] - b.[Y];;
  this.[Z] ::= a.[Z] - b.[Z];;
  this.[W] ::= a.[W] - b.[W];;
  markDirty this;;
  ret (RObj this).

Definition multiply (this v : loc) : M jsret :=
  this.[X] ::= this.[X] * v.[X];;
  this.[Y] ::= this.[Y] * v.[Y];;
  this.[Z] ::= this.[Z] * v.[Z];;
  this.[W] ::= this.[W] * v.[W];;
  markDirty this;;
  ret (RObj this).

Definition multiplyScalar (this : loc) (scalar : jsval) : M jsret :=
  this.[X] ::= this.[X] * scalar;;
  this.[Y] ::= this.[Y] * scalar;;
  this.[Z] ::= this.[Z] * scalar;;
  this.[W] ::= this.[W] * scalar;;
  markDirty this;;
  ret (RObj this).

Definition divide (this v : loc) : M jsret :=
  this.[X] ::= this.[X] / v.[X];;
  this.[Y] ::= this.[Y] / v.[Y];;
  this.[Z] ::= this.[Z] / v.[Z];;
  this.[W] ::= this.[W] / v.[W];;
  markDirty this;;
  ret (RObj this).

Definition divideScalar (this : loc) (scalar : jsval) : M jsret :=
  multiplyScalar this (JNum 1 / scalar)%jv.

Definition applyMatrix4 (this : loc) (m : Matrix) : M jsret :=
  x <- this.[X];; y <- this.[Y];; z <- this.[Z];; w <- this.[W];;
  let e := aget (elements m) in
  this.[X] ::= e 0 * x + e 4 * y + e 8 * z + e 12 * w;;
  this.[Y] ::= e 1 * x + e 5 * y + e 9 * z + e 13 * w;;
  this.[Z] ::= e 2 * x + e 6 * y + e 10 * z + e 14 * w;;
  this.[W] ::= e 3 * x + e 7 * y + e 11 * z + e 15 * w;;
  markDirty this;;
  ret (RObj this).

Definition setAxisAngleFromQuaternion (this q : loc) : M jsret :=
  this.[W] ::= #2 * lift1 (Math_acos P) q.[W];;
  s <- lift1 Math_sqrt (#1 - q.[W] * q.[W]);;
  (if (s < JNum 0.0001)%jv then
     this.[X] ::= #1;;
     this.[Y] ::= #0;;
     this.[Z] ::= #0
   else
     this.[X] ::= q.[X] / s;;
     this.[Y] ::= q.[Y] / s;;
     this.[Z] ::= q.[Z] / s);;
  markDirty this;;
  ret (RObj this).

(** The first test of [setAxisAngleFromRotationMatrix]: the three
    off-diagonal pairs differ by less than [epsilon = 0.01]. *)
Definition near_symmetric (m : Matrix) : bool :=
  let te := aget (elements m) in
  let epsilon := JNum 0.01 in
  (Math_abs (te 4 - te 1) < epsilon)%jv
  && (Math_abs (te 8 - te 2) < epsilon)%jv
  && (Math_abs (te 9 - te 6) < epsilon)%jv.

(** The second test: the off-diagonal sums and [trace - 3] are below
    [epsilon2 = 0.1]. *)
Definition near_identity (m : Matrix) : bool :=
  let te := aget (elements m) in
  let epsilon2 := JNum 0.1 in
  (Math_abs (te 4 + te 1) < epsilon2)%jv
  && (Math_abs (te 8 + te 2) < epsilon2)%jv
  && (Math_abs (te 9 + te 6) < epsilon2)%jv
  && (Math_abs (te 0 + te 5 + te 10 - JNum 3) < epsilon2)%jv.

(** The axis of a rotation by [Math.PI], from the largest of [xx], [yy],
    [zz]. *)
Definition axis_of_half_turn (m : Matrix) : jsval * jsval * jsval :=
  let te := aget (elements m) in
  let m11 := te 0 in let m12 := te 4 in let m13 := te 8 in
  let m21 := te 1 in let m22 := te 5 in let m23 := te 9 in
  let m31 := te 2 in let m32 := te 6 in let m33 := te 10 in
  let xx := ((m11 + JNum 1) / JNum 2)%jv in
  let yy := ((m22 + JNum 1) / JNum 2)%jv in
  let zz := ((m33 + JNum 1) / JNum 2)%jv in
  let xy := ((m12 + m21) / JNum 4)%jv in
  let xz := ((m13 + m31) / JNum 4)%jv in
  let yz := ((m23 + m32) / JNum 4)%jv in
  if (xx > yy)%jv && (xx > zz)%jv then
    let x := Math_sqrt xx in
    (x, (xy / x)%jv, (xz / x)%jv)
  else if (yy > zz)%jv then
    let y := Math_sqrt yy in
    ((xy / y)%jv, y, (yz / y)%jv)
  else
    let z := Math_sqrt zz in
    ((xz / z)%jv, (yz / z)%jv, z).

(** [s], after [if (Math.abs(s) < 0.001) s = 1]. *)
Definition skew_magnitude (m : Matrix) : jsval :=
  let te := aget (elements m) in
  let m12 := te 4 in let m13 := te 8 in
  let m21 := te 1 in let m23 := te 9 in
  let m31 := te 2 in let m32 := te 6 in
  let s := Math_sqrt (js_pow P (m32 - m23) (JNum 2)
                      + js_pow P (m13 - m31) (JNum 2)
                      + js_pow P (m21 - m12) (JNum 2))%jv in
  if (Math_abs s < JNum 0.001)%jv then JNum 1 else s.

Definition setAxisAngleFromRotationMatrix (this : loc) (m : Matrix) : M jsret :=
  let te := aget (elements m) in
  let m11 := te 0 in let m12 := te 4 in let m13 := te 8 in
  let m21 := te 1 in let m22 := te 5 in let m23 := te 9 in
  let m31 := te 2 in let m32 := te 6 in let m33 := te 10 in
  if near_symmetric m then
    if near_identity m then
      set this (JNum 1) (JNum 0) (JNum 0) (JNum 0);;
      markDirty this;;
      ret (RObj this)
    else
      let angle := Math_PI in
      let '(x, y, z) := axis_of_half_turn m in
      set this x y z angle;;
      markDirty this;;
      ret (RObj this)
  else
    let s := skew_magnitude m in
    this.[X] ::= (m32 - m23)%jv / s;;
    this.[Y] ::= (m13 - m31)%jv / s;;
    this.[Z] ::= (m21 - m12)%jv / s;;
    this.[W] ::= Math_acos P ((m11 + m22 + m33 - JNum 1) / JNum 2)%jv;;
    markDirty this;;
    ret (RObj this).

Definition lengthSq (this : loc) : Expr :=
  (this.[X] * this.[X] + this.[Y] * this.[Y] + this.[Z] * this.[Z]
   + this.[W] * this.[W])%expr.

Definition length (this : loc) : Expr :=
  lift1 Math_sqrt (lengthSq this).

Definition manhattanLength (this : loc) : Expr :=
  (lift1 Math_abs this.[X] + lift1 Math_abs this.[Y] + lift1 Math_abs this.[Z]
   + lift1 Math_abs this.[W])%expr.

Definition normalize (this : loc) : M jsret :=
  d <- or_else (length this) #1;;
  divideScalar this d.

Definition setLength (this : loc) (length : jsval) : M jsret :=
  r <- normalize this;;
  on r (fun v => multiplyScalar v length).

Definition lerp (this v : loc) (alpha : jsval) : M jsret :=
  this.[X] ::= this.[X] + (v.[X] - this.[X]) * alpha;;
  this.[Y] ::= this.[Y] + (v.[Y] - this.[Y]) * alpha;;
  this.[Z] ::= this.[Z] + (v.[Z] - this.[Z]) * alpha;;
  this.[W] ::= this.[W] + (v.[W] - this.[W]) * alpha;;
  markDirty this;;
  ret (RObj this).

Definition lerpVectors (this v1 v2 : loc) (alpha : jsval) : M jsret :=
  this.[X] ::= v1.[X] + (v2.[X] - v1.[X]) * alpha;;
  this.[Y] ::= v1.[Y] + (v2.[Y] - v1.[Y]) * alpha;;
  this.[Z] ::= v1.[Z] + (v2.[Z] - v1.[Z]) * alpha;;
  this.[W] ::= v1.[W] + (v2.[W] - v1.[W]) * alpha;;
  markDirty this;;
  ret (RObj this).

Definition clamp (this min max : loc) : M jsret :=
  this.[X] ::= clamp3 this.[X] min.[X] max.[X];;
  this.[Y] ::= clamp3 this.[Y] min.[Y] max.[Y];;
  this.[Z] ::= clamp3 this.[Z] min.[Z] max.[Z];;
  this.[W] ::= clamp3 this.[W] min.[W] max.[W];;
  markDirty this;;
  ret (RObj this).

Definition clampScalar (this : loc) (minVal maxVal : jsval) : M jsret :=
  this.[X] ::= clamp3 this.[X] minVal maxVal;;
  this.[Y] ::= clamp3 this.[Y] minVal maxVal;;
  this.[Z] ::= clamp3 this.[Z] minVal maxVal;;
  this.[W] ::= clamp3 this.[W] minVal maxVal;;
  markDirty this;;
  ret (RObj this).

Definition clampLength (this : loc) (min max : jsval) : M jsret :=
  len <- length this;;
  r <- divideScalar this (jor len (JNum 1));;
  on r (fun v => multiplyScalar v (MathUtils.clamp len min max)).

Definition floor (this : loc) : M jsret :=
  this.[X] ::= lift1 Math_floor this.[X];;
  this.[Y] ::= lift1 Math_floor this.[Y];;
  this.[Z] ::= lift1 Math_floor this.[Z];;
  this.[W] ::= lift1 Math_floor this.[W];;
  markDirty this;;
  ret (RObj this).

Definition ceil (this : loc) : M jsret :=
  this.[X] ::= lift1 Math_ceil this.[X];;
  this.[Y] ::= lift1 Math_ceil this.[Y];;
  this.[Z] ::= lift1 Math_ceil this.[Z];;
  this.[W] ::= lift1 Math_ceil this.[W];;
  markDirty this;;
  ret (RObj this).

Definition round (this : loc) : M jsret :=
  this.[X] ::= lift1 Math_round this.[X];;
  this.[Y] ::= lift1 Math_round this.[Y];;
  this.[Z] ::= lift1 Math_round this.[Z];;
  this.[W] ::= lift1 Math_round this.[W];;
  markDirty this;;
  ret (RObj this).

Definition roundToZero (this : loc) : M jsret :=
  this.[X] ::= lift1 Math_trunc this.[X];;
  this.[Y] ::= lift1 Math_trunc this.[Y];;
  this.[Z] ::= lift1 Math_trunc this.[Z];;
  this.[W] ::= lift1 Math_trunc this.[W];;
  markDirty this;;
  ret (RObj this).

Definition negate (this : loc) : M jsret :=
  this.[X] ::= - this.[X];;
  this.[Y] ::= - this.[Y];;
  this.[Z] ::= - this.[Z];;
  this.[W] ::= - this.[W];;
  markDirty this;;
  ret (RObj this).

Definition dot (this v : loc) : Expr :=
  (this.[X] * v.[X] + this.[Y] * v.[Y] + this.[Z] * v.[Z]
   + this.[W] * v.[W])%expr.

Definition equals (this v : loc) : M bool :=
  and_then (v.[X] === this.[X])%expr
    (and_then (v.[Y] === this.[Y])%expr
       (and_then (v.[Z] === this.[Z])%expr (v.[W] === this.[W])%expr)).

Definition fromArray (this : loc) (array : list jsval) (offset : option nat) : M jsret :=
  let offset := offset_or_0 offset in
  this.[X] ::= aget array offset;;
  this.[Y] ::= aget array (offset + 1);;
  this.[Z] ::= aget array (offset + 2);;
  this.[W] ::= aget array (offset + 3);;
  markDirty this;;
  ret (RObj this).

Definition toArray (this : loc) (array : option (list jsval)) (offset : option nat)
    : M (list jsval) :=
  let array := match array with Some a => a | None => [] end in
  let offset := offset_or_0 offset in
  x <- this.[X];;
  let array := aset array offset x in
  y <- this.[Y];;
  let array := aset array (offset + 1) y in
  z <- this.[Z];;
  let array := aset array (offset + 2) z in
  w <- this.[W];;
  let array := aset array (offset + 3) w in
  ret array.

Definition fromBufferAttribute (this : loc) (attribute : BufferAttribute)
    (index : jsval) : M jsret :=
  this.[X] ::= getX attribute index;;
  this.[Y] ::= getY attribute index;;
  this.[Z] ::= getZ attribute index;;
  this.[W] ::= getW attribute index;;
  markDirty this;;
  ret (RObj this).

Definition random (this : loc) : M jsret :=
  this.[X] ::= Math_random P;;
  this.[Y] ::= Math_random P;;
  this.[Z] ::= Math_random P;;
  this.[W] ::= Math_random P;;
  markDirty this;;
  ret (RObj this).

Definition iterator (this : loc) : M (list jsval) :=
  x <- this.[X];; y <- this.[Y];; z <- this.[Z];; w <- this.[W];;
  ret [x; y; z; w].

End Host.
End Vector4.

(* ================================================================== *)
(** * Vector2 *)
(* ================================================================== *)

Module Vector2.
Section Host.
Context (P : Platform).

(** [constructor(x = 0, y = 0)] *)
Definition constructor (x y : jsval) : M loc :=
  id <- gen_id P "Vector2";;
  x <- default_to #0 x;;
  y <- default_to #0 y;;
  alloc (mkObj id "dsrt.vector2.core" false None x y JUndef JUndef IsVector2).

Definition set (this : loc) (x y : jsval) : M jsret :=
  this.[X] ::= x;;
  this.[Y] ::= y;;
  markDirty this;;
  ret (RObj this).

Definition setScalar (this : loc) (scalar : jsval) : M jsret :=
  this.[X] ::= scalar;;
  this.[Y] ::= scalar;;
  markDirty this;;
  ret (RObj this).

Definition setX (this : loc) (x : jsval) : M jsret :=
  this.[X] ::= x;;
  markDirty this;;
  ret (RObj this).

Definition setY (this : loc) (y : jsval) : M jsret :=
  this.[Y] ::= y;;
  markDirty this;;
  ret (RObj this).

Definition setComponent (this : loc) (index value : jsval) : M jsret :=
  (if strict_eq index (JNum 0) then this.[X] ::= value
   else if strict_eq index (JNum 1) then this.[Y] ::= value
   else throw (JSError "Vector2.setComponent: index out of range"));;
  markDirty this;;
  ret (RObj this).

Definition getComponent (this : loc) (index : jsval) : Expr :=
  if strict_eq index (JNum 0) then this.[X]
  else if strict_eq index (JNum 1) then this.[Y]
  else throw (JSError "Vector2.getComponent: index out of range").

Definition clone (this : loc) : M loc :=
  x <- this.[X];; y <- this.[Y];;
  constructor x y.

Definition copy (this v : loc) : M jsret :=
  this.[X] ::= v.[X];;
  this.[Y] ::= v.[Y];;
  markDirty this;;
  ret (RObj this).

Definition add (this v : loc) : M jsret :=
  this.[X] ::= this.[X] + v.[X];;
  this.[Y] ::= this.[Y] + v.[Y];;
  markDirty this;;
  ret (RObj this).

Definition addScalar (this : loc) (s : jsval) : M jsret :=
  this.[X] ::= this.[X] + s;;
  this.[Y] ::= this.[Y] + s;;
  markDirty this;;
  ret (RObj this).

Definition addVectors (this a b : loc) : M jsret :=
  this.[X] ::= a.[X] + b.[X];;
  this.[Y] ::= a.[Y] + b.[Y];;
  markDirty this;;
  ret (RObj this).

Definition addScaledVector (this v : loc) (s : jsval) : M jsret :=
  this.[X] ::= this.[X] + v.[X] * s;;
  this.[Y] ::= this.[Y] + v.[Y] * s;;
  markDirty this;;
  ret (RObj this).

Definition sub (this v : loc) : M jsret :=
  this.[X] ::= this.[X] - v.[X];;
  this.[Y] ::= this.[Y] - v.[Y];;
  markDirty this;;
  ret (RObj this).

Definition subScalar (this : loc) (s : jsval) : M jsret :=
  this.[X] ::= this.[X] - s;;
  this.[Y] ::= this.[Y] - s;;
  markDirty this;;
  ret (RObj this).

Definition subVectors (this a b : loc) : M jsret :=
  this.[X] ::= a.[X] - b.[X];;
  this.[Y] ::= a.[Y] - b.[Y];;
  markDirty this;;
  ret (RObj this).

Definition multiply (this v : loc) : M jsret :=
  this.[X] ::= this.[X] * v.[X];;
  this.[Y] ::= this.[Y] * v.[Y];;
  markDirty this;;
  ret (RObj this).

Definition multiplyScalar (this : loc) (scalar : jsval) : M jsret :=
  this.[X] ::= this.[X] * scalar;;
  this.[Y] ::= this.[Y] * scalar;;
  markDirty this;;
  ret (RObj this).

Definition divide (this v : loc) : M jsret :=
  this.[X] ::= this.[X] / v.[X];;
  this.[Y] ::= this.[Y] / v.[Y];;
  markDirty this;;
  ret (RObj this).

Definition divideScalar (this : loc) (scalar : jsval) : M jsret :=
  multiplyScalar this (JNum 1 / scalar)%jv.

(** The third column carries the translation: an implicit [z = 1]. *)
Definition applyMatrix3 (this : loc) (m : Matrix) : M jsret :=
  x <- this.[X];; y <- this.[Y];;
  let e := aget (elements m) in
  this.[X] ::= e 0 * x + e 3 * y + e 6;;
  this.[Y] ::= e 1 * x + e 4 * y + e 7;;
  markDirty this;;
  ret (RObj this).

Definition rotateAround (this center : loc) (angle : jsval) : M jsret :=
  let c := Math_cos P angle in
  let s := Math_sin P angle in
  dx <- (this.[X] - center.[X])%expr;;
  dy <- (this.[Y] - center.[Y])%expr;;
  this.[X] ::= dx * c - dy * s + center.[X];;
  this.[Y] ::= dx * s + dy * c + center.[Y];;
  markDirty this;;
  ret (RObj this).

Definition lengthSq (this : loc) : Expr :=
  (this.[X] * this.[X] + this.[Y] * this.[Y])%expr.

Definition length (this : loc) : Expr :=
  lift1 Math_sqrt (lengthSq this).

Definition manhattanLength (this : loc) : Expr :=
  (lift1 Math_abs this.[X] + lift1 Math_abs this.[Y])%expr.

Definition normalize (this : loc) : M jsret :=
  d <- or_else (length this) #1;;
  divideScalar this d.

Definition setLength (this : loc) (length : jsval) : M jsret :=
  r <- normalize this;;
  on r (fun v => multiplyScalar v length).

Definition dot (this v : loc) : Expr :=
  (this.[X] * v.[X] + this.[Y] * v.[Y])%expr.

Definition cross (this v : loc) : Expr :=
  (this.[X] * v.[Y] - this.[Y] * v.[X])%expr.

(** [return Math.atan2(-this.y, -this.x) + Math.PI] *)
Definition angle (this : loc) : Expr :=
  ny <- (- this.[Y])%expr;;
  nx <- (- this.[X])%expr;;
  (Math_atan2 P ny nx + Math_PI)%expr.

Definition angleTo (this v : loc) : Expr :=
  denom <- lift1 Math_sqrt (lengthSq this * lengthSq v);;
  if strict_eq denom (JNum 0) then (Math_PI / #2)%expr
  else
    theta <- (dot this v / denom)%expr;;
    ret (Math_acos P (MathUtils.clamp theta (JNum (-1)) (JNum 1))).

Definition distanceToSquared (this v : loc) : Expr :=
  dx <- (this.[X] - v.[X])%expr;;
  dy <- (this.[Y] - v.[Y])%expr;;
  (dx * dx + dy * dy)%expr.

Definition distanceTo (this v : loc) : Expr :=
  lift1 Math_sqrt (distanceToSquared this v).

Definition manhattanDistanceTo (this v : loc) : Expr :=
  (lift1 Math_abs (this.[X] - v.[X]) + lift1 Math_abs (this.[Y] - v.[Y]))%expr.

Definition clamp (this min max : loc) : M jsret :=
  this.[X] ::= clamp3 this.[X] min.[X] max.[X];;
  this.[Y] ::= clamp3 this.[Y] min.[Y] max.[Y];;
  markDirty this;;
  ret (RObj this).

Definition clampScalar (this : loc) (minVal maxVal : jsval) : M jsret :=
  this.[X] ::= clamp3 this.[X] minVal maxVal;;
  this.[Y] ::= clamp3 this.[Y] minVal maxVal;;
  markDirty this;;
  ret (RObj this).

Definition clampLength (this : loc) (min max : jsval) : M jsret :=
  len <- length this;;
  r <- divideScalar this (jor len (JNum 1));;
  on r (fun v => multiplyScalar v (MathUtils.clamp len min max)).

Definition floor (this : loc) : M jsret :=
  this.[X] ::= lift1 Math_floor this.[X];;
  this.[Y] ::= lift1 Math_floor this.[Y];;
  markDirty this;;
  ret (RObj this).

Definition ceil (this : loc) : M jsret :=
  this.[X] ::= lift1 Math_ceil this.[X];;
  this.[Y] ::= lift1 Math_ceil this.[Y];;
  markDirty this;;
  ret (RObj this).

Definition round (this : loc) : M jsret :=
  this.[X] ::= lift1 Math_round this.[X];;
  this.[Y] ::= lift1 Math_round this.[Y];;
  markDirty this;;
  ret (RObj this).

Definition roundToZero (this : loc) : M jsret :=
  this.[X] ::= lift1 Math_trunc this.[X];;
  this.[Y] ::= lift1 Math_trunc this.[Y];;
  markDirty this;;
  ret (RObj this).

Definition negate (this : loc) : M jsret :=
  this.[X] ::= - this.[X];;
  this.[Y] ::= - this.[Y];;
  markDirty this;;
  ret (RObj this).

Definition equals (this v : loc) : M bool :=
  and_then (v.[X] === this.[X])%expr (v.[Y] === this.[Y])%expr.

Definition fromArray (this : loc) (array : list jsval) (offset : option nat) : M jsret :=
  let offset := offset_or_0 offset in
  this.[X] ::= aget array offset;;
  this.[Y] ::= aget array (offset + 1);;
  markDirty this;;
  ret (RObj this).

Definition toArray (this : loc) (array : option (list jsval)) (offset : option nat)
    : M (list jsval) :=
  let array := match array with Some a => a | None => [] end in
  let offset := offset_or_0 offset in
  x <- this.[X];;
  let array := aset array offset x in
  y <- this.[Y];;
  let array := aset array (offset + 1) y in
  ret array.

Definition fromBufferAttribute (this : loc) (attribute : BufferAttribute)
    (index : jsval) : M jsret :=
  this.[X] ::= getX attribute index;;
  this.[Y] ::= getY attribute index;;
  markDirty this;;
  ret (RObj this).

Definition random (this : loc) : M jsret :=
  this.[X] ::= Math_random P;;
  this.[Y] ::= Math_random P;;
  markDirty this;;
  ret (RObj this).

Definition iterator (this : loc) : M (list jsval) :=
  x <- this.[X];; y <- this.[Y];;
  ret [x; y].

End Host.
End Vector2.

(* ================================================================== *)
(** * The mutating operations and the pure queries, by name

    One constructor per method of the class, with the arguments of the
    call; [call] is the method call [this.op(...)]. *)
(* ================================================================== *)

(** What a query answers. *)
Inductive answer : Type :=
| AVal (v : jsval)
| ABool (b : bool)
| AList (l : list jsval).

Definition as_val (e : Expr) : M answer := v <- e;; ret (AVal v).
Definition as_bool (c : M bool) : M answer := v <- c;; ret (ABool v).
Definition as_list (c : M (list jsval)) : M answer := v <- c;; ret (AList v).

Module Ops3.

Inductive mutator : Type :=
| set (x y z : jsval) | setScalar (scalar : jsval)
| setX (x : jsval) | setY (y : jsval) | setZ (z : jsval)
| setComponent (index value : jsval)
| copy (v : loc)
| add (v : loc) | addScalar (s : jsval) | addVectors (a b : loc)
| addScaledVector (v : loc) (s : jsval)
| sub (v : loc) | subScalar (s : jsval) | subVectors (a b : loc)
| multiply (v : loc) | multiplyScalar (scalar : jsval) | multiplyVectors (a b : loc)
| divide (v : loc) | divideScalar (scalar : jsval)
| applyQuaternion (q : loc) | applyEuler (euler : Euler)
| applyAxisAngle (axis : loc) (angle : jsval)
| applyMatrix3 (m : Matrix) | applyNormalMatrix (m : Matrix)
| applyMatrix4 (m : Matrix) | transformDirection (m : Matrix)
| project (camera : Camera) | unproject (camera : Camera)
| normalize | setLength (length : jsval)
| lerp (v : loc) (alpha : jsval) | lerpVectors (v1 v2 : loc) (alpha : jsval)
| clamp (min max : loc) | clampScalar (minVal maxVal : jsval)
| clampLength (min max : jsval)
| floor | ceil | round | roundToZero | negate
| cross (v : loc) | crossVectors (a b : loc)
| projectOnVector (v : loc) | projectOnPlane (planeNormal : loc)
| reflect (normal : loc)
| setFromSpherical (s : Spherical)
| setFromSphericalCoords (radius phi theta : jsval)
| setFromCylindrical (c : Cylindrical)
| setFromCylindricalCoords (radius theta y : jsval)
| setFromMatrixPosition (m : Matrix) | setFromMatrixScale (m : Matrix)
| setFromMatrixColumn (m : Matrix) (index : nat)
| setFromMatrix3Column (m : Matrix) (index : nat)
| setFromEuler (e : Euler) | setFromColor (c : Color)
| fromArray (array : list jsval) (offset : option nat)
| fromBufferAttribute (attribute : BufferAttribute) (index : jsval)
| random | randomDirection.

Definition call (P : Platform) (op : mutator) (this : loc) : M jsret :=
  match op with
  | set x y z => Vector3.set this x y z
  | setScalar s => Vector3.setScalar this s
  | setX x => Vector3.setX this x
  | setY y => Vector3.setY this y
  | setZ z => Vector3.setZ this z
  | setComponent i v => Vector3.setComponent this i v
  | copy v => Vector3.copy this v
  | add v => Vector3.add this v
  | addScalar s => Vector3.addScalar this s
  | addVectors a b => Vector3.addVectors this a b
  | addScaledVector v s => Vector3.addScaledVector this v s
  | sub v => Vector3.sub this v
  | subScalar s => Vector3.subScalar this s
  | subVectors a b => Vector3.subVectors this a b
  | multiply v => Vector3.multiply this v
  | multiplyScalar s => Vector3.multiplyScalar this s
  | multiplyVectors a b => Vector3.multiplyVectors this a b
  | divide v => Vector3.divide this v
  | divideScalar s => Vector3.divideScalar this s
  | applyQuaternion q => Vector3.applyQuaternion this q
  | applyEuler e => Vector3.applyEuler P this e
  | applyAxisAngle axis angle => Vector3.applyAxisAngle P this axis angle
  | applyMatrix3 m => Vector3.applyMatrix3 this m
  | applyNormalMatrix m => Vector3.applyNormalMatrix this m
  | applyMatrix4 m => Vector3.applyMatrix4 this m
  | transformDirection m => Vector3.transformDirection this m
  | project c => Vector3.project this c
  | unproject c => Vector3.unproject this c
  | normalize => Vector3.normalize this
  | setLength l => Vector3.setLength this l
  | lerp v a => Vector3.lerp this v a
  | lerpVectors v1 v2 a => Vector3.lerpVectors this v1 v2 a
  | clamp lo hi => Vector3.clamp this lo hi
  | clampScalar lo hi => Vector3.clampScalar this lo hi
  | clampLength lo hi => Vector3.clampLength this lo hi
  | floor => Vector3.floor this
  | ceil => Vector3.ceil this
  | round => Vector3.round this
  | roundToZero => Vector3.roundToZero this
  | negate => Vector3.negate this
  | cross v => Vector3.cross this v
  | crossVectors a b => Vector3.crossVectors this a b
  | projectOnVector v => Vector3.projectOnVector this v
  | projectOnPlane n => Vector3.projectOnPlane this n
  | reflect n => Vector3.reflect this n
  | setFromSpherical s => Vector3.setFromSpherical P this s
  | setFromSphericalCoords r phi theta => Vector3.setFromSphericalCoords P this r phi theta
  | setFromCylindrical c => Vector3.setFromCylindrical P this c
  | setFromCylindricalCoords r theta y => Vector3.setFromCylindricalCoords P this r theta y
  | setFromMatrixPosition m => Vector3.setFromMatrixPosition this m
  | setFromMatrixScale m => Vector3.setFromMatrixScale this m
  | setFromMatrixColumn m i => Vector3.setFromMatrixColumn this m i
  | setFromMatrix3Column m i => Vector3.setFromMatrix3Column this m i
  | setFromEuler e => Vector3.setFromEuler this e
  | setFromColor c => Vector3.setFromColor this c
  | fromArray a k => Vector3.fromArray this a k
  | fromBufferAttribute a i => Vector3.fromBufferAttribute this a i
  | random => Vector3.random P this
  | randomDirection => Vector3.randomDirection P this
  end.

(** The objects a call reads besides [this]. *)
Definition args (op : mutator) : list loc :=
  match op with
  | copy v | add v | addScaledVector v _ | sub v | multiply v | divide v
  | applyQuaternion v | applyAxisAngle v _ | lerp v _ | cross v
  | projectOnVector v | projectOnPlane v | reflect v => [v]
  | addVectors a b | subVectors a b | multiplyVectors a b
  | lerpVectors a b _ | clamp a b | crossVectors a b => [a; b]
  | _ => []
  end.

(** [setComponent] throws on an index other than 0, 1, 2. *)
Definition in_range (op : mutator) : bool :=
  match op with
  | setComponent i _ =>
      strict_eq i (JNum 0) || strict_eq i (JNum 1) || strict_eq i (JNum 2)
  | _ => true
  end.

(** The mutators that end in the expression [....#markDirty()], whose
    value is [undefined]. *)
Definition returns_undefined (op : mutator) : bool :=
  match op with
  | projectOnPlane _ | reflect _ => true
  | _ => false
  end.

(** The number of observer calls by design: one for a mutator that
    assigns and commits on its own, or delegates to such a mutator in a
    single call; two for a chain of two such mutators.  None is given
    for [projectOnVector], whose two paths differ, nor for the mutators
    that call [#markDirty] again after a mutator that has committed. *)
Definition promised (op : mutator) : option nat :=
  match op with
  | applyNormalMatrix _ | project _ | unproject _ | setLength _
  | clampLength _ _ => Some 2
  | projectOnVector _ | projectOnPlane _ | reflect _
  | setFromMatrixScale _ => None
  | _ => Some 1
  end.

(** The number of calls of [#markDirty] on [this], between these
    bounds. *)
Definition commit_bounds (op : mutator) : nat * nat :=
  match op with
  | applyNormalMatrix _ | project _ | unproject _ | setLength _
  | clampLength _ _ | projectOnPlane _ | reflect _ => (2, 2)
  | projectOnVector _ => (1, 2)
  | setFromMatrixScale _ => (4, 4)
  | _ => (1, 1)
  end.

Inductive query : Type :=
| getComponent (index : jsval)
| lengthSq | length | manhattanLength
| dot (v : loc) | angleTo (v : loc)
| distanceTo (v : loc) | distanceToSquared (v : loc)
| manhattanDistanceTo (v : loc)
| equals (v : loc)
| toArray (array : option (list jsval)) (offset : option nat)
| iterator.

Definition ask (P : Platform) (q : query) (this : loc) : M answer :=
  match q with
  | getComponent i => as_val (Vector3.getComponent this i)
  | lengthSq => as_val (Vector3.lengthSq this)
  | length => as_val (Vector3.length this)
  | manhattanLength => as_val (Vector3.manhattanLength this)
  | dot v => as_val (Vector3.dot this v)
  | angleTo v => as_val (Vector3.angleTo P this v)
  | distanceTo v => as_val (Vector3.distanceTo this v)
  | distanceToSquared v => as_val (Vector3.distanceToSquared this v)
  | manhattanDistanceTo v => as_val (Vector3.manhattanDistanceTo this v)
  | equals v => as_bool (Vector3.equals this v)
  | toArray a k => as_list (Vector3.toArray this a k)
  | iterator => as_list (Vector3.iterator this)
  end.

End Ops3.

Module Ops4.

Inductive mutator : Type :=
| set (x y z w : jsval) | setScalar (scalar : jsval)
| setX (x : jsval) | setY (y : jsval) | setZ (z : jsval) | setW (w : jsval)
| setComponent (index value : jsval)
| copy (v : loc)
| add (v : loc) | addScalar (s : jsval) | addVectors (a b : loc)
| addScaledVector (v : loc) (s : jsval)
| sub (v : loc) | subScalar (s : jsval) | subVectors (a b : loc)
| multiply (v : loc) | multiplyScalar (scalar : jsval)
| divide (v : loc) | divideScalar (scalar : jsval)
| applyMatrix4 (m : Matrix)
| setAxisAngleFromQuaternion (q : loc)
| setAxisAngleFromRotationMatrix (m : Matrix)
| normalize | setLength (length : jsval)
| lerp (v : loc) (alpha : jsval) | lerpVectors (v1 v2 : loc) (alpha : jsval)
| clamp (min max : loc) | clampScalar (minVal maxVal : jsval)
| clampLength (min max : jsval)
| floor | ceil | round | roundToZero | negate
| fromArray (array : list jsval) (offset : option nat)
| fromBufferAttribute (attribute : BufferAttribute) (index : jsval)
| random.

Definition call (P : Platform) (op : mutator) (this : loc) : M jsret :=
  match op with
  | set x y z w => Vector4.set this x y z w
  | setScalar s => Vector4.setScalar this s
  | setX x => Vector4.setX this x
  | setY y => Vector4.setY this y
  | setZ z => Vector4.setZ this z
  | setW w => Vector4.setW this w
  | setComponent i v => Vector4.setComponent this i v
  | copy v => Vector4.copy this v
  | add v => Vector4.add this v
  | addScalar s => Vector4.addScalar this s
  | addVectors a b => Vector4.addVectors this a b
  | addScaledVector v s => Vector4.addScaledVector this v s
  | sub v => Vector4.sub this v
  | subScalar s => Vector4.subScalar this s
  | subVectors a b => Vector4.subVectors this a b
  | multiply v => Vector4.multiply this v
  | multiplyScalar s => Vector4.multiplyScalar this s
  | divide v => Vector4.divide this v
  | divideScalar s => Vector4.divideScalar this s
  | applyMatrix4 m => Vector4.applyMatrix4 this m
  | setAxisAngleFromQuaternion q => Vector4.setAxisAngleFromQuaternion P this q
  | setAxisAngleFromRotationMatrix m => Vector4.setAxisAngleFromRotationMatrix P this m
  | normalize => Vector4.normalize this
  | setLength l => Vector4.setLength this l
  | lerp v a => Vector4.lerp this v a
  | lerpVectors v1 v2 a => Vector4.lerpVectors this v1 v2 a
  | clamp lo hi => Vector4.clamp this lo hi
  | clampScalar lo hi => Vector4.clampScalar this lo hi
  | clampLength lo hi => Vector4.clampLength this lo hi
  | floor => Vector4.floor this
  | ceil => Vector4.ceil this
  | round => Vector4.round this
  | roundToZero => Vector4.roundToZero this
  | negate => Vector4.negate this
  | fromArray a k => Vector4.fromArray this a k
  | fromBufferAttribute a i => Vector4.fromBufferAttribute this a i
  | random => Vector4.random P this
  end.

Definition args (op : mutator) : list loc :=
  match op with
  | copy v | add v | addScaledVector v _ | sub v | multiply v | divide v
  | setAxisAngleFromQuaternion v | lerp v _ => [v]
  | addVectors a b | subVectors a b | lerpVectors a b _ | clamp a b => [a; b]
  | _ => []
  end.

Definition in_range (op : mutator) : bool :=
  match op with
  | setComponent i _ =>
      strict_eq i (JNum 0) || strict_eq i (JNum 1) || strict_eq i (JNum 2)
      || strict_eq i (JNum 3)
  | _ => true
  end.

Definition promised (op : mutator) : option nat :=
  match op with
  | setLength _ | clampLength _ _ => Some 2
  | setAxisAngleFromRotationMatrix _ => None
  | _ => Some 1
  end.

Definition commit_bounds (op : mutator) : nat * nat :=
  match op with
  | setLength _ | clampLength _ _ => (2, 2)
  | setAxisAngleFromRotationMatrix _ => (1, 2)
  | _ => (1, 1)
  end.

Inductive query : Type :=
| getComponent (index : jsval)
| lengthSq | length | manhattanLength
| dot (v : loc)
| equals (v : loc)
| toArray (array : option (list jsval)) (offset : option nat)
| iterator.

Definition ask (q : query) (this : loc) : M answer :=
  match q with
  | getComponent i => as_val (Vector4.getComponent this i)
  | lengthSq => as_val (Vector4.lengthSq this)
  | length => as_val (Vector4.length this)
  | manhattanLength => as_val (Vector4.manhattanLength this)
  | dot v => as_val (Vector4.dot this v)
  | equals v => as_bool (Vector4.equals this v)
  | toArray a k => as_list (Vector4.toArray this a k)
  | iterator => as_list (Vector4.iterator this)
  end.

End Ops4.

Module Ops2.

Inductive mutator : Type :=
| set (x y : jsval) | setScalar (scalar : jsval)
| setX (x : jsval) | setY (y : jsval)
| setComponent (index value : jsval)
| copy (v : loc)
| add (v : loc) | addScalar (s : jsval) | addVectors (a b : loc)
| addScaledVector (v : loc) (s : jsval)
| sub (v : loc) | subScalar (s : jsval) | subVectors (a b : loc)
| multiply (v : loc) | multiplyScalar (scalar : jsval)
| divide (v : loc) | divideScalar (scalar : jsval)
| applyMatrix3 (m : Matrix)
| rotateAround (center : loc) (angle : jsval)
| normalize | setLength (length : jsval)
| clamp (min max : loc) | clampScalar (minVal maxVal : jsval)
| clampLength (min max : jsval)
| floor | ceil | round | roundToZero | negate
| fromArray (array : list jsval) (offset : option nat)
| fromBufferAttribute (attribute : BufferAttribute) (index : jsval)
| random.

Definition call (P : Platform) (op : mutator) (this : loc) : M jsret :=
  match op with
  | set x y => Vector2.set this x y
  | setScalar s => Vector2.setScalar this s
  | setX x => Vector2.setX this x
  | setY y => Vector2.setY this y
  | setComponent i v => Vector2.setComponent this i v
  | copy v => Vector2.copy this v
  | add v => Vector2.add this v
  | addScalar s => Vector2.addScalar this s
  | addVectors a b => Vector2.addVectors this a b
  | addScaledVector v s => Vector2.addScaledVector this v s
  | sub v => Vector2.sub this v
  | subScalar s => Vector2.subScalar this s
  | subVectors a b => Vector2.subVectors this a b
  | multiply v => Vector2.multiply this v
  | multiplyScalar s => Vector2.multiplyScalar this s
  | divide v => Vector2.divide this v
  | divideScalar s => Vector2.divideScalar this s
  | applyMatrix3 m => Vector2.applyMatrix3 this m
  | rotateAround c a => Vector2.rotateAround P this c a
  | normalize => Vector2.normalize this
  | setLength l => Vector2.setLength this l
  | clamp lo hi => Vector2.clamp this lo hi
  | clampScalar lo hi => Vector2.clampScalar this lo hi
  | clampLength lo hi => Vector2.clampLength this lo hi
  | floor => Vector2.floor this
  | ceil => Vector2.ceil this
  | round => Vector2.round this
  | roundToZero => Vector2.roundToZero this
  | negate => Vector2.negate this
  | fromArray a k => Vector2.fromArray this a k
  | fromBufferAttribute a i => Vector2.fromBufferAttribute this a i
  | random => Vector2.random P this
  end.

Definition args (op : mutator) : list loc :=
  match op with
  | copy v | add v | addScaledVector v _ | sub v | multiply v | divide v
  | rotateAround v _ => [v]
  | addVectors a b | subVectors a b | clamp a b => [a; b]
  | _ => []
  end.

Definition in_range (op : mutator) : bool :=
  match op with
  | setComponent i _ => strict_eq i (JNum 0) || strict_eq i (JNum 1)
  | _ => true
  end.

Definition promised (op : mutator) : option nat :=
  match op with
  | setLength _ | clampLength _ _ => Some 2
  | _ => Some 1
  end.

Definition commit_bounds (op : mutator) : nat * nat :=
  match op with
  | setLength _ | clampLength _ _ => (2, 2)
  | _ => (1, 1)
  end.

Inductive query : Type :=
| getComponent (index : jsval)
| lengthSq | length | manhattanLength
| dot (v : loc) | cross (v : loc)
| angle | angleTo (v : loc)
| distanceTo (v : loc) | distanceToSquared (v : loc)
| manhattanDistanceTo (v : loc)
| equals (v : loc)
| toArray (array : option (list jsval)) (offset : option nat)
| iterator.

Definition ask (P : Platform) (q : query) (this : loc) : M answer :=
  match q with
  | getComponent i => as_val (Vector2.getComponent this i)
  | lengthSq => as_val (Vector2.lengthSq this)
  | length => as_val (Vector2.length this)
  | manhattanLength => as_val (Vector2.manhattanLength this)
  | dot v => as_val (Vector2.dot this v)
  | cross v => as_val (Vector2.cross this v)
  | angle => as_val (Vector2.angle P this)
  | angleTo v => as_val (Vector2.angleTo P this v)
  | distanceTo v => as_val (Vector2.distanceTo this v)
  | distanceToSquared v => as_val (Vector2.distanceToSquared this v)
  | manhattanDistanceTo v => as_val (Vector2.manhattanDistanceTo this v)
  | equals v => as_bool (Vector2.equals this v)
  | toArray a k => as_list (Vector2.toArray this a k)
  | iterator => as_list (Vector2.iterator this)
  end.

End Ops2.

(* ================================================================== *)
(** * Specifications of computations *)
(* ================================================================== *)

Definition allocated (st : State) (l : loc) : Prop := is_Some (heap st !! l).

(** The observer attached to [l], if any. *)
Definition observer_of (st : State) (l : loc) : option callback :=
  match heap st !! l with
  | Some o => onChange o
  | None => None
  end.

Definition dirty_of (st : State) (l : loc) : bool :=
  match heap st !! l with
  | Some o => isDirty o
  | None => false
  end.

(** [n] calls of the observer of [this], each with [this] as its only
    argument; none when no observer is attached. *)
Definition notifications (st : State) (this : loc) (n : nat) : list Event :=
  match observer_of st this with
  | Some cb => repeat (Notify cb this) n
  | None => []
  end.

(** What a computation that commits [n] mutations of [this] does to the
    state. *)
Record evolves (this : loc) (n : nat) (st st' : State) : Prop := {
  ev_alloc : forall l, allocated st l -> allocated st' l;
  ev_observer : forall l, allocated st l -> observer_of st' l = observer_of st l;
  ev_trace : trace st' = trace st ++ notifications st this n;
  ev_dirty : forall l, dirty_of st l = true -> dirty_of st' l = true;
  ev_commit : 0 < n -> dirty_of st' this = true
}.

(** The objects of a call exist, and nothing observes the scratch
    vector. *)
Definition ready (L : list loc) (this : loc) (st : State) : Prop :=
  (forall l, In l (this :: _vector :: _quaternion :: L) -> allocated st l)
  /\ observer_of st _vector = None.

(** [c] returns, commits between [lo] and [hi] mutations of [this], and
    its value satisfies [Q]. *)
Definition commits {A} (L : list loc) (this : loc) (lo hi : nat)
    (Q : A -> Prop) (c : M A) : Prop :=
  forall st, ready L this st ->
    exists r st' n, c st = Ok r st' /\ lo <= n <= hi /\ evolves this n st st' /\ Q r.

(** [c] leaves the state as it found it, whether it returns or throws. *)
Definition unchanged {A} (c : M A) : Prop :=
  forall st,
    match c st with
    | Ok _ st' => st' = st
    | Throw _ st' => st' = st
    end.

Definition any {A} : A -> Prop := fun _ => True.

(** A host for running the model on concrete inputs: the approximated
    functions answer [NaN] except where ECMAScript fixes the result
    ([Math.acos(1)] is [+0]); the random stream is constant. *)
Definition plain_host : Platform := {|
  host_sin := fun _ => nan;
  host_cos := fun _ => nan;
  host_acos := fun x => if (x =? 1)%float then 0%float else nan;
  host_atan2 := fun _ _ => nan;
  host_pow := fun _ _ => nan;
  host_random := fun _ => 0.5%float;
  generateId := fun kind _ => kind;
  quat_from_euler := fun _ => (JNum 0, JNum 0, JNum 0, JNum 1);
  quat_from_axis_angle := fun _ _ => (JNum 0, JNum 0, JNum 0, JNum 1)
|}.

(** An object that is not dirty and has no observer. *)
Definition fresh_obj (t : Tag) (x y z w : jsval) : Obj :=
  mkObj "id" "dsrt" false None x y z w t.

(** A store for examples: the two scratch objects, a Vector3 at 2 with
    the observer 7 attached, a Vector3 at 3. *)
Definition sample_state (x y z : jsval) : State :=
  mkState
    (<[3 := fresh_obj IsVector3 (JNum 0) (JNum 1) (JNum 0) JUndef]>
     (<[2 := set_onChange (Some 7) (fresh_obj IsVector3 x y z JUndef)]>
      (<[_quaternion := fresh_obj IsOther (JNum 0) (JNum 0) (JNum 0) (JNum 1)]>
       (<[_vector := fresh_obj IsVector3 (JNum 0) (JNum 0) (JNum 0) JUndef]> ∅))))
    4 [] 0 0.

(** ** The mutation contract

    [honours_contract call args in_range promised]: a call
    [this.op(...)] with arguments in range returns; and whenever a call
    returns, [this] is dirty and the observer of [this], if one is
    attached, has been called [n >= 1] times since the call began, each
    time with [this] as its argument, and no other observer has been
    called; [n] is the number that [promised] gives for the mutator,
    where it gives one. *)
Definition honours_contract {mutator : Type}
    (call : mutator -> loc -> M jsret) (args : mutator -> list loc)
    (in_range : mutator -> bool) (promised : mutator -> option nat) : Prop :=
  forall (op : mutator) (this : loc) (st : State),
    ready (args op) this st ->
    (in_range op = true -> exists r st', call op this st = Ok r st')
    /\ forall (r : jsret) (st' : State),
         call op this st = Ok r st' ->
         dirty_of st' this = true
         /\ exists n, 1 <= n
              /\ (forall k, promised op = Some k -> n = k)
              /\ trace st' = trace st ++ notifications st this n.

(** The contract with "exactly once" for every mutator. *)
Definition notifies_exactly_once {mutator : Type}
    (call : mutator -> loc -> M jsret) (args : mutator -> list loc)
    (in_range : mutator -> bool) : Prop :=
  honours_contract call args in_range (fun _ => Some 1).

(** ** Running a method on a known object *)

(** The object at [l] is [o]. *)
Definition sees (l : loc) (o : Obj) (st : State) : Prop :=
  heap st !! l = Some o.

(** [c], started in [st], returns [r] in [st']. *)
Definition runs {A} (c : M A) (st : State) (r : A) (st' : State) : Prop :=
  c st = Ok r st'.

(** The state after [l] became [o]. *)
Definition put (l : loc) (o : Obj) (st : State) : State :=
  with_heap (<[l := o]> (heap st)) st.

(** The state after the observer [cb], if there is one, was called with
    [l]. *)
Definition notified (cb : option callback) (l : loc) (st : State) : State :=
  match cb with
  | Some f => with_trace (trace st ++ [Notify f l]) st
  | None => st
  end.

(** ** The length of a vector object, and the divisor of [normalize] *)

Definition len2 (o : Obj) : jsval :=
  Math_sqrt (obj_x o * obj_x o + obj_y o * obj_y o)%jv.

Definition len3 (o : Obj) : jsval :=
  Math_sqrt (obj_x o * obj_x o + obj_y o * obj_y o + obj_z o * obj_z o)%jv.

Definition len4 (o : Obj) : jsval :=
  Math_sqrt (obj_x o * obj_x o + obj_y o * obj_y o + obj_z o * obj_z o
             + obj_w o * obj_w o)%jv.

(** [len || 1] *)
Definition divisor (len : jsval) : jsval := jor len (JNum 1).

(** What [multiplyScalar(1 / d)] leaves in a component [c]. *)
Definition scaled (c d : jsval) : jsval := (c * (JNum 1 / d))%jv.

(** A component that is [0] or [-0]. *)
Definition is_zero_val (v : jsval) : bool :=
  match v with
  | JNum f => is_zero f
  | JUndef => false
  end.

Definition is_nan_val (v : jsval) : bool :=
  match v with
  | JNum f => is_nan f
  | JUndef => false
  end.

(** [normalize] on an object of dimension 2, 3, 4: every component is
    scaled by the inverse of [divisor (len o)]. *)
Definition normalized (dim : nat) (len : Obj -> jsval) (o o' : Obj) : Prop :=
  let d := divisor (len o) in
  obj_x o' = scaled (obj_x o) d
  /\ obj_y o' = scaled (obj_y o) d
  /\ (2 < dim -> obj_z o' = scaled (obj_z o) d)
  /\ (3 < dim -> obj_w o' = scaled (obj_w o) d).

Definition zero_vector (dim : nat) (o : Obj) : bool :=
  is_zero_val (obj_x o) && is_zero_val (obj_y o)
  && (if 2 <? dim then is_zero_val (obj_z o) else true)
  && (if 3 <? dim then is_zero_val (obj_w o) else true).

(** [normalize] as a method of the class of dimension [dim]. *)
Definition normalize_of (dim : nat) : loc -> M jsret :=
  match dim with
  | 2 => Vector2.normalize
  | 3 => Vector3.normalize
  | _ => Vector4.normalize
  end.

Definition len_of (dim : nat) : Obj -> jsval :=
  match dim with
  | 2 => len2
  | 3 => len3
  | _ => len4
  end.

(** [normalize()] then [length()] on the observed vector of the sample
    store: is the length within [tol] of 1? *)
Definition unit_after_normalize (tol x y z : float) : bool :=
  match bind (Vector3.normalize 2) (fun r => on r Vector3.length)
          (sample_state (JNum x) (JNum y) (JNum z)) with
  | Ok (JNum len) _ => (abs (len - 1) <=? tol)%float
  | _ => false
  end.

Definition small_ints : list float :=
  [(-4)%float; (-3)%float; (-2)%float; (-1)%float; 0%float;
   1%float; 2%float; 3%float; 4%float].

(** The 728 non-zero vectors with components among [-4 .. 4]. *)
Definition small_vectors : list (float * float * float) :=
  filter (fun '(x, y, z) => negb ((x =? 0) && (y =? 0) && (z =? 0))%float)
    (flat_map (fun x =>
       flat_map (fun y => map (fun z => (x, y, z)) small_ints) small_ints)
       small_ints).

(** ** The round trip through a flat array

    [v2.fromArray(v.toArray([], offset), offset)] with a vector [v2] made
    by the constructor without arguments. *)

Definition round_trip2 (P : Platform) (v : loc) (offset : option nat) : M loc :=
  array <- Vector2.toArray v (Some []) offset;;
  v2 <- Vector2.constructor P JUndef JUndef;;
  Vector2.fromArray v2 array offset;;
  ret v2.

Definition round_trip3 (P : Platform) (v : loc) (offset : option nat) : M loc :=
  array <- Vector3.toArray v (Some []) offset;;
  v2 <- Vector3.constructor P JUndef JUndef JUndef;;
  Vector3.fromArray v2 array offset;;
  ret v2.

Definition round_trip4 (P : Platform) (v : loc) (offset : option nat) : M loc :=
  array <- Vector4.toArray v (Some []) offset;;
  v2 <- Vector4.constructor P JUndef JUndef JUndef JUndef;;
  Vector4.fromArray v2 array offset;;
  ret v2.

(** The state after [alloc o]. *)
Definition allocated_in (o : Obj) (st : State) : State :=
  mkState (<[next_loc st := o]> (heap st)) (S (next_loc st))
          (trace st) (rand_calls st) (ids_issued st).

(** The state after [generateId]. *)
Definition id_issued (st : State) : State :=
  mkState (heap st) (next_loc st) (trace st) (rand_calls st) (S (ids_issued st)).

(** ** The order of binary64 numbers

    [SFcompare] of the Standard Library compares two numbers by sign,
    exponent and mantissa; [key] places every number other than [NaN] on
    a line of triples ordered lexicographically. *)

Definition key (x : spec_float) : option (BinNums.Z * BinNums.Z * BinNums.Z) :=
  match x with
  | S754_nan => None
  | S754_infinity true => Some (-2, 0, 0)%Z
  | S754_finite true m e => Some (-1, - e, - Z.pos m)%Z
  | S754_zero _ => Some (0, 0, 0)%Z
  | S754_finite false m e => Some (1, e, Z.pos m)%Z
  | S754_infinity false => Some (2, 0, 0)%Z
  end.

Definition lex (a b : BinNums.Z * BinNums.Z * BinNums.Z) : comparison :=
  let '(a1, a2, a3) := a in
  let '(b1, b2, b3) := b in
  match (a1 ?= b1)%Z with
  | Eq => match (a2 ?= b2)%Z with
          | Eq => (a3 ?= b3)%Z
          | c => c
          end
  | c => c
  end.

(** [a <= b] on values, as [!(a > b)] is not: false when either is
    [NaN]. *)
Definition jle (a b : jsval) : bool := (ToNumber a <=? ToNumber b)%float.

(** ** The axis of a half turn, in the words of the specification

    The three values [(m_ii + 1) / 2] and the quarter sums of the
    off-diagonal pairs of a matrix. *)
Definition diagonal_terms (m : Matrix) : jsval * jsval * jsval :=
  let te := aget (elements m) in
  (((te 0 + JNum 1) / JNum 2)%jv, ((te 5 + JNum 1) / JNum 2)%jv,
   ((te 10 + JNum 1) / JNum 2)%jv).

Definition quarter_sums (m : Matrix) : jsval * jsval * jsval :=
  let te := aget (elements m) in
  (((te 4 + te 1) / JNum 4)%jv, ((te 8 + te 2) / JNum 4)%jv,
   ((te 9 + te 6) / JNum 4)%jv).

(** [axis] is recovered from the dominant diagonal term: the component
    of the largest of [xx], [yy], [zz] is its square root, the two others
    are the quarter sums divided by it. *)
Definition from_dominant_term (m : Matrix) (axis : jsval * jsval * jsval) : Prop :=
  let '(xx, yy, zz) := diagonal_terms m in
  let '(xy, xz, yz) := quarter_sums m in
  (jle yy xx = true /\ jle zz xx = true
   /\ axis = (Math_sqrt xx, (xy / Math_sqrt xx)%jv, (xz / Math_sqrt xx)%jv))
  \/ (jle xx yy = true /\ jle zz yy = true
      /\ axis = ((xy / Math_sqrt yy)%jv, Math_sqrt yy, (yz / Math_sqrt yy)%jv))
  \/ (jle xx zz = true /\ jle yy zz = true
      /\ axis = ((xz / Math_sqrt zz)%jv, (yz / Math_sqrt zz)%jv, Math_sqrt zz)).

(** No [NaN] among the diagonal terms. *)
Definition diagonal_numbers (m : Matrix) : Prop :=
  let '(xx, yy, zz) := diagonal_terms m in
  is_nan (ToNumber xx) = false /\ is_nan (ToNumber yy) = false
  /\ is_nan (ToNumber zz) = false.

(** [Math.abs(a - b) < eps] *)
Definition within (eps a b : jsval) : bool := (Math_abs (a - b) < eps)%jv.

(** The magnitude of the skew-symmetric part, before the guard. *)
Definition skew_norm (P : Platform) (m : Matrix) : jsval :=
  let te := aget (elements m) in
  Math_sqrt (js_pow P (te 6 - te 9) (JNum 2)
             + js_pow P (te 8 - te 2) (JNum 2)
             + js_pow P (te 1 - te 4) (JNum 2))%jv.

(** The 4x4 matrix of a rotation by a half turn about the y axis, and
    the identity, column-major. *)
Definition half_turn_y : Matrix :=
  {| elements := map JNum
       [(-1)%float; 0%float; 0%float; 0%float;
        0%float; 1%float; 0%float; 0%float;
        0%float; 0%float; (-1)%float; 0%float;
        0%float; 0%float; 0%float; 1%float] |}.

Definition identity_matrix : Matrix :=
  {| elements := map JNum
       [1%float; 0%float; 0%float; 0%float;
        0%float; 1%float; 0%float; 0%float;
        0%float; 0%float; 1%float; 0%float;
        0%float; 0%float; 0%float; 1%float] |}.

(** ** The scale factors of the quantisers *)

Definition is_signed (a : MathUtils.ArrayCtor) : bool :=
  match a with
  | MathUtils.Int32Array | MathUtils.Int16Array | MathUtils.Int8Array => true
  | _ => false
  end.

Definition is_unsigned (a : MathUtils.ArrayCtor) : bool :=
  match a with
  | MathUtils.Uint32Array | MathUtils.Uint16Array | MathUtils.Uint8Array => true
  | _ => false
  end.

(** The factors of the source: [2^(w-1) - 1] for the signed width [w],
    [2^w - 1] for the unsigned one. *)
Definition scale (a : MathUtils.ArrayCtor) : jsval :=
  match a with
  | MathUtils.Uint32Array => JNum 4294967295
  | MathUtils.Uint16Array => JNum 65535
  | MathUtils.Uint8Array => JNum 255
  | MathUtils.Int32Array => JNum 2147483647
  | MathUtils.Int16Array => JNum 32767
  | MathUtils.Int8Array => JNum 127
  | _ => JNum 1
  end.

(** The factors as the specification lists them: 255, 32767,
    2147483647 for the signed widths, 255, 65535, 4294967295 for the
    unsigned ones. *)
Definition documented_scale (a : MathUtils.ArrayCtor) : jsval :=
  match a with
  | MathUtils.Int8Array => JNum 255
  | _ => scale a
  end.

(** The quantisers over a table of factors. *)
Definition normalize_with (table : MathUtils.ArrayCtor -> jsval)
    (value : jsval) (a : MathUtils.ArrayCtor) : Error + jsval :=
  match a with
  | MathUtils.Float32Array => inr value
  | MathUtils.OtherCtor _ => inl (JSError "Invalid type")
  | _ => inr (Math_round (value * table a)%jv)
  end.

Definition denormalize_with (table : MathUtils.ArrayCtor -> jsval)
    (value : jsval) (a : MathUtils.ArrayCtor) : Error + jsval :=
  match a with
  | MathUtils.Float32Array => inr value
  | MathUtils.OtherCtor _ => inl (JSError "Invalid type")
  | _ =>
      if is_signed a then inr (Math_max (value / table a)%jv (JNum (-1)))
      else inr (value / table a)%jv
  end.

(** ** What a call leaves alone

    [same_identity o o']: [o'] is [o] up to its components and a dirty
    flag that may have been raised. *)
Definition same_identity (o o' : Obj) : Prop :=
  dsrt_id o' = dsrt_id o /\ dsrt_origin o' = dsrt_origin o /\ tag o' = tag o
  /\ onChange o' = onChange o /\ (isDirty o = true -> isDirty o' = true).

(** From [st] to [st'] no object was made or lost, every object kept its
    identity, and the objects outside [S] are as they were. *)
Definition confined (S : list loc) (st st' : State) : Prop :=
  next_loc st' = next_loc st /\ ids_issued st' = ids_issued st
  /\ forall l,
       match heap st !! l, heap st' !! l with
       | Some o, Some o' => same_identity o o' /\ (~ In l S -> o' = o)
       | None, None => True
       | _, _ => False
       end.

(** [c] writes to the objects of [S] only, whether it returns or throws;
    its value satisfies [Q]. *)
Definition writes_only {A} (S : list loc) (Q : A -> Prop) (c : M A) : Prop :=
  forall st,
    match c st with
    | Ok r st' => confined S st st' /\ Q r
    | Throw _ st' => confined S st st'
    end.


(** ** Components by index, defaults, copies *)

(** The component that the index [i] selects in a vector of dimension
    [dim]; the [switch] of the accessors compares with [===]. *)
Definition component (dim : nat) (i : jsval) : option Field :=
  if strict_eq i (JNum 0) then Some X
  else if strict_eq i (JNum 1) then Some Y
  else if strict_eq i (JNum 2) then (if 2 <? dim then Some Z else None)
  else if strict_eq i (JNum 3) then (if 3 <? dim then Some W else None)
  else None.

(** A parameter [v] with the default [d]. *)
Definition defaulted (d v : jsval) : jsval :=
  if is_undefined v then d else v.

(** [o'] is what [clone()] makes of [o] in dimension [dim]. *)
Definition clone_of (dim : nat) (o o' : Obj) : Prop :=
  isDirty o' = false /\ onChange o' = None
  /\ obj_x o' = defaulted (JNum 0) (obj_x o)
  /\ obj_y o' = defaulted (JNum 0) (obj_y o)
  /\ (2 < dim -> obj_z o' = defaulted (JNum 0) (obj_z o))
  /\ (3 < dim -> obj_w o' = defaulted (JNum 1) (obj_w o)).

(** One of the first [dim] components of [o] is [NaN]. *)
Definition has_nan (dim : nat) (o : Obj) : bool :=
  is_nan_val (obj_x o) || is_nan_val (obj_y o)
  || ((2 <? dim) && is_nan_val (obj_z o))
  || ((3 <? dim) && is_nan_val (obj_w o)).

(** [this.copy(v).equals(v)] *)
Definition copy_then_equals3 (this v : loc) : M bool :=
  r <- Vector3.copy this v;; on r (fun u => Vector3.equals u v).

Definition copy_then_equals4 (this v : loc) : M bool :=
  r <- Vector4.copy this v;; on r (fun u => Vector4.equals u v).

Definition copy_then_equals2 (this v : loc) : M bool :=
  r <- Vector2.copy this v;; on r (fun u => Vector2.equals u v).

(** [this.setComponent(i, v).getComponent(i)] *)
Definition set_then_get3 (this : loc) (i v : jsval) : Expr :=
  r <- Vector3.setComponent this i v;; on r (fun u => Vector3.getComponent u i).

Definition set_then_get4 (this : loc) (i v : jsval) : Expr :=
  r <- Vector4.setComponent this i v;; on r (fun u => Vector4.getComponent u i).

Definition set_then_get2 (this : loc) (i v : jsval) : Expr :=
  r <- Vector2.setComponent this i v;; on r (fun u => Vector2.getComponent u i).

(** [toArray(array, k)] wrote the [dim] values [vals] at [k] and left
    the rest of [array] alone. *)
Definition written_at (k : nat) (vals array array' : list jsval) : Prop :=
  length array' = Nat.max (length array) (k + length vals)
  /\ (forall j, j < length vals -> aget array' (k + j) = aget vals j)
  /\ (forall j, j < k \/ k + length vals <= j -> aget array' j = aget array j).


(** ** Squared lengths, and calls in sequence *)

Definition lensq2 (o : Obj) : jsval :=
  (obj_x o * obj_x o + obj_y o * obj_y o)%jv.

Definition lensq3 (o : Obj) : jsval :=
  (obj_x o * obj_x o + obj_y o * obj_y o + obj_z o * obj_z o)%jv.

(** The calls of an observer [cb] that one commit on [l] adds. *)
Definition one_call (cb : option callback) (l : loc) : list Event :=
  match cb with
  | Some f => [Notify f l]
  | None => []
  end.

(** [this.negate().negate()] *)
Definition negate_twice3 (this : loc) : M jsret :=
  r <- Vector3.negate this;; on r Vector3.negate.

Definition negate_twice4 (this : loc) : M jsret :=
  r <- Vector4.negate this;; on r Vector4.negate.

Definition negate_twice2 (this : loc) : M jsret :=
  r <- Vector2.negate this;; on r Vector2.negate.

(** [v] is a number within [lo .. hi], or was [NaN] (or [undefined])
    before the clamp and is [NaN] after it. *)
Definition clamped (lo hi before after : jsval) : Prop :=
  if is_nan (ToNumber before) then is_nan_val after = true
  else jle lo after = true /\ jle after hi = true.


(** ** The shape of a version-4 UUID *)

(** [c] occurs in [s]. *)
Fixpoint mem (c : Ascii.ascii) (s : string) : bool :=
  match s with
  | EmptyString => false
  | String d t => Ascii.eqb c d || mem c t
  end.

(** The characters allowed at the position [i] of the 36: a hyphen at
    8, 13, 18 and 23, the version 4 at 14, the variant 8, 9, a or b at
    19, a lower-case hexadecimal digit elsewhere. *)
Definition uuid_char (i : nat) : string :=
  match i with
  | 8 | 13 | 18 | 23 => "-"
  | 14 => "4"
  | 19 => "89ab"
  | _ => "0123456789abcdef"
  end.

Fixpoint shaped_from (i : nat) (s : string) : bool :=
  match s with
  | EmptyString => i =? 36
  | String c t => mem c (uuid_char i) && shaped_from (S i) t
  end.

Definition is_uuid_v4 (s : string) : bool := shaped_from 0 s.

(** A string of two characters that, in lower case, are among [first]
    and among [second]. *)
Definition two_chars (first second s : string) : bool :=
  match s with
  | String c1 (String c2 EmptyString) =>
      mem (MathUtils.lower c1) first && mem (MathUtils.lower c2) second
  | _ => false
  end.

(** The state after [n] more draws of [Math.random()]. *)
Definition drawn (n : nat) (st : State) : State :=
  mkState (heap st) (next_loc st) (trace st) (n + rand_calls st) (ids_issued st).

(** [sign] by cases. *)
Definition sign_by_cases (x : jsval) : jsval :=
  if (x > JNum 0)%jv then JNum 1
  else if (x < JNum 0)%jv then JNum (-1)
  else JNum 0.

(** [smoothstep] and [smootherstep] where they are a step. *)
Definition step_at (lo x : jsval) : jsval :=
  if jle x lo then JNum 0 else JNum 1.


(** ** Clones compared, draws counted *)

(** A value that is a number other than [NaN]. *)
Definition is_number (v : jsval) : bool :=
  match v with
  | JNum f => negb (is_nan f)
  | JUndef => false
  end.

(** The first [dim] components of [o] are numbers other than [NaN]. *)
Definition all_numbers (dim : nat) (o : Obj) : bool :=
  is_number (obj_x o) && is_number (obj_y o)
  && (if 2 <? dim then is_number (obj_z o) else true)
  && (if 3 <? dim then is_number (obj_w o) else true).

(** [this.clone().equals(this)] *)
Definition clone_then_equals3 (P : Platform) (this : loc) : M bool :=
  c <- Vector3.clone P this;; Vector3.equals c this.

Definition clone_then_equals4 (P : Platform) (this : loc) : M bool :=
  c <- Vector4.clone P this;; Vector4.equals c this.

Definition clone_then_equals2 (P : Platform) (this : loc) : M bool :=
  c <- Vector2.clone P this;; Vector2.equals c this.

(** The [k]-th number that [Math.random()] answers from [st] on. *)
Definition draw (P : Platform) (st : State) (k : nat) : jsval :=
  JNum (host_random P (k + rand_calls st)).


(** [this.fromArray(array, k).toArray()] *)
Definition from_then_to_array3 (this : loc) (array : list jsval) (k : nat)
    : M (list jsval) :=
  r <- Vector3.fromArray this array (Some k);;
  on r (fun u => Vector3.toArray u None None).

Definition from_then_to_array4 (this : loc) (array : list jsval) (k : nat)
    : M (list jsval) :=
  r <- Vector4.fromArray this array (Some k);;
  on r (fun u => Vector4.toArray u None None).

Definition from_then_to_array2 (this : loc) (array : list jsval) (k : nat)
    : M (list jsval) :=
  r <- Vector2.fromArray this array (Some k);;
  on r (fun u => Vector2.toArray u None None).


(* ================================================================== *)
(** * Facts *)
(* ================================================================== *)

Lemma notifications_0 st this : notifications st this 0 = [].
Proof. unfold notifications. destruct (observer_of st this); reflexivity. Qed.

Lemma notifications_add st st' this n m :
  observer_of st' this = observer_of st this ->
  notifications st this n ++ notifications st' this m
  = notifications st this (n + m).
Proof.
  intros E. unfold notifications. rewrite E.
  destruct (observer_of st this); [|reflexivity].
  symmetry. apply repeat_app.
Qed.

Lemma evolves_trans this n m st st1 st2 :
  allocated st this ->
  evolves this n st st1 -> evolves this m st1 st2 ->
  evolves this (n + m) st st2.
Proof.
  intros Ha [a1 o1 t1 d1 c1] [a2 o2 t2 d2 c2]. split.
  - auto.
  - intros l Hl. rewrite o2, o1; auto.
  - rewrite t2, t1, <- app_assoc. f_equal.
    apply notifications_add. auto.
  - auto.
  - intros Hnm. destruct m as [|m].
    + apply d2, c1. lia.
    + apply c2. lia.
Qed.

Lemma ready_evolves L this n st st' :
  ready L this st -> evolves this n st st' -> ready L this st'.
Proof.
  intros [Ha Hv] E. split.
  - intros l Hl. apply (ev_alloc _ _ _ _ E), Ha, Hl.
  - rewrite (ev_observer _ _ _ _ E); [exact Hv|].
    apply Ha. simpl. auto.
Qed.

Lemma ready_this L this st : ready L this st -> allocated st this.
Proof. intros [Ha _]. apply Ha. simpl. auto. Qed.

(** ** The rules *)

Lemma commits_ret {A} L this (Q : A -> Prop) (a : A) :
  Q a -> commits L this 0 0 Q (ret a).
Proof.
  intros HQ st _. exists a, st, 0. repeat split; auto; try lia.
  - rewrite notifications_0, app_nil_r. reflexivity.
Qed.

Lemma commits_bind {A B} L this lo1 hi1 lo2 hi2 (Q1 : A -> Prop) (Q2 : B -> Prop)
    (c : M A) (k : A -> M B) :
  commits L this lo1 hi1 Q1 c ->
  (forall a, Q1 a -> commits L this lo2 hi2 Q2 (k a)) ->
  commits L this (lo1 + lo2) (hi1 + hi2) Q2 (bind c k).
Proof.
  intros Hc Hk st Hr.
  destruct (Hc st Hr) as (a & st1 & n & E1 & Hn & Ev1 & HQ1).
  destruct (Hk a HQ1 st1 (ready_evolves _ _ _ _ _ Hr Ev1))
    as (b & st2 & m & E2 & Hm & Ev2 & HQ2).
  exists b, st2, (n + m). unfold bind. rewrite E1.
  split; [exact E2|]. split; [lia|]. split; [|exact HQ2].
  eapply evolves_trans; eauto using ready_this.
Qed.

Lemma commits_weaken {A} L this lo hi lo' hi' (Q Q' : A -> Prop) (c : M A) :
  commits L this lo hi Q c ->
  lo' <= lo -> hi <= hi' -> (forall a, Q a -> Q' a) ->
  commits L this lo' hi' Q' c.
Proof.
  intros Hc Hlo Hhi HQ st Hr.
  destruct (Hc st Hr) as (a & st1 & n & E1 & Hn & Ev1 & HQ1).
  exists a, st1, n.
  split; [exact E1|]. split; [lia|]. split; [exact Ev1|auto].
Qed.

Lemma commits_if {A} L this lo1 hi1 lo2 hi2 (Q : A -> Prop) (b : bool) (c1 c2 : M A) :
  commits L this lo1 hi1 Q c1 ->
  commits L this lo2 hi2 Q c2 ->
  commits L this (Nat.min lo1 lo2) (Nat.max hi1 hi2) Q (if b then c1 else c2).
Proof.
  intros H1 H2. destruct b.
  - eapply commits_weaken; eauto; lia.
  - eapply commits_weaken; eauto; lia.
Qed.

Lemma commits_rd L this l f :
  In l (this :: _vector :: _quaternion :: L) ->
  commits L this 0 0 any (rd l f).
Proof.
  intros Hl st Hr. destruct (proj1 Hr l Hl) as [o Ho].
  exists (get_field f o), st, 0. unfold rd. rewrite Ho.
  repeat split; auto; try lia.
  rewrite notifications_0, app_nil_r. reflexivity.
Qed.

Lemma observer_of_insert st l o o' l' :
  heap st !! l = Some o -> onChange o' = onChange o ->
  observer_of (with_heap (<[l := o']> (heap st)) st) l' = observer_of st l'.
Proof.
  intros Ho E. unfold observer_of. simpl.
  destruct (decide (l = l')) as [->|Hne].
  - rewrite lookup_insert_eq, Ho. exact E.
  - rewrite lookup_insert_ne by exact Hne. reflexivity.
Qed.

Lemma allocated_insert st l o' l' :
  allocated st l' -> allocated (with_heap (<[l := o']> (heap st)) st) l'.
Proof.
  unfold allocated. simpl. intros H.
  destruct (decide (l = l')) as [->|Hne].
  - rewrite lookup_insert_eq. eauto.
  - rewrite lookup_insert_ne by exact Hne. exact H.
Qed.

Lemma dirty_of_insert st l o o' l' :
  heap st !! l = Some o -> (isDirty o = true -> isDirty o' = true) ->
  dirty_of st l' = true ->
  dirty_of (with_heap (<[l := o']> (heap st)) st) l' = true.
Proof.
  intros Ho E. unfold dirty_of. simpl.
  destruct (decide (l = l')) as [->|Hne].
  - rewrite lookup_insert_eq, Ho. exact E.
  - rewrite lookup_insert_ne by exact Hne. auto.
Qed.

Lemma commits_wr L this l f v :
  In l (this :: _vector :: _quaternion :: L) ->
  commits L this 0 0 any (wr l f v).
Proof.
  intros Hl st Hr. destruct (proj1 Hr l Hl) as [o Ho].
  exists tt, (with_heap (<[l := set_field f v o]> (heap st)) st), 0.
  unfold wr. rewrite Ho. repeat split; try lia; try exact I.
  - intros l'. apply allocated_insert.
  - intros l' _. apply (observer_of_insert _ _ o); auto. destruct f; reflexivity.
  - simpl. rewrite notifications_0, app_nil_r. reflexivity.
  - intros l'. apply (dirty_of_insert _ _ o); auto. destruct f; auto.
Qed.

(** [#markDirty] on [this]: one commit. *)
Lemma commits_markDirty L this :
  commits L this 1 1 any (markDirty this).
Proof.
  intros st Hr. destruct (ready_this _ _ _ Hr) as [o Ho].
  pose (st1 := with_heap (<[this := set_dirty o]> (heap st)) st).
  assert (Ev : evolves this 0 st st1).
  { split; try lia.
    - intros l'. apply allocated_insert.
    - intros l' _. apply (observer_of_insert _ _ o); auto.
    - simpl. rewrite notifications_0, app_nil_r. reflexivity.
    - intros l'. apply (dirty_of_insert _ _ o); auto. }
  assert (Hd : dirty_of st1 this = true).
  { unfold dirty_of, st1. simpl. rewrite lookup_insert_eq. reflexivity. }
  unfold markDirty. rewrite Ho. fold st1.
  destruct (onChange o) as [cb|] eqn:Hcb.
  - exists tt, (with_trace (trace st1 ++ [Notify cb this]) st1), 1.
    repeat split; try lia; try exact I.
    + apply (ev_alloc _ _ _ _ Ev).
    + apply (ev_observer _ _ _ _ Ev).
    + simpl. unfold notifications, observer_of. rewrite Ho, Hcb. reflexivity.
    + apply (ev_dirty _ _ _ _ Ev).
    + intros _. exact Hd.
  - exists tt, st1, 1.
    repeat split; try lia; try exact I.
    + apply (ev_alloc _ _ _ _ Ev).
    + apply (ev_observer _ _ _ _ Ev).
    + simpl. unfold notifications, observer_of. rewrite Ho, Hcb, app_nil_r. reflexivity.
    + apply (ev_dirty _ _ _ _ Ev).
    + intros _. exact Hd.
Qed.

(** A method run on the scratch vector, which nothing observes, commits
    nothing on [this]. *)
Lemma commits_scratch {A} L this lo hi (Q : A -> Prop) (c : M A) :
  commits (this :: L) _vector lo hi Q c ->
  commits L this 0 0 Q c.
Proof.
  intros Hc st Hr.
  assert (Hr' : ready (this :: L) _vector st).
  { destruct Hr as [Ha Hv]. split; [|exact Hv].
    intros l Hl. apply Ha. simpl in *. tauto. }
  destruct (Hc st Hr') as (a & st1 & n & E1 & Hn & Ev1 & HQ1).
  exists a, st1, 0. repeat split; auto.
  - apply (ev_alloc _ _ _ _ Ev1).
  - apply (ev_observer _ _ _ _ Ev1).
  - rewrite (ev_trace _ _ _ _ Ev1). unfold notifications at 1.
    rewrite (proj2 Hr), notifications_0. reflexivity.
  - apply (ev_dirty _ _ _ _ Ev1).
  - lia.
Qed.

Lemma commits_random L this P : commits L this 0 0 any (Math_random P).
Proof.
  intros st Hr. eexists _, _, 0. unfold Math_random.
  split; [reflexivity|]. repeat split; auto; try lia.
  simpl. rewrite notifications_0, app_nil_r. reflexivity.
Qed.

Lemma commits_ret_any {A} L this (a : A) : commits L this 0 0 any (ret a).
Proof. apply commits_ret. exact I. Qed.

Lemma commits_ret_eq {A} L this (a : A) : commits L this 0 0 (eq a) (ret a).
Proof. apply commits_ret. reflexivity. Qed.

Create HintDb commits.

#[local] Hint Extern 1 (In _ _) => simpl in *; tauto : commits.

Ltac unfold_glue :=
  unfold store, and_then, ifM, lift1, lift2, or_else, clamp3, default_to,
    lit, Quaternion_setFromEuler, Quaternion_setFromAxisAngle, fill_quaternion.

(** One step of a derivation of [commits]. *)
Ltac commit_step :=
  lazymatch goal with
  | |- commits _ _ _ _ _ (bind _ _) =>
      eapply commits_bind; [ | intros ? ? ]
  | |- commits _ _ _ _ _ (on ?r _) =>
      first [ is_var r; subst r; cbn [on] | progress cbn [on] ]
  | |- commits _ _ _ _ _ (@ret jsret _) => eapply commits_ret_eq
  | |- commits _ _ _ _ _ (ret _) => eapply commits_ret_any
  | |- commits _ _ _ _ _ (rd _ _) => eapply commits_rd; simpl in *; tauto
  | |- commits _ _ _ _ _ (wr _ _ _) => eapply commits_wr; simpl in *; tauto
  | |- commits _ ?t _ _ _ (markDirty ?t) => eapply commits_markDirty
  | |- commits _ _ _ _ _ (Math_random _) => eapply commits_random
  | |- commits _ _ _ _ _ (if _ then _ else _) => eapply commits_if
  | |- commits _ _ _ _ _ (match ?x with _ => _ end) => destruct x
  | |- commits _ _ _ _ _ (let _ := _ in _) => cbv zeta
  | |- commits _ _ _ _ _ _ =>
      first [ solve [eauto 3 with commits nocore]
            | eapply commits_scratch; solve [eauto 3 with commits nocore] ]
  end.

(** A method commits between [lo] and [hi] times and returns [Q]. *)
Ltac derive_commits :=
  eapply commits_weaken;
  [ unfold_glue; repeat commit_step
  | simpl; lia
  | simpl; lia
  | let E := fresh in intros ? E; exact E ].

(** ** Vector3: every mutator commits, and what it returns *)

Lemma v3_set_commits L this (x y z : jsval) :
  commits L this 1 1 (eq (RObj this)) (Vector3.set this x y z).
Proof. unfold Vector3.set. derive_commits. Qed.
#[local] Hint Resolve v3_set_commits : commits.

Lemma v3_setScalar_commits L this (scalar : jsval) :
  commits L this 1 1 (eq (RObj this)) (Vector3.setScalar this scalar).
Proof. unfold Vector3.setScalar. derive_commits. Qed.
#[local] Hint Resolve v3_setScalar_commits : commits.

Lemma v3_setX_commits L this (x : jsval) :
  commits L this 1 1 (eq (RObj this)) (Vector3.setX this x).
Proof. unfold Vector3.setX. derive_commits. Qed.
#[local] Hint Resolve v3_setX_commits : commits.

Lemma v3_setY_commits L this (y : jsval) :
  commits L this 1 1 (eq (RObj this)) (Vector3.setY this y).
Proof. unfold Vector3.setY. derive_commits. Qed.
#[local] Hint Resolve v3_setY_commits : commits.

Lemma v3_setZ_commits L this (z : jsval) :
  commits L this 1 1 (eq (RObj this)) (Vector3.setZ this z).
Proof. unfold Vector3.setZ. derive_commits. Qed.
#[local] Hint Resolve v3_setZ_commits : commits.

Lemma v3_copy_commits L this (v : loc) :
  In v (this :: _vector :: _quaternion :: L) ->
  commits L this 1 1 (eq (RObj this)) (Vector3.copy this v).
Proof. intros. unfold Vector3.copy. derive_commits. Qed.
#[local] Hint Resolve v3_copy_commits : commits.

Lemma v3_add_commits L this (v : loc) :
  In v (this :: _vector :: _quaternion :: L) ->
  commits L this 1 1 (eq (RObj this)) (Vector3.add this v).
Proof. intros. unfold Vector3.add. derive_commits. Qed.
#[local] Hint Resolve v3_add_commits : commits.

Lemma v3_addScalar_commits L this (s : jsval) :
  commits L this 1 1 (eq (RObj this)) (Vector3.addScalar this s).
Proof. unfold Vector3.addScalar. derive_commits. Qed.
#[local] Hint Resolve v3_addScalar_commits : commits.

Lemma v3_addVectors_commits L this (a b : loc) :
  In a (this :: _vector :: _quaternion :: L) ->
  In b (this :: _vector :: _quaternion :: L) ->
  commits L this 1 1 (eq (RObj this)) (Vector3.addVectors this a b).
Proof. intros. unfold Vector3.addVectors. derive_commits. Qed.
#[local] Hint Resolve v3_addVectors_commits : commits.

Lemma v3_addScaledVector_commits L this (v : loc) (s : jsval) :
  In v (this :: _vector :: _quaternion :: L) ->
  commits L this 1 1 (eq (RObj this)) (Vector3.addScaledVector this v s).
Proof. intros. unfold Vector3.addScaledVector. derive_commits. Qed.
#[local] Hint Resolve v3_addScaledVector_commits : commits.

Lemma v3_sub_commits L this (v : loc) :
  In v (this :: _vector :: _quaternion :: L) ->
  commits L this 1 1 (eq (RObj this)) (Vector3.sub this v).
Proof. intros. unfold Vector3.sub. derive_commits. Qed.
#[local] Hint Resolve v3_sub_commits : commits.

Lemma v3_subScalar_commits L this (s : jsval) :
  commits L this 1 1 (eq (RObj this)) (Vector3.subScalar this s).
Proof. unfold Vector3.subScalar. derive_commits. Qed.
#[local] Hint Resolve v3_subScalar_commits : commits.

Lemma v3_subVectors_commits L this (a b : loc) :
  In a (this :: _vector :: _quaternion :: L) ->
  In b (this :: _vector :: _quaternion :: L) ->
  commits L this 1 1 (eq (RObj this)) (Vector3.subVectors this a b).
Proof. intros. unfold Vector3.subVectors. derive_commits. Qed.
#[local] Hint Resolve v3_subVectors_commits : commits.

Lemma v3_multiply_commits L this (v : loc) :
  In v (this :: _vector :: _quaternion :: L) ->
  commits L this 1 1 (eq (RObj this)) (Vector3.multiply this v).
Proof. intros. unfold Vector3.multiply. derive_commits. Qed.
#[local] Hint Resolve v3_multiply_commits : commits.

Lemma v3_multiplyScalar_commits L this (scalar : jsval) :
  commits L this 1 1 (eq (RObj this)) (Vector3.multiplyScalar this scalar).
Proof. unfold Vector3.multiplyScalar. derive_commits. Qed.
#[local] Hint Resolve v3_multiplyScalar_commits : commits.

Lemma v3_multiplyVectors_commits L this (a b : loc) :
  In a (this :: _vector :: _quaternion :: L) ->
  In b (this :: _vector :: _quaternion :: L) ->
  commits L this 1 1 (eq (RObj this)) (Vector3.multiplyVectors this a b).
Proof. intros. unfold Vector3.multiplyVectors. derive_commits. Qed.
#[local] Hint Resolve v3_multiplyVectors_commits : commits.

Lemma v3_divide_commits L this (v : loc) :
  In v (this :: _vector :: _quaternion :: L) ->
  commits L this 1 1 (eq (RObj this)) (Vector3.divide this v).
Proof. intros. unfold Vector3.divide. derive_commits. Qed.
#[local] Hint Resolve v3_divide_commits : commits.

Lemma v3_divideScalar_commits L this (scalar : jsval) :
  commits L this 1 1 (eq (RObj this)) (Vector3.divideScalar this scalar).
Proof. unfold Vector3.divideScalar. derive_commits. Qed.
#[local] Hint Resolve v3_divideScalar_commits : commits.

Lemma v3_applyQuaternion_commits L this (q : loc) :
  In q (this :: _vector :: _quaternion :: L) ->
  commits L this 1 1 (eq (RObj this)) (Vector3.applyQuaternion this q).
Proof. intros. unfold Vector3.applyQuaternion. derive_commits. Qed.
#[local] Hint Resolve v3_applyQuaternion_commits : commits.

Lemma v3_applyEuler_commits P L this (euler : Euler) :
  commits L this 1 1 (eq (RObj this)) (Vector3.applyEuler P this euler).
Proof. unfold Vector3.applyEuler. derive_commits. Qed.
#[local] Hint Resolve v3_applyEuler_commits : commits.

Lemma v3_applyAxisAngle_commits P L this (axis : loc) (angle : jsval) :
  In axis (this :: _vector :: _quaternion :: L) ->
  commits L this 1 1 (eq (RObj this)) (Vector3.applyAxisAngle P this axis angle).
Proof. intros. unfold Vector3.applyAxisAngle. derive_commits. Qed.
#[local] Hint Resolve v3_applyAxisAngle_commits : commits.

Lemma v3_applyMatrix3_commits L this (m : Matrix) :
  commits L this 1 1 (eq (RObj this)) (Vector3.applyMatrix3 this m).
Proof. unfold Vector3.applyMatrix3. derive_commits. Qed.
#[local] Hint Resolve v3_applyMatrix3_commits : commits.

Lemma v3_normalize_commits L this  :
  commits L this 1 1 (eq (RObj this)) (Vector3.normalize this).
Proof. unfold Vector3.normalize, Vector3.length, Vector3.lengthSq. derive_commits. Qed.
#[local] Hint Resolve v3_normalize_commits : commits.

Lemma v3_applyNormalMatrix_commits L this (m : Matrix) :
  commits L this 2 2 (eq (RObj this)) (Vector3.applyNormalMatrix this m).
Proof. unfold Vector3.applyNormalMatrix. derive_commits. Qed.
#[local] Hint Resolve v3_applyNormalMatrix_commits : commits.

Lemma v3_applyMatrix4_commits L this (m : Matrix) :
  commits L this 1 1 (eq (RObj this)) (Vector3.applyMatrix4 this m).
Proof. unfold Vector3.applyMatrix4. derive_commits. Qed.
#[local] Hint Resolve v3_applyMatrix4_commits : commits.

Lemma v3_transformDirection_commits L this (m : Matrix) :
  commits L this 1 1 (eq (RObj this)) (Vector3.transformDirection this m).
Proof. unfold Vector3.transformDirection. derive_commits. Qed.
#[local] Hint Resolve v3_transformDirection_commits : commits.

Lemma v3_project_commits L this (camera : Camera) :
  commits L this 2 2 (eq (RObj this)) (Vector3.project this camera).
Proof. unfold Vector3.project. derive_commits. Qed.
#[local] Hint Resolve v3_project_commits : commits.

Lemma v3_unproject_commits L this (camera : Camera) :
  commits L this 2 2 (eq (RObj this)) (Vector3.unproject this camera).
Proof. unfold Vector3.unproject. derive_commits. Qed.
#[local] Hint Resolve v3_unproject_commits : commits.

Lemma v3_setLength_commits L this (length : jsval) :
  commits L this 2 2 (eq (RObj this)) (Vector3.setLength this length).
Proof. unfold Vector3.setLength. derive_commits. Qed.
#[local] Hint Resolve v3_setLength_commits : commits.

Lemma v3_lerp_commits L this (v : loc) (alpha : jsval) :
  In v (this :: _vector :: _quaternion :: L) ->
  commits L this 1 1 (eq (RObj this)) (Vector3.lerp this v alpha).
Proof. intros. unfold Vector3.lerp. derive_commits. Qed.
#[local] Hint Resolve v3_lerp_commits : commits.

Lemma v3_lerpVectors_commits L this (v1 v2 : loc) (alpha : jsval) :
  In v1 (this :: _vector :: _quaternion :: L) ->
  In v2 (this :: _vector :: _quaternion :: L) ->
  commits L this 1 1 (eq (RObj this)) (Vector3.lerpVectors this v1 v2 alpha).
Proof. intros. unfold Vector3.lerpVectors. derive_commits. Qed.
#[local] Hint Resolve v3_lerpVectors_commits : commits.

Lemma v3_clamp_commits L this (min max : loc) :
  In min (this :: _vector :: _quaternion :: L) ->
  In max (this :: _vector :: _quaternion :: L) ->
  commits L this 1 1 (eq (RObj this)) (Vector3.clamp this min max).
Proof. intros. unfold Vector3.clamp. derive_commits. Qed.
#[local] Hint Resolve v3_clamp_commits : commits.

Lemma v3_clampScalar_commits L this (minVal maxVal : jsval) :
  commits L this 1 1 (eq (RObj this)) (Vector3.clampScalar this minVal maxVal).
Proof. unfold Vector3.clampScalar. derive_commits. Qed.
#[local] Hint Resolve v3_clampScalar_commits : commits.

Lemma v3_clampLength_commits L this (min max : jsval) :
  commits L this 2 2 (eq (RObj this)) (Vector3.clampLength this min max).
Proof. unfold Vector3.clampLength, Vector3.length, Vector3.lengthSq. derive_commits. Qed.
#[local] Hint Resolve v3_clampLength_commits : commits.

Lemma v3_floor_commits L this  :
  commits L this 1 1 (eq (RObj this)) (Vector3.floor this).
Proof. unfold Vector3.floor. derive_commits. Qed.
#[local] Hint Resolve v3_floor_commits : commits.

Lemma v3_ceil_commits L this  :
  commits L this 1 1 (eq (RObj this)) (Vector3.ceil this).
Proof. unfold Vector3.ceil. derive_commits. Qed.
#[local] Hint Resolve v3_ceil_commits : commits.

Lemma v3_round_commits L this  :
  commits L this 1 1 (eq (RObj this)) (Vector3.round this).
Proof. unfold Vector3.round. derive_commits. Qed.
#[local] Hint Resolve v3_round_commits : commits.

Lemma v3_roundToZero_commits L this  :
  commits L this 1 1 (eq (RObj this)) (Vector3.roundToZero this).
Proof. unfold Vector3.roundToZero. derive_commits. Qed.
#[local] Hint Resolve v3_roundToZero_commits : commits.

Lemma v3_negate_commits L this  :
  commits L this 1 1 (eq (RObj this)) (Vector3.negate this).
Proof. unfold Vector3.negate. derive_commits. Qed.
#[local] Hint Resolve v3_negate_commits : commits.

Lemma v3_crossVectors_commits L this (a b : loc) :
  In a (this :: _vector :: _quaternion :: L) ->
  In b (this :: _vector :: _quaternion :: L) ->
  commits L this 1 1 (eq (RObj this)) (Vector3.crossVectors this a b).
Proof. intros. unfold Vector3.crossVectors. derive_commits. Qed.
#[local] Hint Resolve v3_crossVectors_commits : commits.

Lemma v3_cross_commits L this (v : loc) :
  In v (this :: _vector :: _quaternion :: L) ->
  commits L this 1 1 (eq (RObj this)) (Vector3.cross this v).
Proof. intros. unfold Vector3.cross. derive_commits. Qed.
#[local] Hint Resolve v3_cross_commits : commits.

Lemma v3_projectOnVector_commits L this (v : loc) :
  In v (this :: _vector :: _quaternion :: L) ->
  commits L this 1 2 (eq (RObj this)) (Vector3.projectOnVector this v).
Proof. intros. unfold Vector3.projectOnVector, Vector3.lengthSq, Vector3.dot. derive_commits. Qed.
#[local] Hint Resolve v3_projectOnVector_commits : commits.

Lemma v3_projectOnPlane_commits L this (planeNormal : loc) :
  In planeNormal (this :: _vector :: _quaternion :: L) ->
  commits L this 2 2 (eq RUndef) (Vector3.projectOnPlane this planeNormal).
Proof. intros. unfold Vector3.projectOnPlane. derive_commits. Qed.
#[local] Hint Resolve v3_projectOnPlane_commits : commits.

Lemma v3_reflect_commits L this (normal : loc) :
  In normal (this :: _vector :: _quaternion :: L) ->
  commits L this 2 2 (eq RUndef) (Vector3.reflect this normal).
Proof. intros. unfold Vector3.reflect, Vector3.dot. derive_commits. Qed.
#[local] Hint Resolve v3_reflect_commits : commits.

Lemma v3_setFromSphericalCoords_commits P L this (radius phi theta : jsval) :
  commits L this 1 1 (eq (RObj this)) (Vector3.setFromSphericalCoords P this radius phi theta).
Proof. unfold Vector3.setFromSphericalCoords. derive_commits. Qed.
#[local] Hint Resolve v3_setFromSphericalCoords_commits : commits.

Lemma v3_setFromSpherical_commits P L this (s : Spherical) :
  commits L this 1 1 (eq (RObj this)) (Vector3.setFromSpherical P this s).
Proof. unfold Vector3.setFromSpherical. derive_commits. Qed.
#[local] Hint Resolve v3_setFromSpherical_commits : commits.

Lemma v3_setFromCylindricalCoords_commits P L this (radius theta y : jsval) :
  commits L this 1 1 (eq (RObj this)) (Vector3.setFromCylindricalCoords P this radius theta y).
Proof. unfold Vector3.setFromCylindricalCoords. derive_commits. Qed.
#[local] Hint Resolve v3_setFromCylindricalCoords_commits : commits.

Lemma v3_setFromCylindrical_commits P L this (c : Cylindrical) :
  commits L this 1 1 (eq (RObj this)) (Vector3.setFromCylindrical P this c).
Proof. unfold Vector3.setFromCylindrical. derive_commits. Qed.
#[local] Hint Resolve v3_setFromCylindrical_commits : commits.

Lemma v3_setFromMatrixPosition_commits L this (m : Matrix) :
  commits L this 1 1 (eq (RObj this)) (Vector3.setFromMatrixPosition this m).
Proof. unfold Vector3.setFromMatrixPosition. derive_commits. Qed.
#[local] Hint Resolve v3_setFromMatrixPosition_commits : commits.

Lemma v3_fromArray_commits L this (array : list jsval) (offset : option nat) :
  commits L this 1 1 (eq (RObj this)) (Vector3.fromArray this array offset).
Proof. unfold Vector3.fromArray. derive_commits. Qed.
#[local] Hint Resolve v3_fromArray_commits : commits.

Lemma v3_setFromMatrixColumn_commits L this (m : Matrix) (index : nat) :
  commits L this 1 1 (eq (RObj this)) (Vector3.setFromMatrixColumn this m index).
Proof. unfold Vector3.setFromMatrixColumn. derive_commits. Qed.
#[local] Hint Resolve v3_setFromMatrixColumn_commits : commits.

Lemma v3_setFromMatrix3Column_commits L this (m : Matrix) (index : nat) :
  commits L this 1 1 (eq (RObj this)) (Vector3.setFromMatrix3Column this m index).
Proof. unfold Vector3.setFromMatrix3Column. derive_commits. Qed.
#[local] Hint Resolve v3_setFromMatrix3Column_commits : commits.

Lemma v3_setFromMatrixScale_commits L this (m : Matrix) :
  commits L this 4 4 (eq (RObj this)) (Vector3.setFromMatrixScale this m).
Proof. unfold Vector3.setFromMatrixScale, Vector3.length, Vector3.lengthSq. derive_commits. Qed.
#[local] Hint Resolve v3_setFromMatrixScale_commits : commits.

Lemma v3_setFromEuler_commits L this (e : Euler) :
  commits L this 1 1 (eq (RObj this)) (Vector3.setFromEuler this e).
Proof. unfold Vector3.setFromEuler. derive_commits. Qed.
#[local] Hint Resolve v3_setFromEuler_commits : commits.

Lemma v3_setFromColor_commits L this (c : Color) :
  commits L this 1 1 (eq (RObj this)) (Vector3.setFromColor this c).
Proof. unfold Vector3.setFromColor. derive_commits. Qed.
#[local] Hint Resolve v3_setFromColor_commits : commits.

Lemma v3_fromBufferAttribute_commits L this (attribute : BufferAttribute) (index : jsval) :
  commits L this 1 1 (eq (RObj this)) (Vector3.fromBufferAttribute this attribute index).
Proof. unfold Vector3.fromBufferAttribute. derive_commits. Qed.
#[local] Hint Resolve v3_fromBufferAttribute_commits : commits.

Lemma v3_random_commits P L this  :
  commits L this 1 1 (eq (RObj this)) (Vector3.random P this).
Proof. unfold Vector3.random. derive_commits. Qed.
#[local] Hint Resolve v3_random_commits : commits.

Lemma v3_randomDirection_commits P L this  :
  commits L this 1 1 (eq (RObj this)) (Vector3.randomDirection P this).
Proof. unfold Vector3.randomDirection. derive_commits. Qed.
#[local] Hint Resolve v3_randomDirection_commits : commits.


(** ** Vector4 *)

Lemma v4_set_commits L this (x y z w : jsval) :
  commits L this 1 1 (eq (RObj this)) (Vector4.set this x y z w).
Proof. unfold Vector4.set. derive_commits. Qed.
#[local] Hint Resolve v4_set_commits : commits.

Lemma v4_setScalar_commits L this (scalar : jsval) :
  commits L this 1 1 (eq (RObj this)) (Vector4.setScalar this scalar).
Proof. unfold Vector4.setScalar. derive_commits. Qed.
#[local] Hint Resolve v4_setScalar_commits : commits.

Lemma v4_setX_commits L this (x : jsval) :
  commits L this 1 1 (eq (RObj this)) (Vector4.setX this x).
Proof. unfold Vector4.setX. derive_commits. Qed.
#[local] Hint Resolve v4_setX_commits : commits.

Lemma v4_setY_commits L this (y : jsval) :
  commits L this 1 1 (eq (RObj this)) (Vector4.setY this y).
Proof. unfold Vector4.setY. derive_commits. Qed.
#[local] Hint Resolve v4_setY_commits : commits.

Lemma v4_setZ_commits L this (z : jsval) :
  commits L this 1 1 (eq (RObj this)) (Vector4.setZ this z).
Proof. unfold Vector4.setZ. derive_commits. Qed.
#[local] Hint Resolve v4_setZ_commits : commits.

Lemma v4_setW_commits L this (w : jsval) :
  commits L this 1 1 (eq (RObj this)) (Vector4.setW this w).
Proof. unfold Vector4.setW. derive_commits. Qed.
#[local] Hint Resolve v4_setW_commits : commits.

Lemma v4_copy_commits L this (v : loc) :
  In v (this :: _vector :: _quaternion :: L) ->
  commits L this 1 1 (eq (RObj this)) (Vector4.copy this v).
Proof. intros. unfold Vector4.copy. derive_commits. Qed.
#[local] Hint Resolve v4_copy_commits : commits.

Lemma v4_add_commits L this (v : loc) :
  In v (this :: _vector :: _quaternion :: L) ->
  commits L this 1 1 (eq (RObj this)) (Vector4.add this v).
Proof. intros. unfold Vector4.add. derive_commits. Qed.
#[local] Hint Resolve v4_add_commits : commits.

Lemma v4_addScalar_commits L this (s : jsval) :
  commits L this 1 1 (eq (RObj this)) (Vector4.addScalar this s).
Proof. unfold Vector4.addScalar. derive_commits. Qed.
#[local] Hint Resolve v4_addScalar_commits : commits.

Lemma v4_addVectors_commits L this (a b : loc) :
  In a (this :: _vector :: _quaternion :: L) ->
  In b (this :: _vector :: _quaternion :: L) ->
  commits L this 1 1 (eq (RObj this)) (Vector4.addVectors this a b).
Proof. intros. unfold Vector4.addVectors. derive_commits. Qed.
#[local] Hint Resolve v4_addVectors_commits : commits.

Lemma v4_addScaledVector_commits L this (v : loc) (s : jsval) :
  In v (this :: _vector :: _quaternion :: L) ->
  commits L this 1 1 (eq (RObj this)) (Vector4.addScaledVector this v s).
Proof. intros. unfold Vector4.addScaledVector. derive_commits. Qed.
#[local] Hint Resolve v4_addScaledVector_commits : commits.

Lemma v4_sub_commits L this (v : loc) :
  In v (this :: _vector :: _quaternion :: L) ->
  commits L this 1 1 (eq (RObj this)) (Vector4.sub this v).
Proof. intros. unfold Vector4.sub. derive_commits. Qed.
#[local] Hint Resolve v4_sub_commits : commits.

Lemma v4_subScalar_commits L this (s : jsval) :
  commits L this 1 1 (eq (RObj this)) (Vector4.subScalar this s).
Proof. unfold Vector4.subScalar. derive_commits. Qed.
#[local] Hint Resolve v4_subScalar_commits : commits.

Lemma v4_subVectors_commits L this (a b : loc) :
  In a (this :: _vector :: _quaternion :: L) ->
  In b (this :: _vector :: _quaternion :: L) ->
  commits L this 1 1 (eq (RObj this)) (Vector4.subVectors this a b).
Proof. intros. unfold Vector4.subVectors. derive_commits. Qed.
#[local] Hint Resolve v4_subVectors_commits : commits.

Lemma v4_multiply_commits L this (v : loc) :
  In v (this :: _vector :: _quaternion :: L) ->
  commits L this 1 1 (eq (RObj this)) (Vector4.multiply this v).
Proof. intros. unfold Vector4.multiply. derive_commits. Qed.
#[local] Hint Resolve v4_multiply_commits : commits.

Lemma v4_multiplyScalar_commits L this (scalar : jsval) :
  commits L this 1 1 (eq (RObj this)) (Vector4.multiplyScalar this scalar).
Proof. unfold Vector4.multiplyScalar. derive_commits. Qed.
#[local] Hint Resolve v4_multiplyScalar_commits : commits.

Lemma v4_divide_commits L this (v : loc) :
  In v (this :: _vector :: _quaternion :: L) ->
  commits L this 1 1 (eq (RObj this)) (Vector4.divide this v).
Proof. intros. unfold Vector4.divide. derive_commits. Qed.
#[local] Hint Resolve v4_divide_commits : commits.

Lemma v4_divideScalar_commits L this (scalar : jsval) :
  commits L this 1 1 (eq (RObj this)) (Vector4.divideScalar this scalar).
Proof. unfold Vector4.divideScalar. derive_commits. Qed.
#[local] Hint Resolve v4_divideScalar_commits : commits.

Lemma v4_applyMatrix4_commits L this (m : Matrix) :
  commits L this 1 1 (eq (RObj this)) (Vector4.applyMatrix4 this m).
Proof. unfold Vector4.applyMatrix4. derive_commits. Qed.
#[local] Hint Resolve v4_applyMatrix4_commits : commits.

Lemma v4_setAxisAngleFromQuaternion_commits P L this (q : loc) :
  In q (this :: _vector :: _quaternion :: L) ->
  commits L this 1 1 (eq (RObj this)) (Vector4.setAxisAngleFromQuaternion P this q).
Proof. intros. unfold Vector4.setAxisAngleFromQuaternion. derive_commits. Qed.
#[local] Hint Resolve v4_setAxisAngleFromQuaternion_commits : commits.

Lemma v4_setAxisAngleFromRotationMatrix_commits P L this (m : Matrix) :
  commits L this 1 2 (eq (RObj this)) (Vector4.setAxisAngleFromRotationMatrix P this m).
Proof. unfold Vector4.setAxisAngleFromRotationMatrix. derive_commits. Qed.
#[local] Hint Resolve v4_setAxisAngleFromRotationMatrix_commits : commits.

Lemma v4_normalize_commits L this  :
  commits L this 1 1 (eq (RObj this)) (Vector4.normalize this).
Proof. unfold Vector4.normalize, Vector4.length, Vector4.lengthSq. derive_commits. Qed.
#[local] Hint Resolve v4_normalize_commits : commits.

Lemma v4_setLength_commits L this (length : jsval) :
  commits L this 2 2 (eq (RObj this)) (Vector4.setLength this length).
Proof. unfold Vector4.setLength. derive_commits. Qed.
#[local] Hint Resolve v4_setLength_commits : commits.

Lemma v4_lerp_commits L this (v : loc) (alpha : jsval) :
  In v (this :: _vector :: _quaternion :: L) ->
  commits L this 1 1 (eq (RObj this)) (Vector4.lerp this v alpha).
Proof. intros. unfold Vector4.lerp. derive_commits. Qed.
#[local] Hint Resolve v4_lerp_commits : commits.

Lemma v4_lerpVectors_commits L this (v1 v2 : loc) (alpha : jsval) :
  In v1 (this :: _vector :: _quaternion :: L) ->
  In v2 (this :: _vector :: _quaternion :: L) ->
  commits L this 1 1 (eq (RObj this)) (Vector4.lerpVectors this v1 v2 alpha).
Proof. intros. unfold Vector4.lerpVectors. derive_commits. Qed.
#[local] Hint Resolve v4_lerpVectors_commits : commits.

Lemma v4_clamp_commits L this (min max : loc) :
  In min (this :: _vector :: _quaternion :: L) ->
  In max (this :: _vector :: _quaternion :: L) ->
  commits L this 1 1 (eq (RObj this)) (Vector4.clamp this min max).
Proof. intros. unfold Vector4.clamp. derive_commits. Qed.
#[local] Hint Resolve v4_clamp_commits : commits.

Lemma v4_clampScalar_commits L this (minVal maxVal : jsval) :
  commits L this 1 1 (eq (RObj this)) (Vector4.clampScalar this minVal maxVal).
Proof. unfold Vector4.clampScalar. derive_commits. Qed.
#[local] Hint Resolve v4_clampScalar_commits : commits.

Lemma v4_clampLength_commits L this (min max : jsval) :
  commits L this 2 2 (eq (RObj this)) (Vector4.clampLength this min max).
Proof. unfold Vector4.clampLength, Vector4.length, Vector4.lengthSq. derive_commits. Qed.
#[local] Hint Resolve v4_clampLength_commits : commits.

Lemma v4_floor_commits L this  :
  commits L this 1 1 (eq (RObj this)) (Vector4.floor this).
Proof. unfold Vector4.floor. derive_commits. Qed.
#[local] Hint Resolve v4_floor_commits : commits.

Lemma v4_ceil_commits L this  :
  commits L this 1 1 (eq (RObj this)) (Vector4.ceil this).
Proof. unfold Vector4.ceil. derive_commits. Qed.
#[local] Hint Resolve v4_ceil_commits : commits.

Lemma v4_round_commits L this  :
  commits L this 1 1 (eq (RObj this)) (Vector4.round this).
Proof. unfold Vector4.round. derive_commits. Qed.
#[local] Hint Resolve v4_round_commits : commits.

Lemma v4_roundToZero_commits L this  :
  commits L this 1 1 (eq (RObj this)) (Vector4.roundToZero this).
Proof. unfold Vector4.roundToZero. derive_commits. Qed.
#[local] Hint Resolve v4_roundToZero_commits : commits.

Lemma v4_negate_commits L this  :
  commits L this 1 1 (eq (RObj this)) (Vector4.negate this).
Proof. unfold Vector4.negate. derive_commits. Qed.
#[local] Hint Resolve v4_negate_commits : commits.

Lemma v4_fromArray_commits L this (array : list jsval) (offset : option nat) :
  commits L this 1 1 (eq (RObj this)) (Vector4.fromArray this array offset).
Proof. unfold Vector4.fromArray. derive_commits. Qed.
#[local] Hint Resolve v4_fromArray_commits : commits.

Lemma v4_fromBufferAttribute_commits L this (attribute : BufferAttribute) (index : jsval) :
  commits L this 1 1 (eq (RObj this)) (Vector4.fromBufferAttribute this attribute index).
Proof. unfold Vector4.fromBufferAttribute. derive_commits. Qed.
#[local] Hint Resolve v4_fromBufferAttribute_commits : commits.

Lemma v4_random_commits P L this  :
  commits L this 1 1 (eq (RObj this)) (Vector4.random P this).
Proof. unfold Vector4.random. derive_commits. Qed.
#[local] Hint Resolve v4_random_commits : commits.


(** ** Vector2 *)

Lemma v2_set_commits L this (x y : jsval) :
  commits L this 1 1 (eq (RObj this)) (Vector2.set this x y).
Proof. unfold Vector2.set. derive_commits. Qed.
#[local] Hint Resolve v2_set_commits : commits.

Lemma v2_setScalar_commits L this (scalar : jsval) :
  commits L this 1 1 (eq (RObj this)) (Vector2.setScalar this scalar).
Proof. unfold Vector2.setScalar. derive_commits. Qed.
#[local] Hint Resolve v2_setScalar_commits : commits.

Lemma v2_setX_commits L this (x : jsval) :
  commits L this 1 1 (eq (RObj this)) (Vector2.setX this x).
Proof. unfold Vector2.setX. derive_commits. Qed.
#[local] Hint Resolve v2_setX_commits : commits.

Lemma v2_setY_commits L this (y : jsval) :
  commits L this 1 1 (eq (RObj this)) (Vector2.setY this y).
Proof. unfold Vector2.setY. derive_commits. Qed.
#[local] Hint Resolve v2_setY_commits : commits.

Lemma v2_copy_commits L this (v : loc) :
  In v (this :: _vector :: _quaternion :: L) ->
  commits L this 1 1 (eq (RObj this)) (Vector2.copy this v).
Proof. intros. unfold Vector2.copy. derive_commits. Qed.
#[local] Hint Resolve v2_copy_commits : commits.

Lemma v2_add_commits L this (v : loc) :
  In v (this :: _vector :: _quaternion :: L) ->
  commits L this 1 1 (eq (RObj this)) (Vector2.add this v).
Proof. intros. unfold Vector2.add. derive_commits. Qed.
#[local] Hint Resolve v2_add_commits : commits.

Lemma v2_addScalar_commits L this (s : jsval) :
  commits L this 1 1 (eq (RObj this)) (Vector2.addScalar this s).
Proof. unfold Vector2.addScalar. derive_commits. Qed.
#[local] Hint Resolve v2_addScalar_commits : commits.

Lemma v2_addVectors_commits L this (a b : loc) :
  In a (this :: _vector :: _quaternion :: L) ->
  In b (this :: _vector :: _quaternion :: L) ->
  commits L this 1 1 (eq (RObj this)) (Vector2.addVectors this a b).
Proof. intros. unfold Vector2.addVectors. derive_commits. Qed.
#[local] Hint Resolve v2_addVectors_commits : commits.

Lemma v2_addScaledVector_commits L this (v : loc) (s : jsval) :
  In v (this :: _vector :: _quaternion :: L) ->
  commits L this 1 1 (eq (RObj this)) (Vector2.addScaledVector this v s).
Proof. intros. unfold Vector2.addScaledVector. derive_commits. Qed.
#[local] Hint Resolve v2_addScaledVector_commits : commits.

Lemma v2_sub_commits L this (v : loc) :
  In v (this :: _vector :: _quaternion :: L) ->
  commits L this 1 1 (eq (RObj this)) (Vector2.sub this v).
Proof. intros. unfold Vector2.sub. derive_commits. Qed.
#[local] Hint Resolve v2_sub_commits : commits.

Lemma v2_subScalar_commits L this (s : jsval) :
  commits L this 1 1 (eq (RObj this)) (Vector2.subScalar this s).
Proof. unfold Vector2.subScalar. derive_commits. Qed.
#[local] Hint Resolve v2_subScalar_commits : commits.

Lemma v2_subVectors_commits L this (a b : loc) :
  In a (this :: _vector :: _quaternion :: L) ->
  In b (this :: _vector :: _quaternion :: L) ->
  commits L this 1 1 (eq (RObj this)) (Vector2.subVectors this a b).
Proof. intros. unfold Vector2.subVectors. derive_commits. Qed.
#[local] Hint Resolve v2_subVectors_commits : commits.

Lemma v2_multiply_commits L this (v : loc) :
  In v (this :: _vector :: _quaternion :: L) ->
  commits L this 1 1 (eq (RObj this)) (Vector2.multiply this v).
Proof. intros. unfold Vector2.multiply. derive_commits. Qed.
#[local] Hint Resolve v2_multiply_commits : commits.

Lemma v2_multiplyScalar_commits L this (scalar : jsval) :
  commits L this 1 1 (eq (RObj this)) (Vector2.multiplyScalar this scalar).
Proof. unfold Vector2.multiplyScalar. derive_commits. Qed.
#[local] Hint Resolve v2_multiplyScalar_commits : commits.

Lemma v2_divide_commits L this (v : loc) :
  In v (this :: _vector :: _quaternion :: L) ->
  commits L this 1 1 (eq (RObj this)) (Vector2.divide this v).
Proof. intros. unfold Vector2.divide. derive_commits. Qed.
#[local] Hint Resolve v2_divide_commits : commits.

Lemma v2_divideScalar_commits L this (scalar : jsval) :
  commits L this 1 1 (eq (RObj this)) (Vector2.divideScalar this scalar).
Proof. unfold Vector2.divideScalar. derive_commits. Qed.
#[local] Hint Resolve v2_divideScalar_commits : commits.

Lemma v2_applyMatrix3_commits L this (m : Matrix) :
  commits L this 1 1 (eq (RObj this)) (Vector2.applyMatrix3 this m).
Proof. unfold Vector2.applyMatrix3. derive_commits. Qed.
#[local] Hint Resolve v2_applyMatrix3_commits : commits.

Lemma v2_rotateAround_commits P L this (center : loc) (angle : jsval) :
  In center (this :: _vector :: _quaternion :: L) ->
  commits L this 1 1 (eq (RObj this)) (Vector2.rotateAround P this center angle).
Proof. intros. unfold Vector2.rotateAround. derive_commits. Qed.
#[local] Hint Resolve v2_rotateAround_commits : commits.

Lemma v2_normalize_commits L this  :
  commits L this 1 1 (eq (RObj this)) (Vector2.normalize this).
Proof. unfold Vector2.normalize, Vector2.length, Vector2.lengthSq. derive_commits. Qed.
#[local] Hint Resolve v2_normalize_commits : commits.

Lemma v2_setLength_commits L this (length : jsval) :
  commits L this 2 2 (eq (RObj this)) (Vector2.setLength this length).
Proof. unfold Vector2.setLength. derive_commits. Qed.
#[local] Hint Resolve v2_setLength_commits : commits.

Lemma v2_clamp_commits L this (min max : loc) :
  In min (this :: _vector :: _quaternion :: L) ->
  In max (this :: _vector :: _quaternion :: L) ->
  commits L this 1 1 (eq (RObj this)) (Vector2.clamp this min max).
Proof. intros. unfold Vector2.clamp. derive_commits. Qed.
#[local] Hint Resolve v2_clamp_commits : commits.

Lemma v2_clampScalar_commits L this (minVal maxVal : jsval) :
  commits L this 1 1 (eq (RObj this)) (Vector2.clampScalar this minVal maxVal).
Proof. unfold Vector2.clampScalar. derive_commits. Qed.
#[local] Hint Resolve v2_clampScalar_commits : commits.

Lemma v2_clampLength_commits L this (min max : jsval) :
  commits L this 2 2 (eq (RObj this)) (Vector2.clampLength this min max).
Proof. unfold Vector2.clampLength, Vector2.length, Vector2.lengthSq. derive_commits. Qed.
#[local] Hint Resolve v2_clampLength_commits : commits.

Lemma v2_floor_commits L this  :
  commits L this 1 1 (eq (RObj this)) (Vector2.floor this).
Proof. unfold Vector2.floor. derive_commits. Qed.
#[local] Hint Resolve v2_floor_commits : commits.

Lemma v2_ceil_commits L this  :
  commits L this 1 1 (eq (RObj this)) (Vector2.ceil this).
Proof. unfold Vector2.ceil. derive_commits. Qed.
#[local] Hint Resolve v2_ceil_commits : commits.

Lemma v2_round_commits L this  :
  commits L this 1 1 (eq (RObj this)) (Vector2.round this).
Proof. unfold Vector2.round. derive_commits. Qed.
#[local] Hint Resolve v2_round_commits : commits.

Lemma v2_roundToZero_commits L this  :
  commits L this 1 1 (eq (RObj this)) (Vector2.roundToZero this).
Proof. unfold Vector2.roundToZero. derive_commits. Qed.
#[local] Hint Resolve v2_roundToZero_commits : commits.

Lemma v2_negate_commits L this  :
  commits L this 1 1 (eq (RObj this)) (Vector2.negate this).
Proof. unfold Vector2.negate. derive_commits. Qed.
#[local] Hint Resolve v2_negate_commits : commits.

Lemma v2_fromArray_commits L this (array : list jsval) (offset : option nat) :
  commits L this 1 1 (eq (RObj this)) (Vector2.fromArray this array offset).
Proof. unfold Vector2.fromArray. derive_commits. Qed.
#[local] Hint Resolve v2_fromArray_commits : commits.

Lemma v2_fromBufferAttribute_commits L this (attribute : BufferAttribute) (index : jsval) :
  commits L this 1 1 (eq (RObj this)) (Vector2.fromBufferAttribute this attribute index).
Proof. unfold Vector2.fromBufferAttribute. derive_commits. Qed.
#[local] Hint Resolve v2_fromBufferAttribute_commits : commits.

Lemma v2_random_commits P L this  :
  commits L this 1 1 (eq (RObj this)) (Vector2.random P this).
Proof. unfold Vector2.random. derive_commits. Qed.
#[local] Hint Resolve v2_random_commits : commits.


(** ** [setComponent]: commits on an index in range, throws otherwise *)

Lemma v3_setComponent_commits L this (index value : jsval) :
  Ops3.in_range (Ops3.setComponent index value) = true ->
  commits L this 1 1 (eq (RObj this)) (Vector3.setComponent this index value).
Proof.
  unfold Ops3.in_range, Vector3.setComponent. intros Hi.
  destruct (strict_eq index (JNum 0)); [derive_commits|].
  destruct (strict_eq index (JNum 1)); [derive_commits|].
  destruct (strict_eq index (JNum 2)); [derive_commits|].
  discriminate Hi.
Qed.

Lemma v3_setComponent_throws this (index value : jsval) st :
  Ops3.in_range (Ops3.setComponent index value) = false ->
  exists e, Vector3.setComponent this index value st = Throw e st.
Proof.
  unfold Ops3.in_range, Vector3.setComponent, bind, throw. intros Hi.
  destruct (strict_eq index (JNum 0)); [discriminate Hi|].
  destruct (strict_eq index (JNum 1)); [discriminate Hi|].
  destruct (strict_eq index (JNum 2)); [discriminate Hi|].
  eexists. reflexivity.
Qed.

Lemma v4_setComponent_commits L this (index value : jsval) :
  Ops4.in_range (Ops4.setComponent index value) = true ->
  commits L this 1 1 (eq (RObj this)) (Vector4.setComponent this index value).
Proof.
  unfold Ops4.in_range, Vector4.setComponent. intros Hi.
  destruct (strict_eq index (JNum 0)); [derive_commits|].
  destruct (strict_eq index (JNum 1)); [derive_commits|].
  destruct (strict_eq index (JNum 2)); [derive_commits|].
  destruct (strict_eq index (JNum 3)); [derive_commits|].
  discriminate Hi.
Qed.

Lemma v4_setComponent_throws this (index value : jsval) st :
  Ops4.in_range (Ops4.setComponent index value) = false ->
  exists e, Vector4.setComponent this index value st = Throw e st.
Proof.
  unfold Ops4.in_range, Vector4.setComponent, bind, throw. intros Hi.
  destruct (strict_eq index (JNum 0)); [discriminate Hi|].
  destruct (strict_eq index (JNum 1)); [discriminate Hi|].
  destruct (strict_eq index (JNum 2)); [discriminate Hi|].
  destruct (strict_eq index (JNum 3)); [discriminate Hi|].
  eexists. reflexivity.
Qed.

Lemma v2_setComponent_commits L this (index value : jsval) :
  Ops2.in_range (Ops2.setComponent index value) = true ->
  commits L this 1 1 (eq (RObj this)) (Vector2.setComponent this index value).
Proof.
  unfold Ops2.in_range, Vector2.setComponent. intros Hi.
  destruct (strict_eq index (JNum 0)); [derive_commits|].
  destruct (strict_eq index (JNum 1)); [derive_commits|].
  discriminate Hi.
Qed.

Lemma v2_setComponent_throws this (index value : jsval) st :
  Ops2.in_range (Ops2.setComponent index value) = false ->
  exists e, Vector2.setComponent this index value st = Throw e st.
Proof.
  unfold Ops2.in_range, Vector2.setComponent, bind, throw. intros Hi.
  destruct (strict_eq index (JNum 0)); [discriminate Hi|].
  destruct (strict_eq index (JNum 1)); [discriminate Hi|].
  eexists. reflexivity.
Qed.

#[local] Hint Resolve v3_setComponent_commits v4_setComponent_commits
  v2_setComponent_commits : commits.

(** ** Every call of a mutator *)

Lemma call3_commits P (op : Ops3.mutator) this :
  Ops3.in_range op = true ->
  commits (Ops3.args op) this
    (fst (Ops3.commit_bounds op)) (snd (Ops3.commit_bounds op))
    (eq (if Ops3.returns_undefined op then RUndef else RObj this))
    (Ops3.call P op this).
Proof.
  intros Hi. destruct op; simpl in *; eauto 3 with commits nocore.
Qed.

Lemma call4_commits P (op : Ops4.mutator) this :
  Ops4.in_range op = true ->
  commits (Ops4.args op) this
    (fst (Ops4.commit_bounds op)) (snd (Ops4.commit_bounds op))
    (eq (RObj this))
    (Ops4.call P op this).
Proof.
  intros Hi. destruct op; simpl in *; eauto 3 with commits nocore.
Qed.

Lemma call2_commits P (op : Ops2.mutator) this :
  Ops2.in_range op = true ->
  commits (Ops2.args op) this
    (fst (Ops2.commit_bounds op)) (snd (Ops2.commit_bounds op))
    (eq (RObj this))
    (Ops2.call P op this).
Proof.
  intros Hi. destruct op; simpl in *; eauto 3 with commits nocore.
Qed.

Lemma call3_out_of_range P (op : Ops3.mutator) this st :
  Ops3.in_range op = false -> exists e, Ops3.call P op this st = Throw e st.
Proof.
  destruct op; try discriminate. apply v3_setComponent_throws.
Qed.

Lemma call4_out_of_range P (op : Ops4.mutator) this st :
  Ops4.in_range op = false -> exists e, Ops4.call P op this st = Throw e st.
Proof.
  destruct op; try discriminate. apply v4_setComponent_throws.
Qed.

Lemma call2_out_of_range P (op : Ops2.mutator) this st :
  Ops2.in_range op = false -> exists e, Ops2.call P op this st = Throw e st.
Proof.
  destruct op; try discriminate. apply v2_setComponent_throws.
Qed.

(* ================================================================== *)
(** * The mutation contract *)
(* ================================================================== *)

Lemma contract_of_commits {mutator : Type}
    (call : mutator -> loc -> M jsret) (args : mutator -> list loc)
    (in_range : mutator -> bool) (promised : mutator -> option nat)
    (bounds : mutator -> nat * nat)
    (Q : mutator -> loc -> jsret -> Prop) :
  (forall op this, in_range op = true ->
     commits (args op) this (fst (bounds op)) (snd (bounds op)) (Q op this)
       (call op this)) ->
  (forall op this st, in_range op = false -> exists e, call op this st = Throw e st) ->
  (forall op, 1 <= fst (bounds op)) ->
  (forall op k, promised op = Some k -> bounds op = (k, k)) ->
  honours_contract call args in_range promised.
Proof.
  intros Hc Ht Hlo Hk op this st Hr. split.
  - intros Hi. destruct (Hc op this Hi st Hr) as (r & st' & _ & E & _).
    exists r, st'. exact E.
  - intros r st' Hrun. destruct (in_range op) eqn:Hi.
    + destruct (Hc op this Hi st Hr) as (r1 & st1 & n & E & Hn & Ev & _).
      rewrite E in Hrun. injection Hrun as Er Es. subst r1 st1.
      specialize (Hlo op). split.
      * apply (ev_commit _ _ _ _ Ev). lia.
      * exists n. split; [lia|]. split.
        -- intros k Ho. rewrite (Hk op k Ho) in Hn. simpl in Hn. lia.
        -- apply (ev_trace _ _ _ _ Ev).
    + destruct (Ht op this st Hi) as [e E]. rewrite E in Hrun. discriminate Hrun.
Qed.

(** C1, as amended.  A mutating call of a Vector2, Vector3 or Vector4
    returns (but for [setComponent] with an index out of range, which
    throws).  After it returns, the vector is dirty and its observer, if
    one is attached, has been called at least once during the call,
    always with the vector itself as its only argument, and no other
    observer has been called.  It has been called exactly once by every
    mutator that commits on its own or delegates to one committing
    mutator, and exactly twice by the chains of two committing mutators
    ([setLength], [clampLength], [applyNormalMatrix], [project],
    [unproject]). *)
Theorem mutators_honour_contract (P : Platform) :
  honours_contract (Ops2.call P) Ops2.args Ops2.in_range Ops2.promised
  /\ honours_contract (Ops3.call P) Ops3.args Ops3.in_range Ops3.promised
  /\ honours_contract (Ops4.call P) Ops4.args Ops4.in_range Ops4.promised.
Proof.
  split; [|split].
  - apply (contract_of_commits _ _ _ _ Ops2.commit_bounds
             (fun _ this => eq (RObj this))).
    + intros. apply call2_commits. assumption.
    + intros. apply call2_out_of_range. assumption.
    + intros []; simpl; lia.
    + intros [] k; simpl; intros E; try discriminate E;
        injection E as <-; reflexivity.
  - apply (contract_of_commits _ _ _ _ Ops3.commit_bounds
             (fun op this => eq (if Ops3.returns_undefined op then RUndef else RObj this))).
    + intros. apply call3_commits. assumption.
    + intros. apply call3_out_of_range. assumption.
    + intros []; simpl; lia.
    + intros [] k; simpl; intros E; try discriminate E;
        injection E as <-; reflexivity.
  - apply (contract_of_commits _ _ _ _ Ops4.commit_bounds
             (fun _ this => eq (RObj this))).
    + intros. apply call4_commits. assumption.
    + intros. apply call4_out_of_range. assumption.
    + intros []; simpl; lia.
    + intros [] k; simpl; intros E; try discriminate E;
        injection E as <-; reflexivity.
Qed.

Lemma sample_ready (x y z : jsval) :
  ready [] 2 (sample_state x y z).
Proof.
  split.
  - intros l Hl. simpl in Hl.
    assert (Hc : l = 0 \/ l = 1 \/ l = 2)
      by (unfold _vector, _quaternion in Hl; intuition congruence).
    destruct Hc as [-> | [-> | ->]]; eexists; reflexivity.
  - reflexivity.
Qed.

(** The contract at [v.setX(5)] on the observed vector [(1, 2, 3)]. *)
Lemma mutators_honour_contract_witness :
  exists st',
    Ops3.call plain_host (Ops3.setX (JNum 5)) 2
      (sample_state (JNum 1) (JNum 2) (JNum 3)) = Ok (RObj 2) st'
    /\ dirty_of st' 2 = true
    /\ trace st' = [Notify 7 2].
Proof.
  destruct (mutators_honour_contract plain_host) as (_ & H3 & _).
  destruct (H3 (Ops3.setX (JNum 5)) 2 (sample_state (JNum 1) (JNum 2) (JNum 3))
              (sample_ready _ _ _)) as [Hret Hpost].
  destruct (Hret eq_refl) as (r & st' & Hrun).
  destruct (Hpost r st' Hrun) as (Hd & n & _ & Hn & Ht).
  assert (Hr : r = RObj 2).
  { assert (E : match Ops3.call plain_host (Ops3.setX (JNum 5)) 2
                        (sample_state (JNum 1) (JNum 2) (JNum 3)) with
                | Ok r0 _ => r0
                | Throw _ _ => RUndef
                end = RObj 2) by (vm_compute; reflexivity).
    rewrite Hrun in E. exact E. }
  subst r. exists st'. split; [exact Hrun|]. split; [exact Hd|].
  rewrite Ht, (Hn 1 eq_refl). reflexivity.
Defined.

(** C1, as stated, fails: [v.setLength(10)] on the vector [(3, 4, 0)]
    with the observer 7 attached returns with the observer called
    twice. *)
Lemma setLength_notifies_twice :
  exists st',
    Ops3.call plain_host (Ops3.setLength (JNum 10)) 2
      (sample_state (JNum 3) (JNum 4) (JNum 0)) = Ok (RObj 2) st'
    /\ trace st' = [Notify 7 2; Notify 7 2]
    /\ ~ notifies_exactly_once (Ops3.call plain_host) Ops3.args Ops3.in_range.
Proof.
  destruct (Ops3.call plain_host (Ops3.setLength (JNum 10)) 2
              (sample_state (JNum 3) (JNum 4) (JNum 0))) as [r st'|e st'] eqn:E;
    [|vm_compute in E; discriminate E].
  assert (Hr : r = RObj 2 /\ trace st' = [Notify 7 2; Notify 7 2]).
  { vm_compute in E. injection E as <- <-. split; reflexivity. }
  destruct Hr as [-> Ht]. exists st'. split; [reflexivity|]. split; [exact Ht|].
  intros H.
  destruct (H (Ops3.setLength (JNum 10)) 2 (sample_state (JNum 3) (JNum 4) (JNum 0))
              (sample_ready _ _ _)) as [_ Hpost].
  destruct (Hpost (RObj 2) st' E) as (_ & n & _ & Hn & Ht').
  rewrite (Hn 1 eq_refl), Ht in Ht'. vm_compute in Ht'. discriminate Ht'.
Qed.

(** ** What the mutators return *)

(** What a mutator returns: [this], except [projectOnPlane] and
    [reflect] of Vector3, which return [undefined]. *)
Lemma mutators_return (P : Platform) :
  (forall op this st r st',
     ready (Ops2.args op) this st -> Ops2.call P op this st = Ok r st' ->
     r = RObj this)
  /\ (forall op this st r st',
        ready (Ops3.args op) this st -> Ops3.call P op this st = Ok r st' ->
        r = if Ops3.returns_undefined op then RUndef else RObj this)
  /\ (forall op this st r st',
        ready (Ops4.args op) this st -> Ops4.call P op this st = Ok r st' ->
        r = RObj this).
Proof.
  split; [|split]; intros op this st r st' Hr Hrun.
  - destruct (Ops2.in_range op) eqn:Hi.
    + destruct (call2_commits P op this Hi st Hr) as (r1 & st1 & n & E & _ & _ & HQ).
      rewrite E in Hrun. congruence.
    + destruct (call2_out_of_range P op this st Hi) as [e E]. congruence.
  - destruct (Ops3.in_range op) eqn:Hi.
    + destruct (call3_commits P op this Hi st Hr) as (r1 & st1 & n & E & _ & _ & HQ).
      rewrite E in Hrun. congruence.
    + destruct (call3_out_of_range P op this st Hi) as [e E]. congruence.
  - destruct (Ops4.in_range op) eqn:Hi.
    + destruct (call4_commits P op this Hi st Hr) as (r1 & st1 & n & E & _ & _ & HQ).
      rewrite E in Hrun. congruence.
    + destruct (call4_out_of_range P op this st Hi) as [e E]. congruence.
Qed.

(** C2 at its failing inputs.  On the vector [(1, 2, 3)] and the normal
    [(0, 1, 0)], [projectOnPlane] leaves [(1, 0, 3)] and [reflect]
    leaves [(1, -2, 3)] in the vector, and both return [undefined], not
    the vector; each has called the observer twice. *)
Theorem projectOnPlane_and_reflect_return_undefined :
  (exists st',
     Vector3.projectOnPlane 2 3 (sample_state (JNum 1) (JNum 2) (JNum 3))
     = Ok RUndef st'
     /\ (obj_x <$> heap st' !! 2) = Some (JNum 1)
     /\ (obj_y <$> heap st' !! 2) = Some (JNum 0)
     /\ (obj_z <$> heap st' !! 2) = Some (JNum 3)
     /\ trace st' = [Notify 7 2; Notify 7 2])
  /\ (exists st',
        Vector3.reflect 2 3 (sample_state (JNum 1) (JNum 2) (JNum 3))
        = Ok RUndef st'
        /\ (obj_x <$> heap st' !! 2) = Some (JNum 1)
        /\ (obj_y <$> heap st' !! 2) = Some (JNum (-2))
        /\ (obj_z <$> heap st' !! 2) = Some (JNum 3)
        /\ trace st' = [Notify 7 2; Notify 7 2]).
Proof.
  split; eexists; (split; [vm_compute; reflexivity|]);
    repeat split; vm_compute; reflexivity.
Qed.

(* ================================================================== *)
(** * The queries leave the state alone *)
(* ================================================================== *)

Lemma unchanged_ret {A} (a : A) : unchanged (ret a).
Proof. intros st. reflexivity. Qed.

Lemma unchanged_throw {A} (e : Error) : unchanged (@throw A e).
Proof. intros st. reflexivity. Qed.

Lemma unchanged_rd l f : unchanged (rd l f).
Proof. intros st. unfold rd. destruct (heap st !! l); reflexivity. Qed.

Lemma unchanged_bind {A B} (c : M A) (k : A -> M B) :
  unchanged c -> (forall a, unchanged (k a)) -> unchanged (bind c k).
Proof.
  intros Hc Hk st. unfold bind. specialize (Hc st).
  destruct (c st) as [a st1|e st1]; subst st1; [apply Hk | reflexivity].
Qed.

Lemma unchanged_if {A} (b : bool) (c1 c2 : M A) :
  unchanged c1 -> unchanged c2 -> unchanged (if b then c1 else c2).
Proof. destruct b; auto. Qed.

Ltac pure_step :=
  lazymatch goal with
  | |- unchanged (bind _ _) => apply unchanged_bind; [ | intros ? ]
  | |- unchanged (ret _) => apply unchanged_ret
  | |- unchanged (throw _) => apply unchanged_throw
  | |- unchanged (rd _ _) => apply unchanged_rd
  | |- unchanged (if _ then _ else _) => apply unchanged_if
  | |- unchanged (let _ := _ in _) => cbv zeta
  end.

Ltac derive_unchanged :=
  unfold as_val, as_bool, as_list;
  unfold_glue; repeat pure_step.

Lemma ask3_unchanged P (q : Ops3.query) this : unchanged (Ops3.ask P q this).
Proof.
  destruct q; simpl;
    unfold Vector3.getComponent, Vector3.length, Vector3.manhattanLength,
      Vector3.angleTo, Vector3.distanceTo, Vector3.distanceToSquared,
      Vector3.manhattanDistanceTo, Vector3.equals, Vector3.toArray,
      Vector3.iterator, Vector3.lengthSq, Vector3.dot;
    derive_unchanged.
Qed.

Lemma ask4_unchanged (q : Ops4.query) this : unchanged (Ops4.ask q this).
Proof.
  destruct q; simpl;
    unfold Vector4.getComponent, Vector4.length, Vector4.manhattanLength,
      Vector4.equals, Vector4.toArray, Vector4.iterator, Vector4.lengthSq,
      Vector4.dot;
    derive_unchanged.
Qed.

Lemma ask2_unchanged P (q : Ops2.query) this : unchanged (Ops2.ask P q this).
Proof.
  destruct q; simpl;
    unfold Vector2.getComponent, Vector2.length, Vector2.manhattanLength,
      Vector2.cross, Vector2.angle, Vector2.angleTo, Vector2.distanceTo,
      Vector2.distanceToSquared, Vector2.manhattanDistanceTo, Vector2.equals,
      Vector2.toArray, Vector2.iterator, Vector2.lengthSq, Vector2.dot;
    derive_unchanged.
Qed.

(** C9.  A query of a Vector2, Vector3 or Vector4 ([equals], [length],
    [lengthSq], [dot], the distance queries, the iteration over the
    components, and the other read-only methods) ends, by a value or by
    an exception, in the state it started from: the dirty flag of every
    vector is what it was and the trace of observer calls has not
    grown. *)
Theorem queries_are_pure (P : Platform) (this : loc) (st : State) :
  (forall q, match Ops2.ask P q this st with
             | Ok _ st' | Throw _ st' =>
                 st' = st /\ dirty_of st' this = dirty_of st this
                 /\ trace st' = trace st
             end)
  /\ (forall q, match Ops3.ask P q this st with
                | Ok _ st' | Throw _ st' =>
                    st' = st /\ dirty_of st' this = dirty_of st this
                    /\ trace st' = trace st
                end)
  /\ (forall q, match Ops4.ask q this st with
                | Ok _ st' | Throw _ st' =>
                    st' = st /\ dirty_of st' this = dirty_of st this
                    /\ trace st' = trace st
                end).
Proof.
  split; [|split]; intros q.
  - pose proof (ask2_unchanged P q this st) as H.
    destruct (Ops2.ask P q this st); subst; auto.
  - pose proof (ask3_unchanged P q this st) as H.
    destruct (Ops3.ask P q this st); subst; auto.
  - pose proof (ask4_unchanged q this st) as H.
    destruct (Ops4.ask q this st); subst; auto.
Qed.

(** The queries do answer: [length()] of the observed vector
    [(3, 4, 0)] is 5, and the state is the one before. *)
Example length_of_3_4_0 :
  Ops3.ask plain_host Ops3.length 2 (sample_state (JNum 3) (JNum 4) (JNum 0))
  = Ok (AVal (JNum 5)) (sample_state (JNum 3) (JNum 4) (JNum 0)).
Proof. vm_compute. reflexivity. Qed.

(* ================================================================== *)
(** * Running methods step by step *)
(* ================================================================== *)

Lemma runs_ok {A} (c : M A) st r st' : runs c st r st' -> c st = Ok r st'.
Proof. exact (fun H => H). Qed.

Lemma runs_ret {A} (a : A) st : runs (ret a) st a st.
Proof. reflexivity. Qed.

Lemma runs_bind {A B} (c : M A) (k : A -> M B) st a st1 b st2 :
  runs c st a st1 -> runs (k a) st1 b st2 -> runs (bind c k) st b st2.
Proof. unfold runs, bind. intros -> H. exact H. Qed.

Lemma runs_rd l f o st : sees l o st -> runs (rd l f) st (get_field f o) st.
Proof. unfold runs, rd, sees. intros ->. reflexivity. Qed.

Lemma runs_wr l f v o st :
  sees l o st -> runs (wr l f v) st tt (put l (set_field f v o) st).
Proof. unfold runs, wr, sees. intros ->. reflexivity. Qed.

Lemma runs_markDirty l o st :
  sees l o st ->
  runs (markDirty l) st tt (notified (onChange o) l (put l (set_dirty o) st)).
Proof.
  unfold runs, markDirty, sees. intros ->.
  destruct (onChange o); reflexivity.
Qed.

Lemma sees_put l o st : sees l o (put l o st).
Proof. unfold sees, put. simpl. apply lookup_insert_eq. Qed.

Lemma sees_put_ne l l' o o' st :
  l' <> l -> sees l o st -> sees l o (put l' o' st).
Proof. unfold sees, put. simpl. intros Hne. rewrite lookup_insert_ne; auto. Qed.

Lemma sees_notified cb l' l o st : sees l o st -> sees l o (notified cb l' st).
Proof. unfold sees, notified. destruct cb; auto. Qed.

Ltac solve_sees :=
  repeat first
    [ apply sees_put
    | apply sees_notified
    | apply sees_put_ne; [ solve [ auto ] | ]
    | eassumption ].

(** One step of a run. *)
Ltac run_step :=
  lazymatch goal with
  | |- runs (bind _ _) _ _ _ => eapply runs_bind
  | |- runs (ret _) _ _ _ => apply runs_ret
  | |- runs (rd _ _) _ _ _ => eapply runs_rd; solve_sees
  | |- runs (wr _ _ _) _ _ _ => eapply runs_wr; solve_sees
  | |- runs (markDirty _) _ _ _ => eapply runs_markDirty; solve_sees
  | |- runs (on (RObj _) _) _ _ _ => cbn [on]
  | |- runs (let _ := _ in _) _ _ _ => cbv zeta
  end.

Ltac run := unfold_glue; repeat run_step.

(** C10.  [setFromMatrixScale(m)] leaves in [x] and [y] the elements 8
    and 9 of [m.elements], the first two entries of the third column,
    and in [z] the length of that column as [length()] computes it: each
    [setFromMatrixColumn] overwrites the lengths stored before it. *)
Theorem setFromMatrixScale_result (this : loc) (m : Matrix) (o : Obj) (st : State) :
  sees this o st ->
  exists st' o',
    Vector3.setFromMatrixScale this m st = Ok (RObj this) st'
    /\ sees this o' st'
    /\ obj_x o' = aget (elements m) 8
    /\ obj_y o' = aget (elements m) 9
    /\ obj_z o' =
         Math_sqrt (aget (elements m) 8 * aget (elements m) 8
                    + aget (elements m) 9 * aget (elements m) 9
                    + aget (elements m) 10 * aget (elements m) 10)%jv.
Proof.
  intros Ho. eexists. eexists. split; [|split].
  - apply runs_ok.
    unfold Vector3.setFromMatrixScale, Vector3.setFromMatrixColumn,
      Vector3.fromArray, Vector3.length, Vector3.lengthSq, offset_or_0.
    run.
  - solve_sees.
  - simpl. auto.
Qed.

(** The theorem on [setFromMatrixScale] at the observed vector and the
    half turn about the y axis: [x] and [y] are the elements 8 and 9,
    [z] is the length 1 of the third column. *)
Lemma setFromMatrixScale_result_witness :
  exists st' o',
    Vector3.setFromMatrixScale 2 half_turn_y
      (sample_state (JNum 5) (JNum 6) (JNum 7)) = Ok (RObj 2) st'
    /\ sees 2 o' st'
    /\ obj_x o' = JNum 0 /\ obj_y o' = JNum 0 /\ obj_z o' = JNum 1.
Proof.
  destruct (setFromMatrixScale_result 2 half_turn_y
              (set_onChange (Some 7) (fresh_obj IsVector3 (JNum 5) (JNum 6) (JNum 7) JUndef))
              (sample_state (JNum 5) (JNum 6) (JNum 7)))
    as (st' & o' & Hrun & Ho' & Hx & Hy & Hz).
  - reflexivity.
  - exists st', o'. split; [exact Hrun|]. split; [exact Ho'|].
    rewrite Hx, Hy, Hz. repeat split; vm_compute; reflexivity.
Defined.

(** A scaling matrix with the factors 2, 3, 4: [setFromMatrixScale]
    answers [(0, 0, 4)], and the observer is called four times. *)
Example setFromMatrixScale_of_scaling :
  exists st',
    Vector3.setFromMatrixScale 2
      {| elements := map JNum
           [2%float; 0%float; 0%float; 0%float;
            0%float; 3%float; 0%float; 0%float;
            0%float; 0%float; 4%float; 0%float;
            0%float; 0%float; 0%float; 1%float] |}
      (sample_state (JNum 5) (JNum 6) (JNum 7)) = Ok (RObj 2) st'
    /\ (obj_x <$> heap st' !! 2) = Some (JNum 0)
    /\ (obj_y <$> heap st' !! 2) = Some (JNum 0)
    /\ (obj_z <$> heap st' !! 2) = Some (JNum 4)
    /\ trace st' = [Notify 7 2; Notify 7 2; Notify 7 2; Notify 7 2].
Proof.
  eexists. split; [vm_compute; reflexivity|].
  repeat split; vm_compute; reflexivity.
Qed.

(* ================================================================== *)
(** * normalize *)
(* ================================================================== *)

Lemma runs_or_else (a : Expr) (w : jsval) st v :
  runs a st v st -> runs (or_else a (lit w)) st (jor v w) st.
Proof.
  unfold runs, or_else, bind, jor, lit, ret. intros ->.
  destruct (ToBoolean v); reflexivity.
Qed.

(** The divisor is never [0], [-0], [NaN] or [undefined]. *)
Lemma divisor_truthy (len : jsval) : ToBoolean (divisor len) = true.
Proof.
  unfold divisor, jor. destruct (ToBoolean len) eqn:E; [exact E|reflexivity].
Qed.

Lemma is_zero_cases (f : float) :
  is_zero f = true -> f = 0%float \/ f = (-0)%float.
Proof.
  unfold is_zero. rewrite FloatAxioms.eqb_spec. intros H.
  assert (Hz : exists s, Prim2SF f = S754_zero s).
  { change (Prim2SF zero) with (S754_zero false) in H.
    destruct (Prim2SF f) as [s|s| |s m e];
      [ eauto | destruct s; discriminate H | discriminate H
      | destruct s; discriminate H ]. }
  destruct Hz as [s Hs]. rewrite <- (SF2Prim_Prim2SF f), Hs.
  destruct s; [right|left]; reflexivity.
Qed.

Lemma is_zero_val_cases (v : jsval) :
  is_zero_val v = true -> v = JNum 0 \/ v = JNum (-0).
Proof.
  destruct v as [f|]; simpl; [|discriminate].
  intros H. destruct (is_zero_cases f H) as [-> | ->]; auto.
Qed.

Lemma normalize2_runs this o st :
  sees this o st ->
  exists st' o',
    Vector2.normalize this st = Ok (RObj this) st'
    /\ sees this o' st' /\ normalized 2 len2 o o'.
Proof.
  intros Ho. eexists. eexists. split; [|split].
  - apply runs_ok.
    unfold Vector2.normalize, Vector2.divideScalar, Vector2.multiplyScalar.
    eapply runs_bind.
    + apply runs_or_else. unfold Vector2.length, Vector2.lengthSq. run.
    + run.
  - solve_sees.
  - unfold normalized. simpl. repeat split; intros; try lia; reflexivity.
Qed.

Lemma normalize3_runs this o st :
  sees this o st ->
  exists st' o',
    Vector3.normalize this st = Ok (RObj this) st'
    /\ sees this o' st' /\ normalized 3 len3 o o'.
Proof.
  intros Ho. eexists. eexists. split; [|split].
  - apply runs_ok.
    unfold Vector3.normalize, Vector3.divideScalar, Vector3.multiplyScalar.
    eapply runs_bind.
    + apply runs_or_else. unfold Vector3.length, Vector3.lengthSq. run.
    + run.
  - solve_sees.
  - unfold normalized. simpl. repeat split; intros; try lia; reflexivity.
Qed.

Lemma normalize4_runs this o st :
  sees this o st ->
  exists st' o',
    Vector4.normalize this st = Ok (RObj this) st'
    /\ sees this o' st' /\ normalized 4 len4 o o'.
Proof.
  intros Ho. eexists. eexists. split; [|split].
  - apply runs_ok.
    unfold Vector4.normalize, Vector4.divideScalar, Vector4.multiplyScalar.
    eapply runs_bind.
    + apply runs_or_else. unfold Vector4.length, Vector4.lengthSq. run.
    + run.
  - solve_sees.
  - unfold normalized. simpl. repeat split; intros; try lia; reflexivity.
Qed.

(** A zero vector stays the zero vector it was, sign by sign. *)
Lemma normalized_zero dim (o o' : Obj) :
  In dim [2; 3; 4] ->
  normalized dim (len_of dim) o o' ->
  zero_vector dim o = true ->
  obj_x o' = obj_x o /\ obj_y o' = obj_y o
  /\ (2 < dim -> obj_z o' = obj_z o) /\ (3 < dim -> obj_w o' = obj_w o).
Proof.
  intros Hd (Hx & Hy & Hz & Hw) Hzero. unfold zero_vector in Hzero.
  apply andb_prop in Hzero as [Hzero H4]. apply andb_prop in Hzero as [Hzero H3].
  apply andb_prop in Hzero as [H1 H2].
  apply is_zero_val_cases in H1, H2.
  destruct Hd as [<- | [<- | [<- | []]]]; simpl in *.
  - rewrite Hx, Hy. unfold len2.
    destruct H1 as [-> | ->], H2 as [-> | ->]; repeat split; intros; try lia;
      vm_compute; reflexivity.
  - apply is_zero_val_cases in H3. rewrite Hx, Hy, Hz by lia. unfold len3.
    destruct H1 as [-> | ->], H2 as [-> | ->], H3 as [-> | ->];
      repeat split; intros; try lia; vm_compute; reflexivity.
  - apply is_zero_val_cases in H3, H4. rewrite Hx, Hy, Hz, Hw by lia. unfold len4.
    destruct H1 as [-> | ->], H2 as [-> | ->], H3 as [-> | ->], H4 as [-> | ->];
      repeat split; intros; try lia; vm_compute; reflexivity.
Qed.




(** What [normalize()] does in the normal range: [(3, 4, 0)] becomes
    [(0.6000000000000001, 0.8, 0)], whose computed length is 1. *)
Example normalize_3_4_0 :
  exists st',
    Vector3.normalize 2 (sample_state (JNum 3) (JNum 4) (JNum 0)) = Ok (RObj 2) st'
    /\ Vector3.length 2 st' = Ok (JNum 1) st'
    /\ trace st' = [Notify 7 2].
Proof.
  eexists. split; [vm_compute; reflexivity|]. split; vm_compute; reflexivity.
Qed.

(** On each of the 728 small non-zero vectors the length after
    [normalize()] is within [2^-52] of 1. *)
Example normalize_unit_on_small_vectors :
  forallb (fun '(x, y, z) => unit_after_normalize 0x1p-52 x y z) small_vectors
  = true.
Proof. vm_compute. reflexivity. Qed.

(* ================================================================== *)
(** * fromArray and toArray *)
(* ================================================================== *)

Lemma aget_aset_eq (a : list jsval) (i : nat) (v : jsval) :
  aget (aset a i v) i = v.
Proof.
  unfold aget. revert a. induction i as [|i IH]; intros [|h t]; simpl; auto.
Qed.

Lemma aget_aset_ne (a : list jsval) (i j : nat) (v : jsval) :
  i <> j -> aget (aset a i v) j = aget a j.
Proof.
  unfold aget. revert a j.
  induction i as [|i IH]; intros [|h t] [|j] Hne; simpl; try congruence.
  - destruct j; reflexivity.
  - rewrite (IH [] j) by congruence. destruct j; reflexivity.
  - apply (IH t j). congruence.
Qed.

Lemma runs_alloc (o : Obj) st : runs (alloc o) st (next_loc st) (allocated_in o st).
Proof. reflexivity. Qed.

Lemma runs_gen_id P kind st :
  runs (gen_id P kind) st (generateId P kind (ids_issued st)) (id_issued st).
Proof. reflexivity. Qed.

Ltac run_new :=
  repeat first
    [ run_step
    | lazymatch goal with
      | |- runs (alloc _) _ _ _ => apply runs_alloc
      | |- runs (gen_id _ _) _ _ _ => apply runs_gen_id
      | |- runs (if is_undefined JUndef then _ else _) _ _ _ => cbn [is_undefined]
      end ].

Lemma round_trip2_runs P v offset o st :
  sees v o st ->
  exists v2 st' o2,
    round_trip2 P v offset st = Ok v2 st'
    /\ sees v2 o2 st'
    /\ obj_x o2 = obj_x o /\ obj_y o2 = obj_y o.
Proof.
  intros Ho. eexists. eexists. eexists. split; [|split].
  - apply runs_ok.
    unfold round_trip2, Vector2.toArray, Vector2.constructor, Vector2.fromArray.
    unfold_glue. run_new.
  - solve_sees.
  - simpl.
    rewrite aget_aset_eq, aget_aset_ne, aget_aset_eq by lia. auto.
Qed.

Lemma round_trip3_runs P v offset o st :
  sees v o st ->
  exists v2 st' o2,
    round_trip3 P v offset st = Ok v2 st'
    /\ sees v2 o2 st'
    /\ obj_x o2 = obj_x o /\ obj_y o2 = obj_y o /\ obj_z o2 = obj_z o.
Proof.
  intros Ho. eexists. eexists. eexists. split; [|split].
  - apply runs_ok.
    unfold round_trip3, Vector3.toArray, Vector3.constructor, Vector3.fromArray.
    unfold_glue. run_new.
  - solve_sees.
  - simpl.
    rewrite aget_aset_eq, !aget_aset_ne, !aget_aset_eq by lia.
    rewrite aget_aset_ne, aget_aset_eq by lia. auto.
Qed.

Lemma round_trip4_runs P v offset o st :
  sees v o st ->
  exists v2 st' o2,
    round_trip4 P v offset st = Ok v2 st'
    /\ sees v2 o2 st'
    /\ obj_x o2 = obj_x o /\ obj_y o2 = obj_y o /\ obj_z o2 = obj_z o
    /\ obj_w o2 = obj_w o.
Proof.
  intros Ho. eexists. eexists. eexists. split; [|split].
  - apply runs_ok.
    unfold round_trip4, Vector4.toArray, Vector4.constructor, Vector4.fromArray.
    unfold_glue. run_new.
  - solve_sees.
  - simpl.
    repeat split;
      repeat first [ rewrite aget_aset_eq | rewrite aget_aset_ne by lia ];
      reflexivity.
Qed.



(** What [toArray([], 2)] writes: two holes, then the components. *)
Example toArray_offset_2 :
  Vector3.toArray 2 (Some []) (Some 2) (sample_state (JNum 7) (JNum 8) (JNum 9))
  = Ok [JUndef; JUndef; JNum 7; JNum 8; JNum 9]
       (sample_state (JNum 7) (JNum 8) (JNum 9)).
Proof. vm_compute. reflexivity. Qed.

(* ================================================================== *)
(** * The order of binary64 numbers *)
(* ================================================================== *)

Lemma SFcompare_key (x y : spec_float) :
  SFcompare x y =
  match key x, key y with
  | Some a, Some b => Some (lex a b)
  | _, _ => None
  end.
Proof.
  destruct x as [sx|sx| |sx mx ex], y as [sy|sy| |sy my ey];
    try destruct sx; try destruct sy; try reflexivity.
  (* both negative: the larger exponent, then mantissa, is the smaller number *)
  simpl. f_equal.
  rewrite Z.compare_opp, (Z.compare_antisym ex ey).
  destruct (ex ?= ey)%Z; reflexivity.
Qed.

Lemma lex_Lt_iff (a1 a2 a3 b1 b2 b3 : BinNums.Z) :
  lex (a1, a2, a3) (b1, b2, b3) = Lt <->
  (a1 < b1 \/ (a1 = b1 /\ (a2 < b2 \/ (a2 = b2 /\ a3 < b3))))%Z.
Proof.
  simpl. destruct (Z.compare_spec a1 b1) as [E1|L1|G1].
  - destruct (Z.compare_spec a2 b2) as [E2|L2|G2].
    + rewrite Z.compare_lt_iff. lia.
    + split; [lia | reflexivity].
    + split; [discriminate | lia].
  - split; [lia | reflexivity].
  - split; [discriminate | lia].
Qed.

Lemma lex_Lt_trans (a b c : BinNums.Z * BinNums.Z * BinNums.Z) :
  lex a b = Lt -> lex b c = Lt -> lex a c = Lt.
Proof.
  destruct a as [[a1 a2] a3], b as [[b1 b2] b3], c as [[c1 c2] c3].
  rewrite !lex_Lt_iff. lia.
Qed.

Lemma lex_antisym (a b : BinNums.Z * BinNums.Z * BinNums.Z) :
  lex b a = CompOpp (lex a b).
Proof.
  destruct a as [[a1 a2] a3], b as [[b1 b2] b3]. simpl.
  rewrite (Z.compare_antisym a1 b1), (Z.compare_antisym a2 b2),
    (Z.compare_antisym a3 b3).
  destruct (a1 ?= b1)%Z, (a2 ?= b2)%Z; reflexivity.
Qed.

Lemma is_nan_key (f : float) : is_nan f = false <-> key (Prim2SF f) <> None.
Proof.
  unfold is_nan. rewrite FloatAxioms.eqb_spec. unfold SFeqb.
  rewrite SFcompare_key. destruct (key (Prim2SF f)) as [k|] eqn:E.
  - split; [discriminate|intros _].
    destruct k as [[k1 k2] k3]. simpl. rewrite !Z.compare_refl. reflexivity.
  - split; [discriminate|congruence].
Qed.

Lemma ltb_key (x y : float) :
  (x <? y)%float = true <->
  exists a b, key (Prim2SF x) = Some a /\ key (Prim2SF y) = Some b /\ lex a b = Lt.
Proof.
  rewrite FloatAxioms.ltb_spec. unfold SFltb. rewrite SFcompare_key.
  destruct (key (Prim2SF x)) as [a|], (key (Prim2SF y)) as [b|];
    try (split; [discriminate | intros (? & ? & ? & ? & ?); discriminate]).
  split.
  - intros H. exists a, b. repeat split. destruct (lex a b); congruence.
  - intros (a' & b' & Ea & Eb & H). injection Ea as <-. injection Eb as <-.
    rewrite H. reflexivity.
Qed.

Lemma leb_key (x y : float) :
  (x <=? y)%float = true <->
  exists a b, key (Prim2SF x) = Some a /\ key (Prim2SF y) = Some b /\ lex a b <> Gt.
Proof.
  rewrite FloatAxioms.leb_spec. unfold SFleb. rewrite SFcompare_key.
  destruct (key (Prim2SF x)) as [a|], (key (Prim2SF y)) as [b|];
    try (split; [discriminate | intros (? & ? & ? & ? & ?); discriminate]).
  split.
  - intros H. exists a, b. repeat split. destruct (lex a b); congruence.
  - intros (a' & b' & Ea & Eb & H). injection Ea as <-. injection Eb as <-.
    destruct (lex a b); congruence.
Qed.

(** [<] is transitive. *)
Lemma ltb_trans (x y z : float) :
  (x <? y)%float = true -> (y <? z)%float = true -> (x <? z)%float = true.
Proof.
  rewrite !ltb_key. intros (a & b & Ea & Eb & H1) (b' & c & Eb' & Ec & H2).
  rewrite Eb in Eb'. injection Eb' as <-.
  exists a, c. repeat split; auto. eapply lex_Lt_trans; eauto.
Qed.

(** [x <= y] excludes [y < x]. *)
Lemma leb_not_ltb (x y : float) :
  (x <=? y)%float = true -> (y <? x)%float = false.
Proof.
  rewrite leb_key. intros (a & b & Ea & Eb & H).
  destruct (y <? x)%float eqn:E; [|reflexivity].
  apply ltb_key in E. destruct E as (b' & a' & Eb' & Ea' & H').
  rewrite Ea in Ea'. rewrite Eb in Eb'. injection Ea' as <-. injection Eb' as <-.
  rewrite (lex_antisym b a), H' in H. simpl in H. congruence.
Qed.

(** Two numbers are comparable: when [y < x] fails, [x <= y]. *)
Lemma not_ltb_leb (x y : float) :
  is_nan x = false -> is_nan y = false ->
  (y <? x)%float = false -> (x <=? y)%float = true.
Proof.
  intros Hx Hy H. apply is_nan_key in Hx, Hy.
  destruct (key (Prim2SF x)) as [a|] eqn:Ea; [|congruence].
  destruct (key (Prim2SF y)) as [b|] eqn:Eb; [|congruence].
  apply leb_key. exists a, b. repeat split; auto.
  intros Hgt. assert (Hlt : lex b a = Lt) by (rewrite lex_antisym, Hgt; reflexivity).
  assert (E : (y <? x)%float = true) by (apply ltb_key; eauto).
  congruence.
Qed.

Lemma ltb_leb (x y : float) : (x <? y)%float = true -> (x <=? y)%float = true.
Proof.
  rewrite ltb_key, leb_key. intros (a & b & Ea & Eb & H).
  exists a, b. repeat split; auto. congruence.
Qed.

Lemma ltb_not_nan (x y : float) :
  (x <? y)%float = true -> is_nan x = false /\ is_nan y = false.
Proof.
  rewrite ltb_key, !is_nan_key. intros (a & b & Ea & Eb & _).
  split; congruence.
Qed.

(* ================================================================== *)
(** * Axis and angle of a quaternion *)
(* ================================================================== *)

Lemma jle_not_jlt (a b : jsval) : jle a b = true -> jlt b a = false.
Proof. apply leb_not_ltb. Qed.

(** C4.  [setAxisAngleFromQuaternion(q)] sets [w] to [2 * acos(q.w)]
    and, with [s = sqrt(1 - q.w * q.w)], the axis to [(1, 0, 0)] when
    [s < 0.0001] and to [(q.x / s, q.y / s, q.z / s)] when
    [s >= 0.0001].  On the identity quaternion [(0, 0, 0, 1)] the axis is
    [(1, 0, 0)] and, [Math.acos(1)] being [+0], the angle is [0]. *)
Theorem setAxisAngleFromQuaternion_result (P : Platform) (this q : loc)
    (o oq : Obj) (st : State) :
  q <> this -> sees this o st -> sees q oq st ->
  let s := Math_sqrt (JNum 1 - obj_w oq * obj_w oq)%jv in
  exists st' o',
    Vector4.setAxisAngleFromQuaternion P this q st = Ok (RObj this) st'
    /\ sees this o' st'
    /\ obj_w o' = (JNum 2 * Math_acos P (obj_w oq))%jv
    /\ (jlt s (JNum 0.0001) = true ->
        obj_x o' = JNum 1 /\ obj_y o' = JNum 0 /\ obj_z o' = JNum 0)
    /\ (jle (JNum 0.0001) s = true ->
        obj_x o' = (obj_x oq / s)%jv /\ obj_y o' = (obj_y oq / s)%jv
        /\ obj_z o' = (obj_z oq / s)%jv)
    /\ (host_acos P 1 = 0%float ->
        obj_x oq = JNum 0 -> obj_y oq = JNum 0 -> obj_z oq = JNum 0 ->
        obj_w oq = JNum 1 ->
        obj_x o' = JNum 1 /\ obj_y o' = JNum 0 /\ obj_z o' = JNum 0
        /\ obj_w o' = JNum 0).
Proof.
  intros Hne Ho Hq s.
  destruct (jlt s (JNum 0.0001)) eqn:E.
  - (* the degenerate axis *)
    eexists. eexists. split; [|split].
    + apply runs_ok. unfold Vector4.setAxisAngleFromQuaternion. run.
      cbn [get_field]. fold s. rewrite E. run.
    + solve_sees.
    + simpl. split; [reflexivity|]. split; [auto|]. split.
      * intros Hle. apply jle_not_jlt in Hle. congruence.
      * intros Hacos _ _ _ Hw. repeat split; auto.
        rewrite Hw. unfold Math_acos, jmul. simpl. rewrite Hacos. reflexivity.
  - (* the axis of the quaternion *)
    eexists. eexists. split; [|split].
    + apply runs_ok. unfold Vector4.setAxisAngleFromQuaternion. run.
      cbn [get_field]. fold s. rewrite E. run.
    + solve_sees.
    + simpl. split; [reflexivity|]. split; [discriminate|]. split.
      * intros _. fold s. auto.
      * intros _ _ _ _ Hw. exfalso. subst s. rewrite Hw in E.
        vm_compute in E. discriminate E.
Qed.

(** The theorem at the identity quaternion, on the host whose
    [Math.acos(1)] is [+0]. *)
Lemma setAxisAngleFromQuaternion_result_witness :
  exists st' o',
    Vector4.setAxisAngleFromQuaternion plain_host 2 _quaternion
      (sample_state (JNum 5) (JNum 6) (JNum 7)) = Ok (RObj 2) st'
    /\ sees 2 o' st'
    /\ obj_x o' = JNum 1 /\ obj_y o' = JNum 0 /\ obj_z o' = JNum 0
    /\ obj_w o' = JNum 0.
Proof.
  destruct (setAxisAngleFromQuaternion_result plain_host 2 _quaternion
              (set_onChange (Some 7) (fresh_obj IsVector3 (JNum 5) (JNum 6) (JNum 7) JUndef))
              (fresh_obj IsOther (JNum 0) (JNum 0) (JNum 0) (JNum 1))
              (sample_state (JNum 5) (JNum 6) (JNum 7)))
    as (st' & o' & Hrun & Ho' & _ & _ & _ & Hid).
  - unfold _quaternion. lia.
  - reflexivity.
  - reflexivity.
  - exists st', o'. split; [exact Hrun|]. split; [exact Ho'|].
    apply Hid; reflexivity.
Defined.

(* ================================================================== *)
(** * Axis and angle of a rotation matrix *)
(* ================================================================== *)

Lemma leb_ltb_trans (x y z : float) :
  (x <=? y)%float = true -> (y <? z)%float = true -> (x <? z)%float = true.
Proof.
  rewrite leb_key, !ltb_key.
  intros (a & b & Ea & Eb & H1) (b' & c & Eb' & Ec & H2).
  rewrite Eb in Eb'. injection Eb' as <-.
  exists a, c. repeat split; auto.
  assert (Hba : lex b a <> Lt).
  { rewrite lex_antisym. destruct (lex a b); simpl; congruence. }
  destruct a as [[a1 a2] a3], b as [[b1 b2] b3], c as [[c1 c2] c3].
  rewrite lex_Lt_iff in *. lia.
Qed.

(** The axis that the source computes for a half turn is the one of the
    dominant diagonal term. *)
Lemma axis_of_half_turn_dominant (m : Matrix) :
  diagonal_numbers m -> from_dominant_term m (Vector4.axis_of_half_turn m).
Proof.
  unfold diagonal_numbers, from_dominant_term, Vector4.axis_of_half_turn,
    diagonal_terms, quarter_sums.
  set (te := aget (elements m)).
  set (xx := ((te 0 + JNum 1) / JNum 2)%jv).
  set (yy := ((te 5 + JNum 1) / JNum 2)%jv).
  set (zz := ((te 10 + JNum 1) / JNum 2)%jv).
  intros (Nx & Ny & Nz). unfold jgt, jle.
  destruct (ToNumber yy <? ToNumber xx)%float eqn:Eyx;
    destruct (ToNumber zz <? ToNumber xx)%float eqn:Ezx; cbn [andb].
  - left. auto using ltb_leb.
  - destruct (ToNumber zz <? ToNumber yy)%float eqn:Ezy.
    + exfalso. rewrite (ltb_trans _ _ _ Ezy Eyx) in Ezx. discriminate Ezx.
    + right. right. repeat split; auto using not_ltb_leb.
  - destruct (ToNumber zz <? ToNumber yy)%float eqn:Ezy.
    + right. left. repeat split; auto using not_ltb_leb, ltb_leb.
    + exfalso.
      assert (Hyz : (ToNumber yy <=? ToNumber zz)%float = true)
        by auto using not_ltb_leb.
      rewrite (leb_ltb_trans _ _ _ Hyz Ezx) in Eyx. discriminate Eyx.
  - destruct (ToNumber zz <? ToNumber yy)%float eqn:Ezy.
    + right. left. repeat split; auto using not_ltb_leb, ltb_leb.
    + right. right. repeat split; auto using not_ltb_leb.
Qed.



(** On the identity matrix: axis [(1, 0, 0)], angle 0, and two calls of
    the observer. *)
Example axis_angle_of_identity :
  exists st',
    Vector4.setAxisAngleFromRotationMatrix plain_host 2 identity_matrix
      (sample_state (JNum 5) (JNum 6) (JNum 7)) = Ok (RObj 2) st'
    /\ (obj_x <$> heap st' !! 2) = Some (JNum 1)
    /\ (obj_w <$> heap st' !! 2) = Some (JNum 0)
    /\ trace st' = [Notify 7 2; Notify 7 2].
Proof.
  eexists. split; [vm_compute; reflexivity|].
  split; [|split]; vm_compute; reflexivity.
Qed.

(* ================================================================== *)
(** * The quantisers of MathUtils *)
(* ================================================================== *)

(** C5, as amended.  [normalize] and [denormalize] pass a value through
    for the float encoding, fail with the error ["Invalid type"] for an
    encoding that is none of the seven, and otherwise multiply and round,
    respectively divide (and, for the signed encodings, clamp at -1),
    with the factors 127, 32767, 2147483647 for the signed widths and
    255, 65535, 4294967295 for the unsigned ones. *)
Theorem quantisers_scale_factors (value : jsval) (a : MathUtils.ArrayCtor) :
  MathUtils.normalize value a = normalize_with scale value a
  /\ MathUtils.denormalize value a = denormalize_with scale value a
  /\ scale MathUtils.Int8Array = JNum 127
  /\ scale MathUtils.Int16Array = JNum 32767
  /\ scale MathUtils.Int32Array = JNum 2147483647
  /\ scale MathUtils.Uint8Array = JNum 255
  /\ scale MathUtils.Uint16Array = JNum 65535
  /\ scale MathUtils.Uint32Array = JNum 4294967295.
Proof.
  repeat split; destruct a; reflexivity.
Qed.

(** C5, as stated, fails at the signed 8-bit encoding: the factor of the
    source is 127, not 255.  [normalize(1, Int8Array)] is 127 and
    [denormalize(127, Int8Array)] is 1. *)
Lemma int8_scale_is_127 :
  MathUtils.normalize (JNum 1) MathUtils.Int8Array = inr (JNum 127)
  /\ normalize_with documented_scale (JNum 1) MathUtils.Int8Array = inr (JNum 255)
  /\ MathUtils.normalize (JNum 1) MathUtils.Int8Array
     <> normalize_with documented_scale (JNum 1) MathUtils.Int8Array
  /\ MathUtils.denormalize (JNum 127) MathUtils.Int8Array = inr (JNum 1)
  /\ MathUtils.denormalize (JNum 127) MathUtils.Int8Array
     <> denormalize_with documented_scale (JNum 127) MathUtils.Int8Array.
Proof.
  split; [vm_compute; reflexivity|]. split; [vm_compute; reflexivity|].
  split; [|split; [vm_compute; reflexivity|]].
  - intros E.
    apply (f_equal (fun r => match r with
                             | inr (JNum f) => (f =? 127)%float
                             | _ => false
                             end)) in E.
    vm_compute in E. discriminate E.
  - intros E.
    apply (f_equal (fun r => match r with
                             | inr (JNum f) => (f =? 1)%float
                             | _ => false
                             end)) in E.
    vm_compute in E. discriminate E.
Qed.

Lemma fmax_floor (q : float) :
  (fmax q (-1) <? -1)%float = false
  /\ ((q <? -1)%float = true -> fmax q (-1) = (-1)%float)
  /\ ((-1 <? q)%float = true -> fmax q (-1) = q).
Proof.
  unfold fmax.
  destruct (is_nan q) eqn:En; simpl.
  { split; [reflexivity|].
    split; intros H; apply ltb_not_nan in H; destruct H; congruence. }
  destruct (q <? -1)%float eqn:E1.
  { split; [reflexivity|]. split; [reflexivity|].
    intros H. apply ltb_leb, leb_not_ltb in H. congruence. }
  destruct (-1 <? q)%float eqn:E2.
  { split; [exact E1|]. split; [discriminate|reflexivity]. }
  destruct (get_sign q).
  - split; [reflexivity|]. split; discriminate.
  - split; [exact E1|]. split; discriminate.
Qed.

(** C6.  For every input value, [denormalize] with a signed integer
    encoding answers [Math.max(value / scale, -1)]: never a value below
    -1, -1 itself when the quotient is below -1, the quotient when it is
    above; with an unsigned integer encoding it answers the quotient
    [value / scale] as it is, without a clamp. *)
Theorem denormalize_clamps_signed_only (value : jsval) (a : MathUtils.ArrayCtor) :
  (is_signed a = true ->
   exists r,
     MathUtils.denormalize value a = inr r
     /\ r = Math_max (value / scale a)%jv (JNum (-1))
     /\ jlt r (JNum (-1)) = false
     /\ (jlt (value / scale a)%jv (JNum (-1)) = true -> r = JNum (-1))
     /\ (jlt (JNum (-1)) (value / scale a)%jv = true -> r = (value / scale a)%jv))
  /\ (is_unsigned a = true ->
      MathUtils.denormalize value a = inr (value / scale a)%jv).
Proof.
  split.
  - intros Hs. exists (Math_max (value / scale a)%jv (JNum (-1))).
    split; [destruct a; try discriminate Hs; reflexivity|].
    split; [reflexivity|].
    destruct (fmax_floor (ToNumber (value / scale a)%jv)) as (H1 & H2 & H3).
    split; [exact H1|]. split.
    + intros H. unfold Math_max. cbn [ToNumber]. rewrite H2 by exact H. reflexivity.
    + intros H. unfold Math_max. cbn [ToNumber]. rewrite H3 by exact H. reflexivity.
  - intros Hu. destruct a; try discriminate Hu; reflexivity.
Qed.

(** The theorem at [denormalize(-128, Int8Array)], whose quotient is
    below -1, and at [denormalize(-510, Uint8Array)], which is -2. *)
Lemma denormalize_clamps_signed_only_witness :
  MathUtils.denormalize (JNum (-128)) MathUtils.Int8Array = inr (JNum (-1))
  /\ MathUtils.denormalize (JNum (-510)) MathUtils.Uint8Array = inr (JNum (-2)).
Proof.
  split.
  - destruct (proj1 (denormalize_clamps_signed_only (JNum (-128)) MathUtils.Int8Array)
                eq_refl) as (r & Hr & _ & _ & Hlow & _).
    rewrite Hr. f_equal. apply Hlow. vm_compute. reflexivity.
  - rewrite (proj2 (denormalize_clamps_signed_only (JNum (-510)) MathUtils.Uint8Array)
               eq_refl).
    vm_compute. reflexivity.
Defined.

(* ================================================================== *)
(** * What a mutator leaves alone *)
(* ================================================================== *)

Lemma same_identity_refl o : same_identity o o.
Proof. unfold same_identity. auto. Qed.

Lemma same_identity_trans o1 o2 o3 :
  same_identity o1 o2 -> same_identity o2 o3 -> same_identity o1 o3.
Proof.
  unfold same_identity. intros (a1 & b1 & c1 & d1 & e1) (a2 & b2 & c2 & d2 & e2).
  repeat split; try congruence. auto.
Qed.

Lemma confined_refl S st : confined S st st.
Proof.
  split; [reflexivity|]. split; [reflexivity|].
  intros l. destruct (heap st !! l); auto using same_identity_refl.
Qed.

Lemma confined_trans S st1 st2 st3 :
  confined S st1 st2 -> confined S st2 st3 -> confined S st1 st3.
Proof.
  intros (n1 & i1 & H1) (n2 & i2 & H2).
  split; [congruence|]. split; [congruence|].
  intros l. specialize (H1 l). specialize (H2 l).
  destruct (heap st1 !! l) as [o1|], (heap st2 !! l) as [o2|],
    (heap st3 !! l) as [o3|]; try tauto.
  destruct H1 as [s1 f1], H2 as [s2 f2]. split.
  - eapply same_identity_trans; eauto.
  - intros Hl. rewrite f2, f1; auto.
Qed.

(** Replacing an object of [S] by one of the same identity. *)
Lemma confined_put S st l o o' :
  In l S -> heap st !! l = Some o -> same_identity o o' ->
  confined S st (with_heap (<[l := o']> (heap st)) st).
Proof.
  intros Hl Ho Hs. split; [reflexivity|]. split; [reflexivity|].
  intros l'. simpl. destruct (decide (l = l')) as [<-|Hne].
  - rewrite lookup_insert_eq, Ho. split; [exact Hs|tauto].
  - rewrite lookup_insert_ne by exact Hne.
    destruct (heap st !! l'); auto using same_identity_refl.
Qed.

Lemma writes_only_ret {A} S (Q : A -> Prop) (a : A) :
  Q a -> writes_only S Q (ret a).
Proof. intros HQ st. simpl. auto using confined_refl. Qed.

Lemma writes_only_ret_eq {A} S (a : A) : writes_only S (eq a) (ret a).
Proof. apply writes_only_ret. reflexivity. Qed.

Lemma writes_only_ret_any {A} S (a : A) : writes_only S any (ret a).
Proof. apply writes_only_ret. exact I. Qed.

Lemma writes_only_throw {A} S (Q : A -> Prop) (e : Error) :
  writes_only S Q (throw e).
Proof. intros st. simpl. apply confined_refl. Qed.

Lemma writes_only_bind {A B} S (Q1 : A -> Prop) (Q2 : B -> Prop)
    (c : M A) (k : A -> M B) :
  writes_only S Q1 c ->
  (forall a, Q1 a -> writes_only S Q2 (k a)) ->
  writes_only S Q2 (bind c k).
Proof.
  intros Hc Hk st. unfold bind. specialize (Hc st).
  destruct (c st) as [a st1|e st1]; [|exact Hc].
  destruct Hc as [H1 HQ]. specialize (Hk a HQ st1).
  destruct (k a st1) as [b st2|e st2].
  - destruct Hk as [H2 HQ2]. split; [|exact HQ2]. eapply confined_trans; eauto.
  - eapply confined_trans; eauto.
Qed.

Lemma writes_only_if {A} S (Q : A -> Prop) (b : bool) (c1 c2 : M A) :
  writes_only S Q c1 -> writes_only S Q c2 ->
  writes_only S Q (if b then c1 else c2).
Proof. destruct b; auto. Qed.

Lemma writes_only_rd S l f : writes_only S any (rd l f).
Proof.
  intros st. unfold rd. destruct (heap st !! l).
  - split; [apply confined_refl | exact I].
  - apply confined_refl.
Qed.

Lemma writes_only_wr S l f v : In l S -> writes_only S any (wr l f v).
Proof.
  intros Hl st. unfold wr. destruct (heap st !! l) as [o|] eqn:Ho.
  - split; [|exact I]. apply (confined_put S st l o); auto.
    unfold same_identity. destruct f; simpl; auto.
  - apply confined_refl.
Qed.

Lemma writes_only_markDirty S l : In l S -> writes_only S any (markDirty l).
Proof.
  intros Hl st. unfold markDirty. destruct (heap st !! l) as [o|] eqn:Ho.
  - assert (H : confined S st (with_heap (<[l := set_dirty o]> (heap st)) st)).
    { apply (confined_put S st l o); auto. unfold same_identity. simpl. auto. }
    destruct (onChange o); (split; [exact H | exact I]).
  - apply confined_refl.
Qed.

Lemma writes_only_random S P : writes_only S any (Math_random P).
Proof.
  intros st. unfold Math_random. split; [|exact I].
  split; [reflexivity|]. split; [reflexivity|].
  intros l. simpl. destruct (heap st !! l); auto using same_identity_refl.
Qed.

Lemma writes_only_any {A} S (Q : A -> Prop) (c : M A) :
  writes_only S Q c -> writes_only S any c.
Proof.
  intros H st. specialize (H st). destruct (c st); [|exact H].
  split; [tauto | exact I].
Qed.

(** One step of a derivation of [writes_only]. *)
Ltac frame_step :=
  lazymatch goal with
  | |- writes_only _ _ (bind _ _) =>
      eapply writes_only_bind; [ | intros ? ? ]
  | |- writes_only _ _ (on ?r _) =>
      first [ is_var r; subst r; cbn [on] | progress cbn [on] ]
  | |- writes_only _ _ (throw _) => apply writes_only_throw
  | |- writes_only _ _ (@ret jsret _) => eapply writes_only_ret_eq
  | |- writes_only _ _ (ret _) => eapply writes_only_ret_any
  | |- writes_only _ _ (rd _ _) => eapply writes_only_rd
  | |- writes_only _ _ (wr _ _ _) => eapply writes_only_wr; simpl; tauto
  | |- writes_only _ _ (markDirty _) => eapply writes_only_markDirty; simpl; tauto
  | |- writes_only _ _ (Math_random _) => eapply writes_only_random
  | |- writes_only _ _ (if _ then _ else _) => eapply writes_only_if
  | |- writes_only _ _ (match ?x with _ => _ end) => destruct x
  | |- writes_only _ _ (let _ := _ in _) => cbv zeta
  end.

Ltac derive_writes_only :=
  eapply writes_only_any; unfold_glue; repeat frame_step.

Create HintDb vec3.

#[local] Hint Unfold Vector3.set Vector3.setScalar Vector3.setX Vector3.setY
  Vector3.setZ Vector3.setComponent Vector3.copy Vector3.add
  Vector3.addScalar Vector3.addVectors Vector3.addScaledVector Vector3.sub
  Vector3.subScalar Vector3.subVectors Vector3.multiply
  Vector3.multiplyScalar Vector3.multiplyVectors Vector3.divide
  Vector3.divideScalar Vector3.applyQuaternion Vector3.applyEuler
  Vector3.applyAxisAngle Vector3.applyMatrix3 Vector3.lengthSq
  Vector3.length Vector3.normalize Vector3.applyNormalMatrix
  Vector3.applyMatrix4 Vector3.transformDirection Vector3.project
  Vector3.unproject Vector3.setLength Vector3.lerp Vector3.lerpVectors
  Vector3.clamp Vector3.clampScalar Vector3.clampLength Vector3.floor
  Vector3.ceil Vector3.round Vector3.roundToZero Vector3.negate Vector3.dot
  Vector3.crossVectors Vector3.cross Vector3.projectOnVector
  Vector3.projectOnPlane Vector3.reflect Vector3.setFromSphericalCoords
  Vector3.setFromSpherical Vector3.setFromCylindricalCoords
  Vector3.setFromCylindrical Vector3.setFromMatrixPosition Vector3.fromArray
  Vector3.setFromMatrixColumn Vector3.setFromMatrix3Column
  Vector3.setFromMatrixScale Vector3.setFromEuler Vector3.setFromColor
  Vector3.fromBufferAttribute Vector3.random Vector3.randomDirection : vec3.

Create HintDb vec4.

#[local] Hint Unfold Vector4.set Vector4.setScalar Vector4.setX Vector4.setY
  Vector4.setZ Vector4.setW Vector4.setComponent Vector4.copy Vector4.add
  Vector4.addScalar Vector4.addVectors Vector4.addScaledVector Vector4.sub
  Vector4.subScalar Vector4.subVectors Vector4.multiply
  Vector4.multiplyScalar Vector4.divide Vector4.divideScalar
  Vector4.applyMatrix4 Vector4.setAxisAngleFromQuaternion
 
  Vector4.setAxisAngleFromRotationMatrix
  Vector4.lengthSq Vector4.length Vector4.normalize Vector4.setLength
  Vector4.lerp Vector4.lerpVectors Vector4.clamp Vector4.clampScalar
  Vector4.clampLength Vector4.floor Vector4.ceil Vector4.round
  Vector4.roundToZero Vector4.negate Vector4.fromArray
  Vector4.fromBufferAttribute Vector4.random : vec4.

Create HintDb vec2.

#[local] Hint Unfold Vector2.set Vector2.setScalar Vector2.setX Vector2.setY
  Vector2.setComponent Vector2.copy Vector2.add Vector2.addScalar
  Vector2.addVectors Vector2.addScaledVector Vector2.sub Vector2.subScalar
  Vector2.subVectors Vector2.multiply Vector2.multiplyScalar Vector2.divide
  Vector2.divideScalar Vector2.applyMatrix3 Vector2.rotateAround
  Vector2.lengthSq Vector2.length Vector2.normalize Vector2.setLength
  Vector2.clamp Vector2.clampScalar Vector2.clampLength Vector2.floor
  Vector2.ceil Vector2.round Vector2.roundToZero Vector2.negate
  Vector2.fromArray Vector2.fromBufferAttribute Vector2.random : vec2.

Lemma call3_writes_only P (op : Ops3.mutator) this :
  writes_only [this; _vector; _quaternion] any (Ops3.call P op this).
Proof.
  destruct op; cbn [Ops3.call]; repeat autounfold with vec3;
    derive_writes_only.
Qed.

Lemma call4_writes_only P (op : Ops4.mutator) this :
  writes_only [this] any (Ops4.call P op this).
Proof.
  destruct op; cbn [Ops4.call]; repeat autounfold with vec4;
    derive_writes_only.
Qed.

Lemma call2_writes_only P (op : Ops2.mutator) this :
  writes_only [this] any (Ops2.call P op this).
Proof.
  destruct op; cbn [Ops2.call]; repeat autounfold with vec2;
    derive_writes_only.
Qed.

Lemma writes_only_confined {A} S (Q : A -> Prop) (c : M A) st :
  writes_only S Q c ->
  match c st with
  | Ok _ st' | Throw _ st' => confined S st st'
  end.
Proof. intros H. specialize (H st). destruct (c st); tauto. Qed.

Lemma confined_outside S st st' l :
  confined S st st' -> ~ In l S ->
  heap st' !! l = heap st !! l /\ next_loc st' = next_loc st.
Proof.
  intros (Hn & _ & H) Hl. split; [|exact Hn]. specialize (H l).
  destruct (heap st !! l), (heap st' !! l); try tauto.
  destruct H as [_ H]. rewrite H; auto.
Qed.

Lemma confined_identity S st st' l o :
  confined S st st' -> heap st !! l = Some o ->
  exists o', heap st' !! l = Some o' /\ same_identity o o'.
Proof.
  intros (_ & _ & H) Ho. specialize (H l). rewrite Ho in H.
  destruct (heap st' !! l) as [o'|]; [|tauto].
  exists o'. tauto.
Qed.

(** X1.  A mutator of Vector3 writes to [this] and to the two scratch
    objects of the module only, a mutator of Vector4 or Vector2 to
    [this] only: whether the call returns or throws, every other object
    of the store - the vector arguments of the call among them - is
    exactly as it was, and no object has been made. *)
Theorem mutators_write_this_only (P : Platform) (this l : loc) (st : State) :
  l <> this ->
  (forall op : Ops3.mutator,
     l <> _vector -> l <> _quaternion ->
     match Ops3.call P op this st with
     | Ok _ st' | Throw _ st' =>
         heap st' !! l = heap st !! l /\ next_loc st' = next_loc st
     end)
  /\ (forall op : Ops4.mutator,
        match Ops4.call P op this st with
        | Ok _ st' | Throw _ st' =>
            heap st' !! l = heap st !! l /\ next_loc st' = next_loc st
        end)
  /\ (forall op : Ops2.mutator,
        match Ops2.call P op this st with
        | Ok _ st' | Throw _ st' =>
            heap st' !! l = heap st !! l /\ next_loc st' = next_loc st
        end).
Proof.
  intros Hthis. split; [|split].
  - intros op Hv Hq.
    pose proof (writes_only_confined _ _ _ st (call3_writes_only P op this)) as H.
    destruct (Ops3.call P op this st);
      (eapply confined_outside; [exact H | simpl; intuition congruence]).
  - intros op.
    pose proof (writes_only_confined _ _ _ st (call4_writes_only P op this)) as H.
    destruct (Ops4.call P op this st);
      (eapply confined_outside; [exact H | simpl; intuition congruence]).
  - intros op.
    pose proof (writes_only_confined _ _ _ st (call2_writes_only P op this)) as H.
    destruct (Ops2.call P op this st);
      (eapply confined_outside; [exact H | simpl; intuition congruence]).
Qed.

(** The theorem at [v.add(u)] on the sample store, [v] the object 2 and
    [u] the object 3: [u] is as it was. *)
Lemma mutators_write_this_only_witness :
  match Ops3.call plain_host (Ops3.add 3) 2
          (sample_state (JNum 1) (JNum 2) (JNum 3)) with
  | Ok _ st' | Throw _ st' =>
      heap st' !! 3 = heap (sample_state (JNum 1) (JNum 2) (JNum 3)) !! 3
      /\ next_loc st' = 4
  end.
Proof.
  refine (proj1 (mutators_write_this_only plain_host 2 3
                   (sample_state (JNum 1) (JNum 2) (JNum 3)) _) (Ops3.add 3) _ _);
    unfold _vector, _quaternion; lia.
Defined.

(** X2.  Whatever a mutator does to the components, every object of the
    store keeps its id, its origin, its type tag and its observer, and a
    dirty flag that was set is still set: a mutator never detaches or
    replaces an observer and never resets [isDirty] - also when it
    throws. *)
Theorem mutators_keep_identity (P : Platform) (this l : loc) (o : Obj) (st : State) :
  heap st !! l = Some o ->
  (forall op : Ops3.mutator,
     match Ops3.call P op this st with
     | Ok _ st' | Throw _ st' =>
         exists o', heap st' !! l = Some o' /\ same_identity o o'
     end)
  /\ (forall op : Ops4.mutator,
        match Ops4.call P op this st with
        | Ok _ st' | Throw _ st' =>
            exists o', heap st' !! l = Some o' /\ same_identity o o'
        end)
  /\ (forall op : Ops2.mutator,
        match Ops2.call P op this st with
        | Ok _ st' | Throw _ st' =>
            exists o', heap st' !! l = Some o' /\ same_identity o o'
        end).
Proof.
  intros Ho. split; [|split]; intros op.
  - pose proof (writes_only_confined _ _ _ st (call3_writes_only P op this)) as H.
    destruct (Ops3.call P op this st); eapply confined_identity; eauto.
  - pose proof (writes_only_confined _ _ _ st (call4_writes_only P op this)) as H.
    destruct (Ops4.call P op this st); eapply confined_identity; eauto.
  - pose proof (writes_only_confined _ _ _ st (call2_writes_only P op this)) as H.
    destruct (Ops2.call P op this st); eapply confined_identity; eauto.
Qed.

(** The theorem at [v.negate()] on the observed vector of the sample
    store: the observer 7 is still attached. *)
Lemma mutators_keep_identity_witness :
  match Ops3.call plain_host Ops3.negate 2
          (sample_state (JNum 1) (JNum 2) (JNum 3)) with
  | Ok _ st' | Throw _ st' =>
      exists o', heap st' !! 2 = Some o' /\ onChange o' = Some 7
  end.
Proof.
  pose proof (proj1 (mutators_keep_identity plain_host 2 2
                       (set_onChange (Some 7)
                          (fresh_obj IsVector3 (JNum 1) (JNum 2) (JNum 3) JUndef))
                       (sample_state (JNum 1) (JNum 2) (JNum 3)) eq_refl)
                    Ops3.negate) as H.
  destruct (Ops3.call plain_host Ops3.negate 2
              (sample_state (JNum 1) (JNum 2) (JNum 3)));
    destruct H as (o' & Ho' & _ & _ & _ & Hc & _); exists o'; split; auto.
Defined.

(* ================================================================== *)
(** * Components by index *)
(* ================================================================== *)

(** X3.  An index that selects no component of the class - anything but
    0, 1 (and 2, and 3) under [===] - makes [setComponent] and
    [getComponent] throw an [Error] (not a [TypeError]), and the store
    is as it was: nothing is written, [isDirty] is not raised and no
    observer is called. *)
Theorem component_index_out_of_range (this : loc) (i v : jsval) (st : State) :
  (component 3 i = None ->
     (exists msg, Vector3.setComponent this i v st = Throw (JSError msg) st)
     /\ (exists msg, Vector3.getComponent this i st = Throw (JSError msg) st))
  /\ (component 4 i = None ->
        (exists msg, Vector4.setComponent this i v st = Throw (JSError msg) st)
        /\ (exists msg, Vector4.getComponent this i st = Throw (JSError msg) st))
  /\ (component 2 i = None ->
        (exists msg, Vector2.setComponent this i v st = Throw (JSError msg) st)
        /\ (exists msg, Vector2.getComponent this i st = Throw (JSError msg) st)).
Proof.
  unfold component.
  split; [|split]; intros H;
    destruct (strict_eq i (JNum 0)) eqn:E0; try discriminate H;
    destruct (strict_eq i (JNum 1)) eqn:E1; try discriminate H;
    destruct (strict_eq i (JNum 2)) eqn:E2; try discriminate H;
    destruct (strict_eq i (JNum 3)) eqn:E3; try discriminate H.
  all: unfold Vector3.setComponent, Vector3.getComponent,
         Vector4.setComponent, Vector4.getComponent,
         Vector2.setComponent, Vector2.getComponent, bind, throw;
       rewrite ?E0, ?E1, ?E2, ?E3; split; eexists; reflexivity.
Qed.

(** The theorem at the index 4, and at the index [undefined] of an
    omitted argument, on the observed vector of the sample store. *)
Lemma component_index_out_of_range_witness :
  (exists msg,
     Vector3.setComponent 2 (JNum 4) (JNum 9) (sample_state (JNum 1) (JNum 2) (JNum 3))
     = Throw (JSError msg) (sample_state (JNum 1) (JNum 2) (JNum 3)))
  /\ (exists msg,
        Vector4.getComponent 2 (JNum 4) (sample_state (JNum 1) (JNum 2) (JNum 3))
        = Throw (JSError msg) (sample_state (JNum 1) (JNum 2) (JNum 3)))
  /\ (exists msg,
        Vector2.setComponent 2 JUndef (JNum 9) (sample_state (JNum 1) (JNum 2) (JNum 3))
        = Throw (JSError msg) (sample_state (JNum 1) (JNum 2) (JNum 3))).
Proof.
  split; [|split].
  - exact (proj1 (proj1 (component_index_out_of_range 2 (JNum 4) (JNum 9)
                           (sample_state (JNum 1) (JNum 2) (JNum 3))) eq_refl)).
  - exact (proj2 (proj1 (proj2 (component_index_out_of_range 2 (JNum 4) (JNum 9)
                           (sample_state (JNum 1) (JNum 2) (JNum 3)))) eq_refl)).
  - exact (proj1 (proj2 (proj2 (component_index_out_of_range 2 JUndef (JNum 9)
                           (sample_state (JNum 1) (JNum 2) (JNum 3)))) eq_refl)).
Defined.

Lemma runs_result {A} (c : M A) st r r' st' :
  runs c st r' st' -> r' = r -> c st = Ok r st'.
Proof. intros H <-. exact H. Qed.

(** X4.  [setComponent(i, v)] with an index that selects the component
    [f] of the class writes [v] to [f] and to nothing else, raises
    [isDirty], and [getComponent(i)] then answers [v]. *)
Theorem setComponent_then_getComponent (this : loc) (i v : jsval) (f : Field)
    (o : Obj) (st : State) :
  sees this o st ->
  (component 3 i = Some f ->
     exists st', set_then_get3 this i v st = Ok v st'
                 /\ sees this (set_dirty (set_field f v o)) st')
  /\ (component 4 i = Some f ->
        exists st', set_then_get4 this i v st = Ok v st'
                    /\ sees this (set_dirty (set_field f v o)) st')
  /\ (component 2 i = Some f ->
        exists st', set_then_get2 this i v st = Ok v st'
                    /\ sees this (set_dirty (set_field f v o)) st').
Proof.
  intros Ho. unfold component.
  split; [|split]; intros H;
    destruct (strict_eq i (JNum 0)) eqn:E0;
    destruct (strict_eq i (JNum 1)) eqn:E1;
    destruct (strict_eq i (JNum 2)) eqn:E2;
    destruct (strict_eq i (JNum 3)) eqn:E3;
    simpl in H; try discriminate H; injection H as <-.
  all: eexists; split;
    [ eapply runs_result;
      [ unfold set_then_get3, set_then_get4, set_then_get2,
        Vector3.setComponent, Vector3.getComponent,
        Vector4.setComponent, Vector4.getComponent,
        Vector2.setComponent, Vector2.getComponent;
      rewrite ?E0, ?E1, ?E2, ?E3; cbv beta iota; run;
        cbv beta iota; run
      | reflexivity ]
    | solve_sees ].
Qed.

(** The theorem at [v.setComponent(1, 9).getComponent(1)] on the
    observed vector [(1, 2, 3)] of the sample store. *)
Lemma setComponent_then_getComponent_witness :
  exists st',
    set_then_get3 2 (JNum 1) (JNum 9) (sample_state (JNum 1) (JNum 2) (JNum 3))
    = Ok (JNum 9) st'
    /\ sees 2 (mkObj "id" "dsrt" true (Some 7) (JNum 1) (JNum 9) (JNum 3) JUndef
                 IsVector3) st'.
Proof.
  exact (proj1 (setComponent_then_getComponent 2 (JNum 1) (JNum 9) Y
                  (set_onChange (Some 7)
                     (fresh_obj IsVector3 (JNum 1) (JNum 2) (JNum 3) JUndef))
                  (sample_state (JNum 1) (JNum 2) (JNum 3)) eq_refl) eq_refl).
Defined.

(* ================================================================== *)
(** * Copies *)
(* ================================================================== *)

Lemma runs_if_ret {A} (b : bool) (x y : A) st :
  runs (if b then ret x else ret y) st (if b then x else y) st.
Proof. destruct b; reflexivity. Qed.

Lemma sees_allocated_in l o o' st :
  l <> next_loc st -> sees l o st -> sees l o (allocated_in o' st).
Proof.
  unfold sees, allocated_in. simpl. intros Hne H.
  rewrite lookup_insert_ne; auto.
Qed.

Lemma sees_new o' st : sees (next_loc st) o' (allocated_in o' st).
Proof. unfold sees, allocated_in. simpl. apply lookup_insert_eq. Qed.

Lemma sees_id_issued l o st : sees l o st -> sees l o (id_issued st).
Proof. exact (fun H => H). Qed.

(** An object of the store is not the next one to be made, where the
    next location is free. *)
Lemma sees_not_next l o st :
  sees l o st -> heap st !! next_loc st = None -> l <> next_loc st.
Proof. unfold sees. intros H Hn ->. congruence. Qed.

Ltac run_clone :=
  repeat first
    [ run_step
    | lazymatch goal with
      | |- runs (alloc _) _ _ _ => apply runs_alloc
      | |- runs (gen_id _ _) _ _ _ => apply runs_gen_id
      | |- runs (if _ then ret _ else ret _) _ _ _ => apply runs_if_ret
      end ].

(** X5.  [clone()] makes a new object - the next location of the store,
    distinct from [this] - that is not dirty and has no observer, with
    the components of [this], an [undefined] component being replaced by
    the default of the constructor (0, and 1 for [w]); [this] is
    untouched, and no observer is called. *)
Theorem clone_makes_fresh_copy (P : Platform) (this : loc) (o : Obj) (st : State) :
  sees this o st ->
  heap st !! next_loc st = None ->
  next_loc st <> this
  /\ (exists st' o',
        Vector3.clone P this st = Ok (next_loc st) st'
        /\ sees (next_loc st) o' st' /\ clone_of 3 o o'
        /\ sees this o st' /\ trace st' = trace st)
  /\ (exists st' o',
        Vector4.clone P this st = Ok (next_loc st) st'
        /\ sees (next_loc st) o' st' /\ clone_of 4 o o'
        /\ sees this o st' /\ trace st' = trace st)
  /\ (exists st' o',
        Vector2.clone P this st = Ok (next_loc st) st'
        /\ sees (next_loc st) o' st' /\ clone_of 2 o o'
        /\ sees this o st' /\ trace st' = trace st).
Proof.
  intros Ho Hfree. pose proof (sees_not_next _ _ _ Ho Hfree) as Hne.
  split; [congruence|].
  split; [|split]; eexists; eexists.
  - split; [|split; [|split; [|split]]].
    + eapply runs_result;
        [ unfold Vector3.clone, Vector3.constructor; unfold_glue; run_clone
        | reflexivity ].
    + exact (sees_new _ (id_issued st)).
    + unfold clone_of, defaulted. simpl. repeat split; auto; lia.
    + apply (sees_allocated_in _ _ _ (id_issued st)); [exact Hne | exact Ho].
    + reflexivity.
  - split; [|split; [|split; [|split]]].
    + eapply runs_result;
        [ unfold Vector4.clone, Vector4.constructor; unfold_glue; run_clone
        | reflexivity ].
    + exact (sees_new _ (id_issued st)).
    + unfold clone_of, defaulted. simpl. repeat split; auto; lia.
    + apply (sees_allocated_in _ _ _ (id_issued st)); [exact Hne | exact Ho].
    + reflexivity.
  - split; [|split; [|split; [|split]]].
    + eapply runs_result;
        [ unfold Vector2.clone, Vector2.constructor; unfold_glue; run_clone
        | reflexivity ].
    + exact (sees_new _ (id_issued st)).
    + unfold clone_of, defaulted. simpl. repeat split; auto; lia.
    + apply (sees_allocated_in _ _ _ (id_issued st)); [exact Hne | exact Ho].
    + reflexivity.
Qed.

(** The theorem at the observed vector [(1, undefined, 3)] of the
    sample store: the clone is the object 4, [(1, 0, 3)], without the
    observer. *)
Lemma clone_makes_fresh_copy_witness :
  exists st' o',
    Vector3.clone plain_host 2 (sample_state (JNum 1) JUndef (JNum 3)) = Ok 4 st'
    /\ sees 4 o' st'
    /\ obj_x o' = JNum 1 /\ obj_y o' = JNum 0 /\ obj_z o' = JNum 3
    /\ onChange o' = None.
Proof.
  destruct (clone_makes_fresh_copy plain_host 2
              (set_onChange (Some 7) (fresh_obj IsVector3 (JNum 1) JUndef (JNum 3) JUndef))
              (sample_state (JNum 1) JUndef (JNum 3)) eq_refl eq_refl)
    as (_ & (st' & o' & Hrun & Ho' & (_ & Hobs & Hx & Hy & Hz & _) & _) & _).
  exists st', o'. split; [exact Hrun|]. split; [exact Ho'|].
  split; [exact Hx|]. split; [exact Hy|]. split; [apply Hz; lia | exact Hobs].
Defined.

(** X6.  [set(x, y, z)] of Vector3 with [z] omitted writes [x] and [y]
    and keeps the [z] the vector had: the parameter defaults to
    [this.z]. *)
Theorem set_without_z_keeps_z (this : loc) (x y z : jsval) (o : Obj) (st : State) :
  sees this o st ->
  exists st' o',
    Vector3.set this x y z st = Ok (RObj this) st'
    /\ sees this o' st'
    /\ obj_x o' = x /\ obj_y o' = y /\ obj_z o' = defaulted (obj_z o) z
    /\ isDirty o' = true.
Proof.
  intros Ho. eexists. eexists. split; [|split].
  - apply runs_ok. unfold Vector3.set. unfold_glue.
    eapply runs_bind.
    + instantiate (1 := st). instantiate (1 := defaulted (obj_z o) z).
      unfold defaulted. destruct (is_undefined z).
      * eapply (runs_rd this Z o). exact Ho.
      * apply runs_ret.
    + run.
  - solve_sees.
  - simpl. auto.
Qed.

(** The theorem at [v.set(8, 9)] on the observed vector [(1, 2, 3)]. *)
Lemma set_without_z_keeps_z_witness :
  exists st' o',
    Vector3.set 2 (JNum 8) (JNum 9) JUndef (sample_state (JNum 1) (JNum 2) (JNum 3))
    = Ok (RObj 2) st'
    /\ sees 2 o' st'
    /\ obj_x o' = JNum 8 /\ obj_y o' = JNum 9 /\ obj_z o' = JNum 3.
Proof.
  destruct (set_without_z_keeps_z 2 (JNum 8) (JNum 9) JUndef
              (set_onChange (Some 7) (fresh_obj IsVector3 (JNum 1) (JNum 2) (JNum 3) JUndef))
              (sample_state (JNum 1) (JNum 2) (JNum 3)) eq_refl)
    as (st' & o' & Hrun & Ho' & Hx & Hy & Hz & _).
  exists st', o'. auto.
Defined.

Lemma sees_inj l o o' st : sees l o st -> sees l o' st -> o = o'.
Proof. unfold sees. congruence. Qed.

(** X7.  [copy(v)] of Vector4 takes [x], [y], [z] from [v], and [w]
    too when [v] has one; from an object without [w] - a Vector3, a
    Vector2 - it sets [w] to 1.  [v] may be [this]. *)
Theorem copy4_defaults_w (this v : loc) (o ov : Obj) (st : State) :
  sees this o st -> sees v ov st ->
  exists st' o',
    Vector4.copy this v st = Ok (RObj this) st'
    /\ sees this o' st'
    /\ obj_x o' = obj_x ov /\ obj_y o' = obj_y ov /\ obj_z o' = obj_z ov
    /\ obj_w o' = defaulted (JNum 1) (obj_w ov).
Proof.
  intros Ho Hv. unfold defaulted.
  destruct (decide (this = v)) as [->|Hne].
  - pose proof (sees_inj _ _ _ _ Ho Hv) as ->. clear Ho.
    destruct (is_undefined (obj_w ov)) eqn:E;
      (eexists; eexists; split; [|split];
       [ apply runs_ok; unfold Vector4.copy; run;
         cbn [get_field set_field obj_w]; rewrite E; cbn [negb]; run
       | solve_sees
       | simpl; auto ]).
  - destruct (is_undefined (obj_w ov)) eqn:E;
      (eexists; eexists; split; [|split];
       [ apply runs_ok; unfold Vector4.copy; run;
         cbn [get_field set_field obj_w]; rewrite E; cbn [negb]; run
       | solve_sees
       | simpl; auto ]).
Qed.

(** The theorem at a Vector4 copying the Vector3 [(0, 1, 0)] of the
    sample store, which has no [w]. *)
Lemma copy4_defaults_w_witness :
  exists st' o',
    Vector4.copy 2 3 (sample_state (JNum 1) (JNum 2) (JNum 3)) = Ok (RObj 2) st'
    /\ sees 2 o' st'
    /\ obj_x o' = JNum 0 /\ obj_y o' = JNum 1 /\ obj_z o' = JNum 0
    /\ obj_w o' = JNum 1.
Proof.
  exact (copy4_defaults_w 2 3
           (set_onChange (Some 7) (fresh_obj IsVector3 (JNum 1) (JNum 2) (JNum 3) JUndef))
           (fresh_obj IsVector3 (JNum 0) (JNum 1) (JNum 0) JUndef)
           (sample_state (JNum 1) (JNum 2) (JNum 3)) eq_refl eq_refl).
Defined.

(* ================================================================== *)
(** * equals *)
(* ================================================================== *)

Lemma strict_eq_refl (v : jsval) : strict_eq v v = negb (is_nan_val v).
Proof.
  destruct v as [f|]; [|reflexivity].
  simpl. unfold is_nan. rewrite negb_involutive. reflexivity.
Qed.

(** Reading the two objects of a comparison off the store. *)
Ltac step_heap :=
  repeat match goal with
         | H : heap ?st !! ?l = Some _ |- context [heap ?st !! ?l] => rewrite H
         | |- _ => progress (cbv beta iota; cbn [get_field])
         end.

Lemma equals3_runs this v o ov st :
  sees this o st -> sees v ov st ->
  runs (Vector3.equals this v) st
    (strict_eq (obj_x ov) (obj_x o) && strict_eq (obj_y ov) (obj_y o)
     && strict_eq (obj_z ov) (obj_z o)) st.
Proof.
  unfold sees, runs, Vector3.equals. unfold_glue. unfold bind, rd, ret.
  intros Ho Hv. step_heap.
  destruct (strict_eq (obj_x ov) (obj_x o)); [|reflexivity].
  step_heap.
  destruct (strict_eq (obj_y ov) (obj_y o)); [|reflexivity].
  step_heap. reflexivity.
Qed.

Lemma equals4_runs this v o ov st :
  sees this o st -> sees v ov st ->
  runs (Vector4.equals this v) st
    (strict_eq (obj_x ov) (obj_x o) && strict_eq (obj_y ov) (obj_y o)
     && strict_eq (obj_z ov) (obj_z o) && strict_eq (obj_w ov) (obj_w o)) st.
Proof.
  unfold sees, runs, Vector4.equals. unfold_glue. unfold bind, rd, ret.
  intros Ho Hv. step_heap.
  destruct (strict_eq (obj_x ov) (obj_x o)); [|reflexivity].
  step_heap.
  destruct (strict_eq (obj_y ov) (obj_y o)); [|reflexivity].
  step_heap.
  destruct (strict_eq (obj_z ov) (obj_z o)); [|reflexivity].
  step_heap. reflexivity.
Qed.

Lemma equals2_runs this v o ov st :
  sees this o st -> sees v ov st ->
  runs (Vector2.equals this v) st
    (strict_eq (obj_x ov) (obj_x o) && strict_eq (obj_y ov) (obj_y o)) st.
Proof.
  unfold sees, runs, Vector2.equals. unfold_glue. unfold bind, rd, ret.
  intros Ho Hv. step_heap.
  destruct (strict_eq (obj_x ov) (obj_x o)); [|reflexivity].
  step_heap. reflexivity.
Qed.

(** X8.  [v.equals(v)] answers [true] exactly when no component of [v]
    is [NaN]: [equals] compares with [===], under which [NaN] differs
    from itself (and an [undefined] component equals itself). *)
Theorem equals_reflexive_unless_nan (this : loc) (o : Obj) (st : State) :
  sees this o st ->
  Vector3.equals this this st = Ok (negb (has_nan 3 o)) st
  /\ Vector4.equals this this st = Ok (negb (has_nan 4 o)) st
  /\ Vector2.equals this this st = Ok (negb (has_nan 2 o)) st.
Proof.
  intros Ho. unfold has_nan. split; [|split].
  - rewrite (runs_ok _ _ _ _ (equals3_runs _ _ _ _ _ Ho Ho)).
    rewrite !strict_eq_refl. simpl. rewrite orb_false_r, !negb_orb. reflexivity.
  - rewrite (runs_ok _ _ _ _ (equals4_runs _ _ _ _ _ Ho Ho)).
    rewrite !strict_eq_refl. simpl. rewrite !negb_orb. reflexivity.
  - rewrite (runs_ok _ _ _ _ (equals2_runs _ _ _ _ _ Ho Ho)).
    rewrite !strict_eq_refl. simpl. rewrite !orb_false_r, !negb_orb. reflexivity.
Qed.

(** The theorem at the observed vector [(1, NaN, 3)]: it does not equal
    itself. *)
Lemma equals_reflexive_unless_nan_witness :
  Vector3.equals 2 2 (sample_state (JNum 1) (JNum nan) (JNum 3))
  = Ok false (sample_state (JNum 1) (JNum nan) (JNum 3)).
Proof.
  exact (proj1 (equals_reflexive_unless_nan 2
                  (set_onChange (Some 7)
                     (fresh_obj IsVector3 (JNum 1) (JNum nan) (JNum 3) JUndef))
                  (sample_state (JNum 1) (JNum nan) (JNum 3)) eq_refl)).
Defined.

(** X9.  After [this.copy(v)], [this.equals(v)] answers [true] exactly
    when no component of [v] is [NaN] - and, for a Vector4 copying
    another object, when [v] has a [w]: copying an object without [w]
    sets [w] to 1, which differs from the [undefined] that [equals]
    reads from [v]. *)
Theorem copy_then_equals (this v : loc) (o ov : Obj) (st : State) :
  sees this o st -> sees v ov st ->
  (exists st', copy_then_equals3 this v st = Ok (negb (has_nan 3 ov)) st')
  /\ (this <> v ->
      exists st',
        copy_then_equals4 this v st
        = Ok (negb (has_nan 4 ov) && negb (is_undefined (obj_w ov))) st')
  /\ (exists st', copy_then_equals2 this v st = Ok (negb (has_nan 2 ov)) st').
Proof.
  intros Ho Hv. unfold has_nan. split; [|split].
  - destruct (decide (this = v)) as [->|Hne];
      [ pose proof (sees_inj _ _ _ _ Ho Hv) as ->; clear Ho | ];
      eexists;
      (eapply runs_result;
       [ unfold copy_then_equals3; eapply runs_bind;
         [ unfold Vector3.copy; run
         | cbn [on]; apply equals3_runs; solve_sees ]
       | simpl; rewrite !strict_eq_refl; simpl;
         rewrite ?orb_false_r, !negb_orb; reflexivity ]).
  - intros Hne.
    destruct (is_undefined (obj_w ov)) eqn:E; eexists;
      (eapply runs_result;
       [ unfold copy_then_equals4; eapply runs_bind;
         [ unfold Vector4.copy; run;
           cbn [get_field set_field obj_w]; rewrite E; cbn [negb]; run
         | cbn [on]; apply equals4_runs; solve_sees ]
       | simpl; rewrite !strict_eq_refl; simpl; rewrite ?negb_orb;
         destruct (obj_w ov); try discriminate E; simpl;
         rewrite ?andb_false_r, ?andb_true_r; reflexivity ]).
  - destruct (decide (this = v)) as [->|Hne];
      [ pose proof (sees_inj _ _ _ _ Ho Hv) as ->; clear Ho | ];
      eexists;
      (eapply runs_result;
       [ unfold copy_then_equals2; eapply runs_bind;
         [ unfold Vector2.copy; run
         | cbn [on]; apply equals2_runs; solve_sees ]
       | simpl; rewrite !strict_eq_refl; simpl;
         rewrite ?orb_false_r, !negb_orb; reflexivity ]).
Qed.

(** The theorem at a Vector4 copying the Vector3 [(0, 1, 0)] of the
    sample store: the copy does not equal its source. *)
Lemma copy_then_equals_witness :
  exists st',
    copy_then_equals4 2 3 (sample_state (JNum 1) (JNum 2) (JNum 3)) = Ok false st'.
Proof.
  exact (proj1 (proj2 (copy_then_equals 2 3
           (set_onChange (Some 7) (fresh_obj IsVector3 (JNum 1) (JNum 2) (JNum 3) JUndef))
           (fresh_obj IsVector3 (JNum 0) (JNum 1) (JNum 0) JUndef)
           (sample_state (JNum 1) (JNum 2) (JNum 3)) eq_refl eq_refl))
         ltac:(lia)).
Defined.

(* ================================================================== *)
(** * Arrays *)
(* ================================================================== *)

Lemma length_aset (a : list jsval) (i : nat) (v : jsval) :
  length (aset a i v) = Nat.max (length a) (S i).
Proof.
  revert a. induction i as [|i IH]; intros [|h t]; simpl; try lia.
  - rewrite (IH []). simpl. lia.
  - rewrite (IH t). lia.
Qed.

Lemma aget_beyond (a : list jsval) (i : nat) :
  length a <= i -> aget a i = JUndef.
Proof. intros H. unfold aget. apply nth_overflow. exact H. Qed.

Ltac solve_aget :=
  repeat first [ rewrite aget_aset_eq | rewrite aget_aset_ne by lia ];
  reflexivity.

Lemma written_at2 (a : list jsval) (k : nat) (x y : jsval) :
  written_at k [x; y] a (aset (aset a k x) (k + 1) y).
Proof.
  split; [|split].
  - rewrite !length_aset. simpl. lia.
  - intros j Hj. simpl in Hj.
    destruct j as [|[|j]]; [replace (k + 0) with k by lia | | lia]; solve_aget.
  - simpl. intros j Hj. solve_aget.
Qed.

Lemma written_at3 (a : list jsval) (k : nat) (x y z : jsval) :
  written_at k [x; y; z] a (aset (aset (aset a k x) (k + 1) y) (k + 2) z).
Proof.
  split; [|split].
  - rewrite !length_aset. simpl. lia.
  - intros j Hj. simpl in Hj.
    destruct j as [|[|[|j]]]; [replace (k + 0) with k by lia | | | lia];
      solve_aget.
  - simpl. intros j Hj. solve_aget.
Qed.

Lemma written_at4 (a : list jsval) (k : nat) (x y z w : jsval) :
  written_at k [x; y; z; w] a
    (aset (aset (aset (aset a k x) (k + 1) y) (k + 2) z) (k + 3) w).
Proof.
  split; [|split].
  - rewrite !length_aset. simpl. lia.
  - intros j Hj. simpl in Hj.
    destruct j as [|[|[|[|j]]]]; [replace (k + 0) with k by lia | | | | lia];
      solve_aget.
  - simpl. intros j Hj. solve_aget.
Qed.



(** X11.  [fromArray(array, k)] does not check the bounds: with [k] at
    or past the end of the array every component becomes [undefined],
    the call still returns and commits, and [length()] then answers
    [NaN]. *)
Theorem fromArray_past_the_end (this : loc) (array : list jsval) (k : nat)
    (o : Obj) (st : State) :
  sees this o st ->
  length array <= k ->
  (exists st' o',
     Vector3.fromArray this array (Some k) st = Ok (RObj this) st'
     /\ sees this o' st'
     /\ obj_x o' = JUndef /\ obj_y o' = JUndef /\ obj_z o' = JUndef
     /\ isDirty o' = true
     /\ Vector3.length this st' = Ok (JNum nan) st')
  /\ (exists st' o',
        Vector4.fromArray this array (Some k) st = Ok (RObj this) st'
        /\ sees this o' st'
        /\ obj_x o' = JUndef /\ obj_y o' = JUndef /\ obj_z o' = JUndef
        /\ obj_w o' = JUndef
        /\ isDirty o' = true
        /\ Vector4.length this st' = Ok (JNum nan) st')
  /\ (exists st' o',
        Vector2.fromArray this array (Some k) st = Ok (RObj this) st'
        /\ sees this o' st'
        /\ obj_x o' = JUndef /\ obj_y o' = JUndef
        /\ isDirty o' = true
        /\ Vector2.length this st' = Ok (JNum nan) st').
Proof.
  intros Ho Hk. split; [|split]; eexists; eexists.
  - split; [|split].
    + apply runs_ok. unfold Vector3.fromArray, offset_or_0. run.
    + solve_sees.
    + simpl. rewrite !aget_beyond by lia. repeat split.
      eapply runs_result;
        [ unfold Vector3.length, Vector3.lengthSq; run | vm_compute; reflexivity ].
  - split; [|split].
    + apply runs_ok. unfold Vector4.fromArray, offset_or_0. run.
    + solve_sees.
    + simpl. rewrite !aget_beyond by lia. repeat split.
      eapply runs_result;
        [ unfold Vector4.length, Vector4.lengthSq; run | vm_compute; reflexivity ].
  - split; [|split].
    + apply runs_ok. unfold Vector2.fromArray, offset_or_0. run.
    + solve_sees.
    + simpl. rewrite !aget_beyond by lia. repeat split.
      eapply runs_result;
        [ unfold Vector2.length, Vector2.lengthSq; run | vm_compute; reflexivity ].
Qed.

(** The theorem at [v.fromArray([4, 5, 6], 3)] on the observed vector. *)
Lemma fromArray_past_the_end_witness :
  exists st' o',
    Vector3.fromArray 2 [JNum 4; JNum 5; JNum 6] (Some 3)
      (sample_state (JNum 1) (JNum 2) (JNum 3)) = Ok (RObj 2) st'
    /\ sees 2 o' st'
    /\ obj_x o' = JUndef /\ obj_y o' = JUndef /\ obj_z o' = JUndef
    /\ Vector3.length 2 st' = Ok (JNum nan) st'.
Proof.
  destruct (proj1 (fromArray_past_the_end 2 [JNum 4; JNum 5; JNum 6] 3
                     (set_onChange (Some 7)
                        (fresh_obj IsVector3 (JNum 1) (JNum 2) (JNum 3) JUndef))
                     (sample_state (JNum 1) (JNum 2) (JNum 3)) eq_refl
                     (le_n 3)))
    as (st' & o' & Hrun & Ho' & Hx & Hy & Hz & _ & Hlen).
  exists st', o'. auto 10.
Defined.

(** X12.  Iterating a vector yields its components in the order of
    [toArray()]: [[...v]] and [v.toArray()] are the same array, in every
    store. *)
Theorem iterator_agrees_with_toArray (this : loc) (st : State) :
  Vector3.iterator this st = Vector3.toArray this None None st
  /\ Vector4.iterator this st = Vector4.toArray this None None st
  /\ Vector2.iterator this st = Vector2.toArray this None None st.
Proof.
  unfold Vector3.iterator, Vector3.toArray, Vector4.iterator, Vector4.toArray,
    Vector2.iterator, Vector2.toArray, bind, rd, ret.
  destruct (heap st !! this); repeat split; reflexivity.
Qed.

(* ================================================================== *)
(** * Arithmetic of binary64 numbers *)
(* ================================================================== *)

Lemma fmul_comm (x y : float) : (x * y = y * x)%float.
Proof.
  apply Prim2SF_inj. rewrite !mul_spec. unfold SF64mul, SFmul.
  destruct (Prim2SF x) as [sx|sx| |sx mx ex], (Prim2SF y) as [sy|sy| |sy my ey];
    try reflexivity; rewrite ?(xorb_comm sx sy); try reflexivity.
  rewrite (Pos.mul_comm mx my), (Z.add_comm ex ey). reflexivity.
Qed.

Lemma fadd_comm (x y : float) : (x + y = y + x)%float.
Proof.
  apply Prim2SF_inj. rewrite !add_spec. unfold SF64add, SFadd.
  destruct (Prim2SF x) as [sx|sx| |sx mx ex], (Prim2SF y) as [sy|sy| |sy my ey];
    try reflexivity; try (destruct sx, sy; reflexivity).
  rewrite (Z.min_comm ex ey), Z.add_comm. reflexivity.
Qed.

Lemma fopp_involutive (x : float) : (- - x = x)%float.
Proof.
  apply Prim2SF_inj. rewrite !opp_spec.
  destruct (Prim2SF x); simpl; rewrite ?negb_involutive; reflexivity.
Qed.

(** A square root is never below zero. *)
Lemma sqrt_not_negative (x : float) : (sqrt x <? 0)%float = false.
Proof.
  rewrite ltb_spec, sqrt_spec. unfold SF64sqrt, SFsqrt.
  change (Prim2SF 0) with (S754_zero false).
  destruct (Prim2SF x) as [s|s| |s m e]; try reflexivity.
  - destruct s; reflexivity.
  - destruct s; [reflexivity|].
    destruct (SFsqrt_core_binary prec emax (Z.pos m) e) as [[mz ez] lz].
    unfold binary_round_aux.
    destruct (shr_fexp prec emax mz ez lz) as [mrs' e'].
    destruct (shr_fexp prec emax _ e' loc_Exact) as [mrs'' e''].
    destruct (shr_m mrs''); try reflexivity.
    destruct (e'' <=? emax - prec)%Z; reflexivity.
Qed.

Lemma jmul_comm (a b : jsval) : (a * b)%jv = (b * a)%jv.
Proof. unfold jmul. rewrite fmul_comm. reflexivity. Qed.

Lemma jadd_comm (a b : jsval) : (a + b)%jv = (b + a)%jv.
Proof. unfold jadd. rewrite fadd_comm. reflexivity. Qed.

Lemma ltb_irrefl (x : float) : (x <? x)%float = false.
Proof.
  destruct (x <? x)%float eqn:E; [|reflexivity].
  apply ltb_key in E. destruct E as (a & b & Ea & Eb & H).
  rewrite Ea in Eb. injection Eb as <-.
  destruct a as [[a1 a2] a3]. apply lex_Lt_iff in H. lia.
Qed.

Lemma leb_refl (x : float) : is_nan x = false -> (x <=? x)%float = true.
Proof. intros H. apply not_ltb_leb; auto using ltb_irrefl. Qed.

Lemma leb_not_nan (x y : float) :
  (x <=? y)%float = true -> is_nan x = false /\ is_nan y = false.
Proof.
  rewrite leb_key, !is_nan_key. intros (a & b & Ea & Eb & _).
  split; congruence.
Qed.

(** [Math.min] and [Math.max] of two numbers answer one of them. *)
Lemma fmin_cases (a b : float) :
  is_nan a = false -> is_nan b = false -> fmin a b = a \/ fmin a b = b.
Proof.
  intros Ha Hb. unfold fmin. rewrite Ha, Hb. simpl.
  destruct (a <? b)%float; auto. destruct (b <? a)%float; auto.
  destruct (get_sign a); auto.
Qed.

Lemma fmax_cases (a b : float) :
  is_nan a = false -> is_nan b = false -> fmax a b = a \/ fmax a b = b.
Proof.
  intros Ha Hb. unfold fmax. rewrite Ha, Hb. simpl.
  destruct (a <? b)%float; auto. destruct (b <? a)%float; auto.
  destruct (get_sign a); auto.
Qed.

Lemma fmin_le_l (a b : float) :
  is_nan a = false -> is_nan b = false -> (fmin a b <=? a)%float = true.
Proof.
  intros Ha Hb. unfold fmin. rewrite Ha, Hb. simpl.
  destruct (a <? b)%float eqn:E1; [apply leb_refl, Ha|].
  destruct (b <? a)%float eqn:E2; [apply ltb_leb, E2|].
  destruct (get_sign a); [apply leb_refl, Ha|].
  apply not_ltb_leb; auto.
Qed.

Lemma fmax_ge_l (a b : float) :
  is_nan a = false -> is_nan b = false -> (a <=? fmax a b)%float = true.
Proof.
  intros Ha Hb. unfold fmax. rewrite Ha, Hb. simpl.
  destruct (a <? b)%float eqn:E1; [apply ltb_leb, E1|].
  destruct (b <? a)%float eqn:E2; [apply leb_refl, Ha|].
  destruct (get_sign a); [|apply leb_refl, Ha].
  apply not_ltb_leb; auto.
Qed.

(** [clamp] on numbers. *)
Lemma clamp_within (v lo hi : float) :
  is_nan v = false -> (lo <=? hi)%float = true ->
  (lo <=? fmax lo (fmin hi v))%float = true
  /\ (fmax lo (fmin hi v) <=? hi)%float = true.
Proof.
  intros Hv Hle. destruct (leb_not_nan _ _ Hle) as [Hlo Hhi].
  assert (Ht : is_nan (fmin hi v) = false).
  { destruct (fmin_cases hi v Hhi Hv) as [-> | ->]; assumption. }
  split; [apply fmax_ge_l; assumption|].
  destruct (fmax_cases lo (fmin hi v) Hlo Ht) as [-> | ->];
    [exact Hle | apply fmin_le_l; assumption].
Qed.

Lemma clamp_nan (v lo hi : float) :
  is_nan v = true -> is_nan (fmax lo (fmin hi v)) = true.
Proof.
  intros Hv. unfold fmin. rewrite Hv, orb_true_r.
  unfold fmax. replace (is_nan nan) with true by reflexivity.
  rewrite orb_true_r. reflexivity.
Qed.

Lemma clamped_clamp (v lo hi : jsval) :
  jle lo hi = true -> clamped lo hi v (MathUtils.clamp v lo hi).
Proof.
  intros Hle. unfold clamped, MathUtils.clamp, Math_max, Math_min, jle.
  cbn [ToNumber is_nan_val].
  destruct (is_nan (ToNumber v)) eqn:Hv.
  - apply clamp_nan, Hv.
  - apply clamp_within; assumption.
Qed.

(* ================================================================== *)
(** * clamp *)
(* ================================================================== *)

(** X13.  With bounds [lo <= hi], [clamp(v, lo, hi)] of MathUtils
    answers a number within the bounds for every number [v], and [NaN]
    for [NaN] and [undefined]; [clampScalar(lo, hi)] of the three
    classes leaves every component so. *)
Theorem clampScalar_keeps_within_bounds (this : loc) (lo hi : jsval)
    (o : Obj) (st : State) :
  jle lo hi = true ->
  sees this o st ->
  (forall v, clamped lo hi v (MathUtils.clamp v lo hi))
  /\ (exists st' o',
        Vector3.clampScalar this lo hi st = Ok (RObj this) st'
        /\ sees this o' st'
        /\ clamped lo hi (obj_x o) (obj_x o')
        /\ clamped lo hi (obj_y o) (obj_y o')
        /\ clamped lo hi (obj_z o) (obj_z o'))
  /\ (exists st' o',
        Vector4.clampScalar this lo hi st = Ok (RObj this) st'
        /\ sees this o' st'
        /\ clamped lo hi (obj_x o) (obj_x o')
        /\ clamped lo hi (obj_y o) (obj_y o')
        /\ clamped lo hi (obj_z o) (obj_z o')
        /\ clamped lo hi (obj_w o) (obj_w o'))
  /\ (exists st' o',
        Vector2.clampScalar this lo hi st = Ok (RObj this) st'
        /\ sees this o' st'
        /\ clamped lo hi (obj_x o) (obj_x o')
        /\ clamped lo hi (obj_y o) (obj_y o')).
Proof.
  intros Hle Ho. split; [intros v; apply clamped_clamp, Hle|].
  split; [|split]; eexists; eexists; (split; [|split]).
  - apply runs_ok. unfold Vector3.clampScalar. run.
  - solve_sees.
  - simpl. auto using clamped_clamp.
  - apply runs_ok. unfold Vector4.clampScalar. run.
  - solve_sees.
  - simpl. auto 6 using clamped_clamp.
  - apply runs_ok. unfold Vector2.clampScalar. run.
  - solve_sees.
  - simpl. auto using clamped_clamp.
Qed.

(** The theorem at [v.clampScalar(0, 5)] on the observed vector
    [(10, -3, NaN)]. *)
Lemma clampScalar_keeps_within_bounds_witness :
  exists st' o',
    Vector3.clampScalar 2 (JNum 0) (JNum 5)
      (sample_state (JNum 10) (JNum (-3)) (JNum nan)) = Ok (RObj 2) st'
    /\ sees 2 o' st'
    /\ jle (obj_x o') (JNum 5) = true /\ jle (JNum 0) (obj_y o') = true
    /\ is_nan_val (obj_z o') = true.
Proof.
  destruct (clampScalar_keeps_within_bounds 2 (JNum 0) (JNum 5)
              (set_onChange (Some 7)
                 (fresh_obj IsVector3 (JNum 10) (JNum (-3)) (JNum nan) JUndef))
              (sample_state (JNum 10) (JNum (-3)) (JNum nan)) eq_refl eq_refl)
    as (_ & (st' & o' & Hrun & Ho' & Hx & Hy & Hz) & _).
  exists st', o'. split; [exact Hrun|]. split; [exact Ho'|].
  split; [exact (proj2 Hx)|]. split; [exact (proj1 Hy) | exact Hz].
Defined.

(* ================================================================== *)
(** * Degenerate arguments *)
(* ================================================================== *)

Ltac run_more :=
  unfold_glue;
  repeat first
    [ run_step
    | lazymatch goal with
      | |- runs (if is_undefined (JNum _) then _ else _) _ _ _ => cbn [is_undefined]
      end ].

(** X14.  [projectOnVector(v)] on a [v] whose squared length is zero
    does not divide: it sets [this] to [(0, 0, 0)], commits once and
    returns [this]. *)
Theorem projectOnVector_zero_length (this v : loc) (o ov : Obj) (st : State) :
  sees this o st -> sees v ov st ->
  strict_eq (lensq3 ov) (JNum 0) = true ->
  exists st' o',
    Vector3.projectOnVector this v st = Ok (RObj this) st'
    /\ sees this o' st'
    /\ obj_x o' = JNum 0 /\ obj_y o' = JNum 0 /\ obj_z o' = JNum 0
    /\ isDirty o' = true
    /\ trace st' = trace st ++ one_call (onChange o) this.
Proof.
  intros Ho Hv Hz. unfold lensq3 in Hz.
  eexists. eexists. split; [|split].
  - apply runs_ok.
    unfold Vector3.projectOnVector, Vector3.lengthSq. run.
    cbn [get_field]. rewrite Hz. unfold Vector3.set. run_more.
  - solve_sees.
  - simpl. repeat split.
    destruct o as [? ? ? [cb|] ? ? ? ? ?]; simpl; rewrite ?app_nil_r; reflexivity.
Qed.

(** The theorem at the observed vector [(1, 2, 3)] projected on
    [(0, -0, 0)]. *)
Lemma projectOnVector_zero_length_witness :
  exists st' o',
    Vector3.projectOnVector 2 3
      (put 3 (fresh_obj IsVector3 (JNum 0) (JNum (-0)) (JNum 0) JUndef)
         (sample_state (JNum 1) (JNum 2) (JNum 3))) = Ok (RObj 2) st'
    /\ sees 2 o' st'
    /\ obj_x o' = JNum 0 /\ obj_y o' = JNum 0 /\ obj_z o' = JNum 0
    /\ trace st' = [Notify 7 2].
Proof.
  destruct (projectOnVector_zero_length 2 3
              (set_onChange (Some 7)
                 (fresh_obj IsVector3 (JNum 1) (JNum 2) (JNum 3) JUndef))
              (fresh_obj IsVector3 (JNum 0) (JNum (-0)) (JNum 0) JUndef)
              (put 3 (fresh_obj IsVector3 (JNum 0) (JNum (-0)) (JNum 0) JUndef)
                 (sample_state (JNum 1) (JNum 2) (JNum 3)))
              eq_refl eq_refl eq_refl)
    as (st' & o' & Hrun & Ho' & Hx & Hy & Hz & _ & Ht).
  exists st', o'. auto 10.
Defined.

(** X15.  [angleTo(v)] guards its division: when the product of the
    two lengths is zero - one of the vectors is the zero vector, or the
    product underflows - it answers [Math.PI / 2], not [NaN]. *)
Theorem angleTo_of_zero_length (P : Platform) (this v : loc) (o ov : Obj) (st : State) :
  sees this o st -> sees v ov st ->
  (strict_eq (Math_sqrt (lensq3 o * lensq3 ov)%jv) (JNum 0) = true ->
   Vector3.angleTo P this v st = Ok (Math_PI / JNum 2)%jv st)
  /\ (strict_eq (Math_sqrt (lensq2 o * lensq2 ov)%jv) (JNum 0) = true ->
      Vector2.angleTo P this v st = Ok (Math_PI / JNum 2)%jv st).
Proof.
  intros Ho Hv. split; intros Hz.
  - unfold lensq3 in Hz. eapply runs_result.
    + unfold Vector3.angleTo, Vector3.lengthSq. run.
      cbn [get_field]. rewrite Hz. run.
    + reflexivity.
  - unfold lensq2 in Hz. eapply runs_result.
    + unfold Vector2.angleTo, Vector2.lengthSq. run.
      cbn [get_field]. rewrite Hz. run.
    + reflexivity.
Qed.

(** The theorem at the observed vector [(0, 0, 0)] and the vector
    [(0, 1, 0)] of the sample store. *)
Lemma angleTo_of_zero_length_witness :
  Vector3.angleTo plain_host 2 3 (sample_state (JNum 0) (JNum 0) (JNum 0))
  = Ok (Math_PI / JNum 2)%jv (sample_state (JNum 0) (JNum 0) (JNum 0))
  /\ Vector2.angleTo plain_host 2 3 (sample_state (JNum 0) (JNum 0) (JNum 0))
     = Ok (Math_PI / JNum 2)%jv (sample_state (JNum 0) (JNum 0) (JNum 0)).
Proof.
  split.
  - exact (proj1 (angleTo_of_zero_length plain_host 2 3
             (set_onChange (Some 7)
                (fresh_obj IsVector3 (JNum 0) (JNum 0) (JNum 0) JUndef))
             (fresh_obj IsVector3 (JNum 0) (JNum 1) (JNum 0) JUndef)
             (sample_state (JNum 0) (JNum 0) (JNum 0)) eq_refl eq_refl) eq_refl).
  - exact (proj2 (angleTo_of_zero_length plain_host 2 3
             (set_onChange (Some 7)
                (fresh_obj IsVector3 (JNum 0) (JNum 0) (JNum 0) JUndef))
             (fresh_obj IsVector3 (JNum 0) (JNum 1) (JNum 0) JUndef)
             (sample_state (JNum 0) (JNum 0) (JNum 0)) eq_refl eq_refl) eq_refl).
Defined.

(* ================================================================== *)
(** * Aliased arguments *)
(* ================================================================== *)

(** X16.  [crossVectors(a, b)] reads the six components before it
    writes: the result is the cross product of [a] and [b] as they were
    when the call began, also when [a] or [b] is [this] - as in
    [cross(v)], which is [crossVectors(this, v)]. *)
Theorem crossVectors_reads_before_writing (this a b : loc) (o oa ob : Obj)
    (st : State) :
  sees this o st -> sees a oa st -> sees b ob st ->
  (exists st' o',
     Vector3.crossVectors this a b st = Ok (RObj this) st'
     /\ sees this o' st'
     /\ obj_x o' = (obj_y oa * obj_z ob - obj_z oa * obj_y ob)%jv
     /\ obj_y o' = (obj_z oa * obj_x ob - obj_x oa * obj_z ob)%jv
     /\ obj_z o' = (obj_x oa * obj_y ob - obj_y oa * obj_x ob)%jv)
  /\ (exists st' o',
        Vector3.cross this b st = Ok (RObj this) st'
        /\ sees this o' st'
        /\ obj_x o' = (obj_y o * obj_z ob - obj_z o * obj_y ob)%jv
        /\ obj_y o' = (obj_z o * obj_x ob - obj_x o * obj_z ob)%jv
        /\ obj_z o' = (obj_x o * obj_y ob - obj_y o * obj_x ob)%jv).
Proof.
  intros Ho Ha Hb. split; eexists; eexists; (split; [|split]).
  - apply runs_ok. unfold Vector3.crossVectors. run.
  - solve_sees.
  - simpl. auto.
  - apply runs_ok. unfold Vector3.cross, Vector3.crossVectors. run.
  - solve_sees.
  - simpl. auto.
Qed.

(** The theorem at [v.cross(v)] on the observed vector [(1, 2, 3)]:
    the zero vector. *)
Lemma crossVectors_reads_before_writing_witness :
  exists st' o',
    Vector3.cross 2 2 (sample_state (JNum 1) (JNum 2) (JNum 3)) = Ok (RObj 2) st'
    /\ sees 2 o' st'
    /\ obj_x o' = JNum 0 /\ obj_y o' = JNum 0 /\ obj_z o' = JNum 0.
Proof.
  destruct (proj2 (crossVectors_reads_before_writing 2 2 2
              (set_onChange (Some 7) (fresh_obj IsVector3 (JNum 1) (JNum 2) (JNum 3) JUndef))
              (set_onChange (Some 7) (fresh_obj IsVector3 (JNum 1) (JNum 2) (JNum 3) JUndef))
              (set_onChange (Some 7) (fresh_obj IsVector3 (JNum 1) (JNum 2) (JNum 3) JUndef))
              (sample_state (JNum 1) (JNum 2) (JNum 3)) eq_refl eq_refl eq_refl))
    as (st' & o' & Hrun & Ho' & Hx & Hy & Hz).
  exists st', o'. split; [exact Hrun|]. split; [exact Ho'|].
  rewrite Hx, Hy, Hz. repeat split; vm_compute; reflexivity.
Defined.

(* ================================================================== *)
(** * Algebra of the methods *)
(* ================================================================== *)

Lemma jneg_involutive (v : jsval) : (- - v)%jv = JNum (ToNumber v).
Proof. unfold jneg. cbn [ToNumber]. rewrite fopp_involutive. reflexivity. Qed.

(** X17.  [negate()] twice restores every component that holds a
    number, bit for bit - [-0] and [NaN] included; an [undefined]
    component has become [NaN]. *)
Theorem negate_twice_restores (this : loc) (o : Obj) (st : State) :
  sees this o st ->
  (exists st' o',
     negate_twice3 this st = Ok (RObj this) st' /\ sees this o' st'
     /\ obj_x o' = JNum (ToNumber (obj_x o))
     /\ obj_y o' = JNum (ToNumber (obj_y o))
     /\ obj_z o' = JNum (ToNumber (obj_z o)))
  /\ (exists st' o',
        negate_twice4 this st = Ok (RObj this) st' /\ sees this o' st'
        /\ obj_x o' = JNum (ToNumber (obj_x o))
        /\ obj_y o' = JNum (ToNumber (obj_y o))
        /\ obj_z o' = JNum (ToNumber (obj_z o))
        /\ obj_w o' = JNum (ToNumber (obj_w o)))
  /\ (exists st' o',
        negate_twice2 this st = Ok (RObj this) st' /\ sees this o' st'
        /\ obj_x o' = JNum (ToNumber (obj_x o))
        /\ obj_y o' = JNum (ToNumber (obj_y o))).
Proof.
  intros Ho. split; [|split]; eexists; eexists; (split; [|split]).
  - apply runs_ok. unfold negate_twice3, Vector3.negate. run.
  - solve_sees.
  - simpl. rewrite !jneg_involutive. auto.
  - apply runs_ok. unfold negate_twice4, Vector4.negate. run.
  - solve_sees.
  - simpl. rewrite !jneg_involutive. auto.
  - apply runs_ok. unfold negate_twice2, Vector2.negate. run.
  - solve_sees.
  - simpl. rewrite !jneg_involutive. auto.
Qed.

(** The theorem at the observed vector [(1.5, -0, NaN)]. *)
Lemma negate_twice_restores_witness :
  exists st' o',
    negate_twice3 2 (sample_state (JNum 1.5) (JNum (-0)) (JNum nan))
    = Ok (RObj 2) st'
    /\ sees 2 o' st'
    /\ obj_x o' = JNum 1.5 /\ obj_y o' = JNum (-0) /\ obj_z o' = JNum nan.
Proof.
  exact (proj1 (negate_twice_restores 2
           (set_onChange (Some 7)
              (fresh_obj IsVector3 (JNum 1.5) (JNum (-0)) (JNum nan) JUndef))
           (sample_state (JNum 1.5) (JNum (-0)) (JNum nan)) eq_refl)).
Defined.

(** X18.  The dot product is symmetric: [a.dot(b)] and [b.dot(a)]
    answer the same number, bit for bit, in the three classes. *)
Theorem dot_is_symmetric (a b : loc) (oa ob : Obj) (st : State) :
  sees a oa st -> sees b ob st ->
  Vector3.dot a b st = Vector3.dot b a st
  /\ Vector4.dot a b st = Vector4.dot b a st
  /\ Vector2.dot a b st = Vector2.dot b a st.
Proof.
  intros Ha Hb.
  unfold Vector3.dot, Vector4.dot, Vector2.dot. unfold_glue.
  unfold bind, rd, ret. unfold sees in *. step_heap.
  rewrite (jmul_comm (obj_x oa)), (jmul_comm (obj_y oa)),
    (jmul_comm (obj_z oa)), (jmul_comm (obj_w oa)).
  repeat split; reflexivity.
Qed.

(** The theorem at the two vectors of the sample store. *)
Lemma dot_is_symmetric_witness :
  Vector3.dot 2 3 (sample_state (JNum 1) (JNum 2) (JNum 3))
  = Vector3.dot 3 2 (sample_state (JNum 1) (JNum 2) (JNum 3)).
Proof.
  exact (proj1 (dot_is_symmetric 2 3
           (set_onChange (Some 7) (fresh_obj IsVector3 (JNum 1) (JNum 2) (JNum 3) JUndef))
           (fresh_obj IsVector3 (JNum 0) (JNum 1) (JNum 0) JUndef)
           (sample_state (JNum 1) (JNum 2) (JNum 3)) eq_refl eq_refl)).
Defined.

Lemma sqrt_answer_not_negative (e : Expr) (st : State) :
  match lift1 Math_sqrt e st with
  | Ok r _ => jlt r (JNum 0) = false
  | Throw _ _ => True
  end.
Proof.
  unfold lift1, bind, ret. destruct (e st) as [v st'|]; [|exact I].
  apply sqrt_not_negative.
Qed.

(** X19.  [length()] and [distanceTo(v)] never answer a number below
    zero: whatever the components - infinite, [NaN], [undefined] - the
    answer is a number that is not [< 0]. *)
Theorem lengths_are_not_negative (this v : loc) (st : State) :
  let not_negative (c : Expr) :=
    match c st with
    | Ok r _ => jlt r (JNum 0) = false
    | Throw _ _ => True
    end in
  not_negative (Vector3.length this)
  /\ not_negative (Vector4.length this)
  /\ not_negative (Vector2.length this)
  /\ not_negative (Vector3.distanceTo this v)
  /\ not_negative (Vector2.distanceTo this v).
Proof.
  cbv zeta. unfold Vector3.length, Vector4.length, Vector2.length,
    Vector3.distanceTo, Vector2.distanceTo.
  repeat split; apply sqrt_answer_not_negative.
Qed.

(** X20.  [addVectors(a, b)] and [multiplyVectors(a, b)] do not depend
    on the order of their arguments: the call ends in the same store,
    bit for bit, also when [a] or [b] is [this]. *)
Theorem addVectors_is_symmetric (this a b : loc) (o oa ob : Obj) (st : State) :
  sees this o st -> sees a oa st -> sees b ob st ->
  Vector3.addVectors this a b st = Vector3.addVectors this b a st
  /\ Vector3.multiplyVectors this a b st = Vector3.multiplyVectors this b a st
  /\ Vector4.addVectors this a b st = Vector4.addVectors this b a st
  /\ Vector2.addVectors this a b st = Vector2.addVectors this b a st.
Proof.
  intros Ho Ha Hb.
  assert (Hvar : forall l ol, sees l ol st ->
            l = this /\ ol = o \/ l <> this).
  { intros l ol Hl. destruct (decide (l = this)) as [->|Hne]; [left|right; auto].
    split; [reflexivity | eapply sees_inj; eauto]. }
  destruct (Hvar a oa Ha) as [[-> ->]|Hna], (Hvar b ob Hb) as [[-> ->]|Hnb];
    clear Hvar.
  all: repeat split.
  all: lazymatch goal with
       | |- ?c1 ?s = ?c2 ?s =>
           let H1 := fresh in let H2 := fresh in
           eassert (H1 : runs c1 s _ _)
             by (unfold Vector3.addVectors, Vector3.multiplyVectors,
                   Vector4.addVectors, Vector2.addVectors; run);
           eassert (H2 : runs c2 s _ _)
             by (unfold Vector3.addVectors, Vector3.multiplyVectors,
                   Vector4.addVectors, Vector2.addVectors; run);
           rewrite (runs_ok _ _ _ _ H1), (runs_ok _ _ _ _ H2); clear H1 H2
       end.
  all: cbn [get_field set_field set_dirty obj_x obj_y obj_z obj_w dsrt_id
              dsrt_origin isDirty onChange tag];
    repeat first [ reflexivity | apply jadd_comm | apply jmul_comm | f_equal ].
Qed.

(** The theorem at the observed vector, with itself and the second
    vector of the sample store as arguments. *)
Lemma addVectors_is_symmetric_witness :
  Vector3.addVectors 2 2 3 (sample_state (JNum 1) (JNum 2) (JNum 3))
  = Vector3.addVectors 2 3 2 (sample_state (JNum 1) (JNum 2) (JNum 3)).
Proof.
  exact (proj1 (addVectors_is_symmetric 2 2 3
           (set_onChange (Some 7) (fresh_obj IsVector3 (JNum 1) (JNum 2) (JNum 3) JUndef))
           (set_onChange (Some 7) (fresh_obj IsVector3 (JNum 1) (JNum 2) (JNum 3) JUndef))
           (fresh_obj IsVector3 (JNum 0) (JNum 1) (JNum 0) JUndef)
           (sample_state (JNum 1) (JNum 2) (JNum 3)) eq_refl eq_refl eq_refl)).
Defined.

(** X21.  [diffVec3(v1, v2).length] of MathUtils is the number that
    [v1.distanceTo(v2)] answers, bit for bit, and likewise [diffVec2]
    and the [distanceTo] of Vector2; neither writes to the store. *)
Theorem diffVec_length_is_distanceTo (v1 v2 : loc) (o1 o2 : Obj) (st : State) :
  sees v1 o1 st -> sees v2 o2 st ->
  (exists d, MathUtils.diffVec3 v1 v2 st = Ok d st
             /\ Vector3.distanceTo v1 v2 st = Ok (MathUtils.d3_length d) st)
  /\ (exists d, MathUtils.diffVec2 v1 v2 st = Ok d st
                /\ Vector2.distanceTo v1 v2 st = Ok (MathUtils.d2_length d) st).
Proof.
  intros H1 H2. split; eexists; split.
  - apply runs_ok. unfold MathUtils.diffVec3. run.
  - eapply runs_result;
      [ unfold Vector3.distanceTo, Vector3.distanceToSquared; run | reflexivity ].
  - apply runs_ok. unfold MathUtils.diffVec2. run.
  - eapply runs_result;
      [ unfold Vector2.distanceTo, Vector2.distanceToSquared; run | reflexivity ].
Qed.

(** The theorem at the vectors [(3, 5, 0)] and [(0, 1, 0)] of the
    sample store: both answer 5. *)
Lemma diffVec_length_is_distanceTo_witness :
  exists d,
    MathUtils.diffVec3 2 3 (sample_state (JNum 3) (JNum 5) (JNum 0))
    = Ok d (sample_state (JNum 3) (JNum 5) (JNum 0))
    /\ Vector3.distanceTo 2 3 (sample_state (JNum 3) (JNum 5) (JNum 0))
       = Ok (MathUtils.d3_length d) (sample_state (JNum 3) (JNum 5) (JNum 0)).
Proof.
  exact (proj1 (diffVec_length_is_distanceTo 2 3
           (set_onChange (Some 7) (fresh_obj IsVector3 (JNum 3) (JNum 5) (JNum 0) JUndef))
           (fresh_obj IsVector3 (JNum 0) (JNum 1) (JNum 0) JUndef)
           (sample_state (JNum 3) (JNum 5) (JNum 0)) eq_refl eq_refl)).
Defined.

(* ================================================================== *)
(** * MathUtils: sign, the smooth steps, the differences, the UUID *)
(* ================================================================== *)

Lemma ltb_asym (x y : float) : (x <? y)%float = true -> (y <? x)%float = false.
Proof. intros H. apply leb_not_ltb, ltb_leb, H. Qed.

(** X22.  [sign(x)] is 1 for a number above zero, -1 for a number
    below zero and [+0] in every other case: unlike [Math.sign] it
    answers 0 for [NaN] and [undefined], and [+0] for [-0]. *)
Theorem sign_answers_by_cases (x : jsval) :
  MathUtils.sign x = sign_by_cases x
  /\ is_nan_val (MathUtils.sign x) = false.
Proof.
  unfold MathUtils.sign, sign_by_cases, jgt, jlt. cbn [ToNumber].
  destruct (0 <? ToNumber x)%float eqn:Hp.
  - rewrite (ltb_asym _ _ Hp). split; reflexivity.
  - destruct (ToNumber x <? 0)%float; split; reflexivity.
Qed.

(** X23.  On an interval that is empty or inverted ([max <= min]) the
    two smooth steps are a plain step at [min] for every number [x]:
    the quotient [(x - min) / (max - min)], which would divide by zero
    or by a negative width, is never computed. *)
Theorem smooth_steps_on_an_empty_interval (x lo hi : jsval) :
  is_nan (ToNumber x) = false ->
  jle hi lo = true ->
  MathUtils.smoothstep x lo hi = step_at lo x
  /\ MathUtils.smootherstep x lo hi = step_at lo x.
Proof.
  intros Hx Hle. unfold MathUtils.smoothstep, MathUtils.smootherstep, step_at, jle in *.
  destruct (leb_not_nan _ _ Hle) as [Hhi Hlo].
  destruct (ToNumber x <=? ToNumber lo)%float eqn:E; [split; reflexivity|].
  assert (Hlt : (ToNumber lo <? ToNumber x)%float = true).
  { destruct (ToNumber lo <? ToNumber x)%float eqn:E2; [reflexivity|].
    rewrite (not_ltb_leb _ _ Hx Hlo E2) in E. discriminate E. }
  rewrite (ltb_leb _ _ (leb_ltb_trans _ _ _ Hle Hlt)). split; reflexivity.
Qed.

(** The theorem at [smoothstep(3, 2, 2)], where [min = max]: 1. *)
Lemma smooth_steps_on_an_empty_interval_witness :
  MathUtils.smoothstep (JNum 3) (JNum 2) (JNum 2) = JNum 1
  /\ MathUtils.smootherstep (JNum 3) (JNum 2) (JNum 2) = JNum 1.
Proof.
  exact (smooth_steps_on_an_empty_interval (JNum 3) (JNum 2) (JNum 2) eq_refl eq_refl).
Defined.

Lemma diff_loop_spec (arr1 arr2 : list float) (total : float) :
  length arr1 = length arr2 ->
  length (fst (MathUtils.diff_loop arr1 arr2 total)) = length arr1
  /\ snd (MathUtils.diff_loop arr1 arr2 total)
     = fold_left PrimFloat.add (fst (MathUtils.diff_loop arr1 arr2 total)) total
  /\ forall i, i < length arr1 ->
       nth i (fst (MathUtils.diff_loop arr1 arr2 total)) 0%float
       = MathUtils.to_float32 (abs (nth i arr1 0 - nth i arr2 0))%float.
Proof.
  revert arr2 total. induction arr1 as [|a t1 IH]; intros [|b t2] total Hlen;
    try discriminate Hlen.
  - simpl. repeat split. intros i Hi. lia.
  - simpl in Hlen. injection Hlen as Hlen.
    specialize (IH t2 (total + MathUtils.to_float32 (abs (a - b)))%float Hlen).
    simpl. destruct (MathUtils.diff_loop t1 t2 _) as [ds tot].
    simpl in *. destruct IH as (IH1 & IH2 & IH3).
    split; [congruence|]. split; [exact IH2|].
    intros [|i] Hi; [reflexivity|]. apply IH3. lia.
Qed.

(** X24.  [diffTypedArray(arr1, arr2)] throws the error
    "Array length mismatch" exactly when the lengths differ; otherwise
    [diffArray] has the length of the arguments, its entry [i] is
    [|arr1[i] - arr2[i]|] rounded to binary32 - the array is a
    [Float32Array] - and [totalDiff] is the sum, from the left, of the
    entries as stored, not of the exact differences. *)
Theorem diffTypedArray_lengths (arr1 arr2 : list float) :
  (length arr1 <> length arr2 ->
   MathUtils.diffTypedArray arr1 arr2 = inl (JSError "Array length mismatch"))
  /\ (length arr1 = length arr2 ->
      exists diffArray totalDiff,
        MathUtils.diffTypedArray arr1 arr2 = inr (diffArray, totalDiff)
        /\ length diffArray = length arr1
        /\ totalDiff = fold_left PrimFloat.add diffArray 0%float
        /\ forall i, i < length arr1 ->
             nth i diffArray 0%float
             = MathUtils.to_float32 (abs (nth i arr1 0 - nth i arr2 0))%float).
Proof.
  unfold MathUtils.diffTypedArray. split; intros H.
  - apply Nat.eqb_neq in H. rewrite H. reflexivity.
  - pose proof (diff_loop_spec arr1 arr2 0%float H) as (H1 & H2 & H3).
    apply Nat.eqb_eq in H. rewrite H. simpl.
    destruct (MathUtils.diff_loop arr1 arr2 0) as [ds tot].
    exists ds, tot. auto.
Qed.

(** The theorem at [[1, 2]] against [[1]], and at [[0.5, 3]] against
    [[0.4, 1]]: the first entry is the binary32 number nearest to the
    difference. *)
Lemma diffTypedArray_lengths_witness :
  MathUtils.diffTypedArray [1%float; 2%float] [1%float]
  = inl (JSError "Array length mismatch")
  /\ exists diffArray totalDiff,
       MathUtils.diffTypedArray [0.5%float; 3%float] [0.4%float; 1%float]
       = inr (diffArray, totalDiff)
       /\ length diffArray = 2.
Proof.
  split.
  - apply (proj1 (diffTypedArray_lengths [1%float; 2%float] [1%float])).
    simpl. lia.
  - destruct (proj2 (diffTypedArray_lengths [0.5%float; 3%float] [0.4%float; 1%float])
                eq_refl) as (ds & tot & E & Hl & _).
    exists ds, tot. split; [exact E | exact Hl].
Defined.

(** ** The UUID *)

Lemma below_check (p : nat -> bool) (n : nat) :
  forallb p (seq 0 n) = true -> forall k, k < n -> p k = true.
Proof.
  intros H k Hk. rewrite forallb_forall in H. apply H, in_seq. lia.
Qed.

Lemma two_chars_inv (first second s : string) :
  two_chars first second s = true ->
  exists c1 c2,
    s = String c1 (String c2 EmptyString)
    /\ mem (MathUtils.lower c1) first = true
    /\ mem (MathUtils.lower c2) second = true.
Proof.
  destruct s as [|c1 [|c2 [|c3 t]]]; try discriminate.
  simpl. intros H. apply andb_true_iff in H. exists c1, c2. tauto.
Qed.

(** Every entry of the table is two hexadecimal digits. *)
Lemma byte_piece (z : BinNums.Z) :
  two_chars "0123456789abcdef" "0123456789abcdef"
    (MathUtils.lut_at (Z.land z 255)) = true.
Proof.
  change 255%Z with (Z.ones 8). rewrite Z.land_ones by lia.
  pose proof (Z.mod_pos_bound z (2 ^ 8) ltac:(lia)) as Hb.
  rewrite <- (Z2Nat.id (z mod 2 ^ 8)) by lia.
  apply (below_check
           (fun n => two_chars "0123456789abcdef" "0123456789abcdef"
                       (MathUtils.lut_at (Z.of_nat n))) 256).
  - vm_compute. reflexivity.
  - change (2 ^ 8)%Z with 256%Z in *. lia.
Qed.

(** The entry at [x & 0x0f | 0x40] begins with the digit 4. *)
Lemma version_piece (z : BinNums.Z) :
  two_chars "4" "0123456789abcdef"
    (MathUtils.lut_at (Z.lor (Z.land z 15) 64)) = true.
Proof.
  change 15%Z with (Z.ones 4). rewrite Z.land_ones by lia.
  pose proof (Z.mod_pos_bound z (2 ^ 4) ltac:(lia)) as Hb.
  rewrite <- (Z2Nat.id (z mod 2 ^ 4)) by lia.
  apply (below_check
           (fun n => two_chars "4" "0123456789abcdef"
                       (MathUtils.lut_at (Z.lor (Z.of_nat n) 64))) 16).
  - vm_compute. reflexivity.
  - change (2 ^ 4)%Z with 16%Z in *. lia.
Qed.

(** The entry at [x & 0x3f | 0x80] begins with 8, 9, a or b. *)
Lemma variant_piece (z : BinNums.Z) :
  two_chars "89ab" "0123456789abcdef"
    (MathUtils.lut_at (Z.lor (Z.land z 63) 128)) = true.
Proof.
  change 63%Z with (Z.ones 6). rewrite Z.land_ones by lia.
  pose proof (Z.mod_pos_bound z (2 ^ 6) ltac:(lia)) as Hb.
  rewrite <- (Z2Nat.id (z mod 2 ^ 6)) by lia.
  apply (below_check
           (fun n => two_chars "89ab" "0123456789abcdef"
                       (MathUtils.lut_at (Z.lor (Z.of_nat n) 128))) 64).
  - vm_compute. reflexivity.
  - change (2 ^ 6)%Z with 64%Z in *. lia.
Qed.

Ltac open_piece :=
  match goal with
  | |- context [MathUtils.lut_at (Z.lor (Z.land ?z 15) 64)] =>
      let E := fresh in let H1 := fresh in let H2 := fresh in
      destruct (two_chars_inv _ _ _ (version_piece z)) as (? & ? & E & H1 & H2);
      rewrite E; clear E
  | |- context [MathUtils.lut_at (Z.lor (Z.land ?z 63) 128)] =>
      let E := fresh in let H1 := fresh in let H2 := fresh in
      destruct (two_chars_inv _ _ _ (variant_piece z)) as (? & ? & E & H1 & H2);
      rewrite E; clear E
  | |- context [MathUtils.lut_at (Z.land ?z 255)] =>
      let E := fresh in let H1 := fresh in let H2 := fresh in
      destruct (two_chars_inv _ _ _ (byte_piece z)) as (? & ? & E & H1 & H2);
      rewrite E; clear E
  end.

Lemma uuid_of_shape (d0 d1 d2 d3 : BinNums.Z) :
  is_uuid_v4 (MathUtils.uuid_of d0 d1 d2 d3) = true.
Proof.
  unfold MathUtils.uuid_of. repeat open_piece.
  unfold is_uuid_v4.
  cbv beta iota fix delta
    [String.concat String.append MathUtils.toLowerCase shaped_from uuid_char].
  repeat match goal with
         | H : mem _ _ = true |- _ => rewrite H; clear H
         end.
  reflexivity.
Qed.

(** X25.  [generateUUID()] always returns, whatever [Math.random]
    answers: it draws four numbers and yields a string of 36 characters
    in the shape of a version-4 UUID - lower-case hexadecimal digits with
    hyphens at the positions 8, 13, 18 and 23, the version digit 4 at 14
    and a variant digit 8, 9, a or b at 19; no index leaves the table
    [_lut]. *)
Theorem generateUUID_is_version_4 (P : Platform) (st : State) :
  exists s,
    MathUtils.generateUUID P st = Ok s (drawn 4 st)
    /\ is_uuid_v4 s = true.
Proof.
  eexists. split; [reflexivity|]. apply uuid_of_shape.
Qed.

(* ================================================================== *)
(** * Distances *)
(* ================================================================== *)

Lemma SFabs_round_aux (s s' : bool) (m e : BinNums.Z) (l : location) :
  SFabs (binary_round_aux prec emax s m e l)
  = SFabs (binary_round_aux prec emax s' m e l).
Proof.
  unfold binary_round_aux.
  destruct (shr_fexp prec emax m e l) as [mrs' e'].
  destruct (shr_fexp prec emax _ e' loc_Exact) as [mrs'' e''].
  destruct (shr_m mrs''); try reflexivity.
  destruct (e'' <=? emax - prec)%Z; reflexivity.
Qed.

Lemma SFabs_round (s s' : bool) (m : positive) (e : BinNums.Z) :
  SFabs (binary_round prec emax s m e) = SFabs (binary_round prec emax s' m e).
Proof.
  unfold binary_round.
  destruct (shl_align m e _) as [mz ez]. apply SFabs_round_aux.
Qed.

Lemma SFabs_normalize_opp (m e : BinNums.Z) :
  SFabs (binary_normalize prec emax (- m) e false)
  = SFabs (binary_normalize prec emax m e false).
Proof.
  destruct m as [|p|p]; simpl; try reflexivity; apply SFabs_round.
Qed.

(** [x - y] and [y - x] have the same magnitude. *)
Lemma SFabs_sub_swap (x y : spec_float) :
  SFabs (SFsub prec emax x y) = SFabs (SFsub prec emax y x).
Proof.
  destruct x as [sx|sx| |sx mx ex], y as [sy|sy| |sy my ey];
    try reflexivity; try (destruct sx, sy; reflexivity).
  unfold SFsub. rewrite (Z.min_comm ey ex).
  rewrite <- SFabs_normalize_opp. f_equal. f_equal. lia.
Qed.

(** A square depends on the magnitude only. *)
Lemma SFmul_square (x y : spec_float) :
  SFabs x = SFabs y -> SFmul prec emax x x = SFmul prec emax y y.
Proof.
  destruct x as [sx|sx| |sx mx ex], y as [sy|sy| |sy my ey];
    try discriminate; simpl; intros H; try reflexivity.
  - destruct sx, sy; reflexivity.
  - destruct sx, sy; reflexivity.
  - injection H as -> ->. destruct sx, sy; reflexivity.
Qed.

Lemma jabs_sub_swap (a b : jsval) : Math_abs (a - b)%jv = Math_abs (b - a)%jv.
Proof.
  unfold Math_abs, jsub. cbn [ToNumber]. f_equal.
  apply Prim2SF_inj. rewrite !abs_spec, !sub_spec. apply SFabs_sub_swap.
Qed.

Lemma jsquare_sub_swap (a b : jsval) :
  ((a - b) * (a - b))%jv = ((b - a) * (b - a))%jv.
Proof.
  unfold jmul, jsub. cbn [ToNumber]. f_equal.
  apply Prim2SF_inj. rewrite !mul_spec. apply SFmul_square.
  rewrite !sub_spec. apply SFabs_sub_swap.
Qed.

(** X26.  Distances are symmetric, bit for bit: [a.distanceTo(b)],
    [a.distanceToSquared(b)] and [a.manhattanDistanceTo(b)] answer what
    the same call on [b] with [a] answers, in Vector3 and Vector2, and
    [diffFloat(x, y)] of MathUtils is [diffFloat(y, x)]. *)
Theorem distances_are_symmetric (a b : loc) (oa ob : Obj) (st : State) :
  sees a oa st -> sees b ob st ->
  Vector3.distanceToSquared a b st = Vector3.distanceToSquared b a st
  /\ Vector3.distanceTo a b st = Vector3.distanceTo b a st
  /\ Vector3.manhattanDistanceTo a b st = Vector3.manhattanDistanceTo b a st
  /\ Vector2.distanceToSquared a b st = Vector2.distanceToSquared b a st
  /\ Vector2.distanceTo a b st = Vector2.distanceTo b a st
  /\ Vector2.manhattanDistanceTo a b st = Vector2.manhattanDistanceTo b a st
  /\ forall x y, MathUtils.diffFloat x y = MathUtils.diffFloat y x.
Proof.
  intros Ha Hb.
  unfold Vector3.distanceTo, Vector3.distanceToSquared, Vector3.manhattanDistanceTo,
    Vector2.distanceTo, Vector2.distanceToSquared, Vector2.manhattanDistanceTo,
    MathUtils.diffFloat.
  unfold_glue. unfold bind, rd, ret. unfold sees in *. step_heap.
  rewrite (jsquare_sub_swap (obj_x oa)), (jsquare_sub_swap (obj_y oa)),
    (jsquare_sub_swap (obj_z oa)), (jabs_sub_swap (obj_x oa)),
    (jabs_sub_swap (obj_y oa)), (jabs_sub_swap (obj_z oa)).
  repeat split; try reflexivity. intros x y. apply jabs_sub_swap.
Qed.

(** The theorem at the two vectors of the sample store. *)
Lemma distances_are_symmetric_witness :
  Vector3.distanceTo 2 3 (sample_state (JNum 1.5) (JNum 2) (JNum (-3)))
  = Vector3.distanceTo 3 2 (sample_state (JNum 1.5) (JNum 2) (JNum (-3))).
Proof.
  exact (proj1 (proj2 (distances_are_symmetric 2 3
           (set_onChange (Some 7)
              (fresh_obj IsVector3 (JNum 1.5) (JNum 2) (JNum (-3)) JUndef))
           (fresh_obj IsVector3 (JNum 0) (JNum 1) (JNum 0) JUndef)
           (sample_state (JNum 1.5) (JNum 2) (JNum (-3))) eq_refl eq_refl))).
Defined.

(* ================================================================== *)
(** * random *)
(* ================================================================== *)

Lemma runs_random P st :
  runs (Math_random P) st (draw P st 0) (drawn 1 st).
Proof. reflexivity. Qed.

Lemma sees_drawn n l o st : sees l o st -> sees l o (drawn n st).
Proof. exact (fun H => H). Qed.

Ltac run_random :=
  unfold_glue;
  repeat first
    [ lazymatch goal with
      | |- runs (Math_random _) _ _ _ => apply runs_random
      | |- runs (wr _ _ _) _ _ _ =>
          eapply runs_wr;
          repeat first [ apply sees_put | apply sees_drawn | eassumption ]
      | |- runs (markDirty _) _ _ _ =>
          eapply runs_markDirty;
          repeat first [ apply sees_put | apply sees_drawn | eassumption ]
      end
    | run_step ].

(** X27.  [random()] draws one number per component, in the order
    [x], [y], [z], [w], and nothing more: the components are the next
    three (four, two) answers of [Math.random()]. *)
Theorem random_draws_in_order (P : Platform) (this : loc) (o : Obj) (st : State) :
  sees this o st ->
  (exists st' o',
     Vector3.random P this st = Ok (RObj this) st' /\ sees this o' st'
     /\ obj_x o' = draw P st 0 /\ obj_y o' = draw P st 1 /\ obj_z o' = draw P st 2
     /\ rand_calls st' = 3 + rand_calls st)
  /\ (exists st' o',
        Vector4.random P this st = Ok (RObj this) st' /\ sees this o' st'
        /\ obj_x o' = draw P st 0 /\ obj_y o' = draw P st 1
        /\ obj_z o' = draw P st 2 /\ obj_w o' = draw P st 3
        /\ rand_calls st' = 4 + rand_calls st)
  /\ (exists st' o',
        Vector2.random P this st = Ok (RObj this) st' /\ sees this o' st'
        /\ obj_x o' = draw P st 0 /\ obj_y o' = draw P st 1
        /\ rand_calls st' = 2 + rand_calls st).
Proof.
  intros Ho. split; [|split]; eexists; eexists; (split; [|split]).
  - apply runs_ok. unfold Vector3.random. run_random.
  - solve_sees.
  - simpl. repeat split. destruct (onChange o); reflexivity.
  - apply runs_ok. unfold Vector4.random. run_random.
  - solve_sees.
  - simpl. repeat split. destruct (onChange o); reflexivity.
  - apply runs_ok. unfold Vector2.random. run_random.
  - solve_sees.
  - simpl. repeat split. destruct (onChange o); reflexivity.
Qed.

(** The theorem at the observed vector of the sample store, with a host
    whose [n]-th draw is [n / 4]. *)
Lemma random_draws_in_order_witness :
  exists st' o',
    Vector3.random
      {| host_sin := fun _ => nan; host_cos := fun _ => nan;
         host_acos := fun _ => nan; host_atan2 := fun _ _ => nan;
         host_pow := fun _ _ => nan;
         host_random := fun n => (of_uint63 (Uint63.of_Z (Z.of_nat n)) / 4)%float;
         generateId := fun kind _ => kind;
         quat_from_euler := fun _ => (JNum 0, JNum 0, JNum 0, JNum 1);
         quat_from_axis_angle := fun _ _ => (JNum 0, JNum 0, JNum 0, JNum 1) |}
      2 (sample_state (JNum 1) (JNum 2) (JNum 3)) = Ok (RObj 2) st'
    /\ sees 2 o' st'
    /\ obj_x o' = JNum 0 /\ obj_y o' = JNum 0.25 /\ obj_z o' = JNum 0.5.
Proof.
  destruct (proj1 (random_draws_in_order
              {| host_sin := fun _ => nan; host_cos := fun _ => nan;
                 host_acos := fun _ => nan; host_atan2 := fun _ _ => nan;
                 host_pow := fun _ _ => nan;
                 host_random := fun n => (of_uint63 (Uint63.of_Z (Z.of_nat n)) / 4)%float;
                 generateId := fun kind _ => kind;
                 quat_from_euler := fun _ => (JNum 0, JNum 0, JNum 0, JNum 1);
                 quat_from_axis_angle := fun _ _ => (JNum 0, JNum 0, JNum 0, JNum 1) |}
              2
              (set_onChange (Some 7) (fresh_obj IsVector3 (JNum 1) (JNum 2) (JNum 3) JUndef))
              (sample_state (JNum 1) (JNum 2) (JNum 3)) eq_refl))
    as (st' & o' & Hrun & Ho' & Hx & Hy & Hz & _).
  exists st', o'. split; [exact Hrun|]. split; [exact Ho'|].
  rewrite Hx, Hy, Hz. repeat split; vm_compute; reflexivity.
Defined.

(* ================================================================== *)
(** * A clone compared with its source *)
(* ================================================================== *)

Lemma strict_eq_defaulted (d v : jsval) :
  is_number d = true ->
  strict_eq v (defaulted d v) = is_number v.
Proof.
  intros Hd. destruct v as [f|]; simpl.
  - unfold is_nan. rewrite negb_involutive. reflexivity.
  - destruct d; [reflexivity | discriminate Hd].
Qed.

(** X28.  [v.clone().equals(v)] answers [true] exactly when every
    component of [v] is a number other than [NaN]: a [NaN] differs from
    itself, and an [undefined] component is not copied - the clone has
    the default of the constructor in its place. *)
Theorem clone_equals_its_source (P : Platform) (this : loc) (o : Obj) (st : State) :
  sees this o st ->
  heap st !! next_loc st = None ->
  (exists st', clone_then_equals3 P this st = Ok (all_numbers 3 o) st')
  /\ (exists st', clone_then_equals4 P this st = Ok (all_numbers 4 o) st')
  /\ (exists st', clone_then_equals2 P this st = Ok (all_numbers 2 o) st').
Proof.
  intros Ho Hfree. pose proof (sees_not_next _ _ _ Ho Hfree) as Hne.
  assert (Hs : forall o', sees this o (allocated_in o' (id_issued st))).
  { intros o'. apply (sees_allocated_in _ _ _ (id_issued st)); assumption. }
  unfold all_numbers. split; [|split]; eexists.
  - eapply runs_result.
    + unfold clone_then_equals3. eapply runs_bind.
      * unfold Vector3.clone, Vector3.constructor. unfold_glue. run_clone.
      * apply equals3_runs; [exact (sees_new _ (id_issued st)) | apply Hs].
    + simpl. rewrite !(strict_eq_defaulted (JNum 0)) by reflexivity.
      rewrite andb_true_r. reflexivity.
  - eapply runs_result.
    + unfold clone_then_equals4. eapply runs_bind.
      * unfold Vector4.clone, Vector4.constructor. unfold_glue. run_clone.
      * apply equals4_runs; [exact (sees_new _ (id_issued st)) | apply Hs].
    + simpl. rewrite !(strict_eq_defaulted (JNum 0)) by reflexivity.
      rewrite (strict_eq_defaulted (JNum 1)) by reflexivity. reflexivity.
  - eapply runs_result.
    + unfold clone_then_equals2. eapply runs_bind.
      * unfold Vector2.clone, Vector2.constructor. unfold_glue. run_clone.
      * apply equals2_runs; [exact (sees_new _ (id_issued st)) | apply Hs].
    + simpl. rewrite !(strict_eq_defaulted (JNum 0)) by reflexivity.
      rewrite !andb_true_r. reflexivity.
Qed.

(** The theorem at the observed vector [(1, undefined, 3)]: its clone
    [(1, 0, 3)] does not equal it. *)
Lemma clone_equals_its_source_witness :
  exists st',
    clone_then_equals3 plain_host 2 (sample_state (JNum 1) JUndef (JNum 3))
    = Ok false st'.
Proof.
  exact (proj1 (clone_equals_its_source plain_host 2
           (set_onChange (Some 7) (fresh_obj IsVector3 (JNum 1) JUndef (JNum 3) JUndef))
           (sample_state (JNum 1) JUndef (JNum 3)) eq_refl eq_refl)).
Defined.

(* ================================================================== *)
(** * From an array and back *)
(* ================================================================== *)

(** X29.  [v.fromArray(array, k).toArray()] is the slice of [array]
    from [k], as long as the dimension of the class, each entry exactly
    as it was read - [undefined] where the array ends before it. *)
Theorem fromArray_then_toArray (this : loc) (array : list jsval) (k : nat)
    (o : Obj) (st : State) :
  sees this o st ->
  (exists st',
     from_then_to_array3 this array k st
     = Ok [aget array k; aget array (k + 1); aget array (k + 2)] st')
  /\ (exists st',
        from_then_to_array4 this array k st
        = Ok [aget array k; aget array (k + 1); aget array (k + 2);
              aget array (k + 3)] st')
  /\ (exists st',
        from_then_to_array2 this array k st
        = Ok [aget array k; aget array (k + 1)] st').
Proof.
  intros Ho. split; [|split]; eexists.
  - eapply runs_result.
    + unfold from_then_to_array3, Vector3.fromArray, Vector3.toArray, offset_or_0.
      run.
    + reflexivity.
  - eapply runs_result.
    + unfold from_then_to_array4, Vector4.fromArray, Vector4.toArray, offset_or_0.
      run.
    + reflexivity.
  - eapply runs_result.
    + unfold from_then_to_array2, Vector2.fromArray, Vector2.toArray, offset_or_0.
      run.
    + reflexivity.
Qed.

(** The theorem at [v.fromArray([4, 5, 6, 7], 2).toArray()]:
    [[6, 7, undefined]]. *)
Lemma fromArray_then_toArray_witness :
  exists st',
    from_then_to_array3 2 [JNum 4; JNum 5; JNum 6; JNum 7] 2
      (sample_state (JNum 1) (JNum 2) (JNum 3))
    = Ok [JNum 6; JNum 7; JUndef] st'.
Proof.
  exact (proj1 (fromArray_then_toArray 2 [JNum 4; JNum 5; JNum 6; JNum 7] 2
           (set_onChange (Some 7) (fresh_obj IsVector3 (JNum 1) (JNum 2) (JNum 3) JUndef))
           (sample_state (JNum 1) (JNum 2) (JNum 3)) eq_refl)).
Defined.
